(** * Line components of the 4C input reader

    A shallow embedding of [src/core/io/src/4C_io_linecomponent.cpp]: the
    field components that read one record line from a shared
    [std::stringstream] into an [InputParameterContainer].

    The embedding follows the source: a component's [read] mutates the
    stream and the container it is handed and may throw, so it is a
    function from the two objects to an outcome and the two objects as the
    call (or the throw) leaves them.  The C++ library objects the source
    drives ([std::string], [std::stringstream], [std::stoi]) are modelled
    first, in [Module std]. *)

From Stdlib Require Import ZArith Lia Ascii String List Bool Sorted.
From stdpp Require Import base gmap strings list.

Set Warnings "-register-all".

Local Open Scope Z_scope.

(** ** The C++ library objects the source uses *)

Module std.

(** [std::size_t]: 64-bit, unsigned, wrapping. *)
Definition size_max : Z := 2 ^ 64.
Definition size_t (z : Z) : Z := z mod size_max.

(** [std::string::npos]. *)
Definition npos : Z := size_max - 1.

Definition size (s : string) : Z := Z.of_nat (String.length s).

(** The classic locale's [isspace]: blank, \t, \n, \v, \f, \r. *)
Definition isspace (c : ascii) : bool :=
  let n := nat_of_ascii c in
  (Nat.eqb n 32 || (Nat.leb 9 n && Nat.leb n 13))%bool.

Definition isdigit (c : ascii) : bool :=
  let n := nat_of_ascii c in (Nat.leb 48 n && Nat.leb n 57)%bool.

Definition digit_value (c : ascii) : Z := Z.of_nat (nat_of_ascii c) - 48.

(** The first [n] characters, and what follows them. *)
Fixpoint take (n : nat) (s : string) : string :=
  match n, s with
  | S n', String c s' => String c (take n' s')
  | _, _ => EmptyString
  end.

Fixpoint drop (n : nat) (s : string) : string :=
  match n, s with
  | S n', String _ s' => drop n' s'
  | _, _ => s
  end.

(** [s.find(pat)]: index of the first occurrence of [pat] in [s]. *)
Fixpoint find (s pat : string) : option nat :=
  if String.prefix pat s then Some 0%nat
  else match s with
       | EmptyString => None
       | String _ s' => option_map S (find s' pat)
       end.

(** The [size_t] that [find] returns. *)
Definition find_pos (s pat : string) : Z :=
  match find s pat with
  | Some p => Z.of_nat p
  | None => npos
  end.

(** [s.erase(pos, n)], for [size_t] values [pos] and [n]: throws
    [std::out_of_range] when [pos > size()], otherwise removes
    [min(n, size() - pos)] characters at [pos]. *)
Definition erase (s : string) (pos n : Z) : option string :=
  if size s <? pos then None
  else
    let count := Z.min n (size s - pos) in
    Some (take (Z.to_nat pos) s +:+ drop (Z.to_nat (pos + count)) s).

(** [s.substr(pos)]: throws [std::out_of_range] when [pos > size()]. *)
Definition substr (s : string) (pos : nat) : option string :=
  if (String.length s <? pos)%nat then None else Some (drop pos s).

(** [pre] and [post] surround the first occurrence of [pat] in [s]. *)
Definition first_occurrence (pat s pre post : string) : Prop :=
  s = pre +:+ pat +:+ post /\
  forall pre' post', s = pre' +:+ pat +:+ post' ->
    (String.length pre <= String.length pre')%nat.

(** [pat] occurs somewhere in [s]. *)
Definition occurs (pat s : string) : Prop :=
  exists pre post, s = pre +:+ pat +:+ post.

(** A [std::string] holds at most [PTRDIFF_MAX] characters. *)
Definition max_size : Z := 2 ^ 63 - 1.

(** *** [std::stringstream]

    The buffer, the get position inside it, and the two state bits the
    source can raise.  [badbit] is never set by a string buffer. *)
Record stringstream : Type := mk_stream {
  buf : string;
  gptr : nat;
  eofbit : bool;
  failbit : bool
}.

Definition good (ss : stringstream) : bool :=
  (negb (eofbit ss) && negb (failbit ss))%bool.

Definition setstate_fail (ss : stringstream) : stringstream :=
  mk_stream (buf ss) (gptr ss) (eofbit ss) true.

Definition clear_eof (ss : stringstream) : stringstream :=
  mk_stream (buf ss) (gptr ss) false (failbit ss).

(** A stream as the library can hold it: the get position is inside the
    buffer. *)
Definition wf (ss : stringstream) : Prop :=
  (gptr ss <= String.length (buf ss))%nat.

(** [ss.str()]. *)
Definition str (ss : stringstream) : string := buf ss.

(** [ss.str(t)]: replaces the buffer and rewinds the get position; the
    state bits stay as they are. *)
Definition set_str (t : string) (ss : stringstream) : stringstream :=
  mk_stream t 0 (eofbit ss) (failbit ss).

(** [ss.tellg()]: an unformatted input function.  Its sentry sets
    [failbit] on a stream that is not [good()]; the result is then
    [pos_type(-1)]. *)
Definition tellg (ss : stringstream) : Z * stringstream :=
  if good ss then (Z.of_nat (gptr ss), ss)
  else (-1, setstate_fail ss).

(** [ss.seekg(pos)]: clears [eofbit], then repositions when the stream has
    not failed; a position outside the buffer sets [failbit]. *)
Definition seekg (pos : Z) (ss : stringstream) : stringstream :=
  let s1 := clear_eof ss in
  if failbit s1 then s1
  else if ((0 <=? pos) && (pos <=? size (buf s1)))%bool
       then mk_stream (buf s1) (Z.to_nat pos) false false
       else setstate_fail s1.

(** [ss.seekg(0, ss.end)]. *)
Definition seekg_end (ss : stringstream) : stringstream :=
  let s1 := clear_eof ss in
  if failbit s1 then s1
  else mk_stream (buf s1) (String.length (buf s1)) false false.

(** Leading characters that satisfy [p], counted. *)
Fixpoint span_length (p : ascii -> bool) (s : string) : nat :=
  match s with
  | String c s' => if p c then S (span_length p s') else 0%nat
  | EmptyString => 0%nat
  end.

(** Every character of [s] satisfies [p]. *)
Fixpoint all_chars (p : ascii -> bool) (s : string) : bool :=
  match s with
  | String c s' => (p c && all_chars p s')%bool
  | EmptyString => true
  end.

(** A token as [>>] extracts it: not empty, no white space inside. *)
Definition is_token (s : string) : Prop :=
  s <> "" /\ all_chars (fun c => negb (isspace c)) s = true.

(** [ss >> token]: a formatted input function.  The sentry skips white
    space; when that runs into the end of the buffer it sets [eofbit] and
    [failbit] and the string argument keeps its old value [old].
    Otherwise the characters up to the next white space are extracted;
    [eofbit] is set when the token ends at the end of the buffer. *)
Definition extract (old : string) (ss : stringstream) : string * stringstream :=
  if good ss then
    let rest := drop (gptr ss) (buf ss) in
    let ws := span_length isspace rest in
    let rest' := drop ws rest in
    match rest' with
    | EmptyString =>
        (old, mk_stream (buf ss) (String.length (buf ss)) true true)
    | String _ _ =>
        let n := span_length (fun c => negb (isspace c)) rest' in
        (take n rest',
         mk_stream (buf ss) (gptr ss + ws + n)
           (Nat.eqb n (String.length rest')) false)
    end
  else (old, setstate_fail ss).

(** *** [std::stoi]

    [strtol] in base ten: white space, an optional sign, digits.  No
    digit: [std::invalid_argument].  A value outside [int]:
    [std::out_of_range].  Otherwise the value and the index of the first
    character that was not converted. *)
Inductive sto_result (A : Type) : Type :=
| Converted (v : A) (pos : nat)
| invalid_argument
| out_of_range.
Arguments Converted {A} v pos.
Arguments invalid_argument {A}.
Arguments out_of_range {A}.

Fixpoint scan_digits (acc : Z) (s : string) : Z * nat :=
  match s with
  | String c s' =>
      if isdigit c then
        let '(v, n) := scan_digits (10 * acc + digit_value c) s' in (v, S n)
      else (acc, 0%nat)
  | EmptyString => (acc, 0%nat)
  end.

Definition int_min : Z := - 2 ^ 31.
Definition int_max : Z := 2 ^ 31 - 1.

Definition stoi (s : string) : sto_result Z :=
  let ws := span_length isspace s in
  let body := drop ws s in
  let '(neg, sign_len, digits) :=
    match body with
    | String "-"%char r => (true, 1%nat, r)
    | String "+"%char r => (false, 1%nat, r)
    | _ => (false, 0%nat, body)
    end in
  let '(v, n) := scan_digits 0 digits in
  if Nat.eqb n 0 then invalid_argument
  else
    let v' := if neg then - v else v in
    if ((int_min <=? v') && (v' <=? int_max))%bool
    then Converted v' (ws + sign_len + n)
    else out_of_range.

(** *** [std::to_string(int)], and [stream << int]

    The decimal digits, most significant first, after a minus sign for a
    negative number. *)
Definition digit_char (d : Z) : ascii := ascii_of_nat (Z.to_nat (48 + d)).

Fixpoint digits_before (fuel : nat) (n : Z) (tail : string) : string :=
  match fuel with
  | O => tail
  | S fuel' =>
      let tail' := String (digit_char (n mod 10)) tail in
      if n <? 10 then tail' else digits_before fuel' (n / 10) tail'
  end.

Definition digits (n : Z) : string :=
  digits_before (S (Z.to_nat (Z.log2 n))) n "".

Definition to_string (n : Z) : string :=
  if n <? 0 then String "-" (digits (- n)) else digits n.

(** *** [stream << std::setw(w) << std::left << s]

    On a stream with the blank as its fill character: [s], then blanks up
    to the width [w]; a longer [s] is written whole. *)
Fixpoint fill (n : nat) (c : ascii) : string :=
  match n with
  | O => EmptyString
  | S n' => String c (fill n' c)
  end.

Definition setw_left (w : nat) (s : string) : string :=
  s +:+ fill (w - String.length s) " ".

End std.

(** ** Floating point

    [double] and [std::stod] belong to the C++ library; the components
    only pass the values through.  They are an interface here, so that
    every statement about a Real field holds for whatever the library
    does. *)
Class FloatingPoint : Type := {
  double : Type;
  (** [std::stod(s, &pos)] *)
  stod : string -> std.sto_result double
}.

Module Input.
Import std.

Section Components.
Context `{FP : FloatingPoint}.

(** *** Exceptions

    [FOUR_C_THROW(fmt, args...)] keeps its format string and its
    arguments; the library's exceptions are named after their classes. *)
Inductive fmt_arg : Type :=
| arg_s (s : string)
| arg_d (n : Z)
| arg_f (x : double).

Inductive exception : Type :=
| four_c_throw (fmt : string) (args : list fmt_arg)
| four_c_assert (msg : string)
| std_out_of_range
| std_length_error
| container_error (name : string)
| array_range_error.

Inductive result (A : Type) : Type :=
| Return (a : A)
| Throw (e : exception).
#[global] Arguments Return {A} a.
#[global] Arguments Throw {A} e.

(** *** The result container *)

(** Modelled from the spec: the values of [Core::IO::InputParameterContainer]
    ([4C_io_input_parameter_container.hpp] is not among the sources): an
    integer, a real, a string, a boolean, or a sequence of integers or of
    reals. *)
Inductive value : Type :=
| v_int (n : Z)
| v_real (x : double)
| v_string (s : string)
| v_bool (b : bool)
| v_int_vector (l : list Z)
| v_real_vector (l : list double).

Abbreviation container := (gmap string value).

(** Modelled from the spec: [InputParameterContainer::add], the store's
    [set(name, value)]: the name holds the value afterwards. *)
Definition container_add (name : string) (v : value) (c : container) : container :=
  <[name := v]> c.

(** Modelled from the spec: [InputParameterContainer::get<int>], the store's
    [get(name)]: it fails when the name is absent or holds no integer. *)
Definition container_get_int (c : container) (name : string) : result Z :=
  match c !! name with
  | Some (v_int n) => Return n
  | _ => Throw (container_error name)
  end.

(** *** Calls that mutate the shared stream and container

    A call gets the stream and the container and hands both back, in the
    state they have when it returns or throws. *)
Definition M (A : Type) : Type :=
  stringstream -> container -> result A * stringstream * container.

Definition ret {A} (a : A) : M A := fun ss c => (Return a, ss, c).
Definition throw {A} (e : exception) : M A := fun ss c => (Throw e, ss, c).
Definition bind {A B} (m : M A) (k : A -> M B) : M B :=
  fun ss c =>
    match m ss c with
    | (Return a, ss', c') => k a ss' c'
    | (Throw e, ss', c') => (Throw e, ss', c')
    end.
Definition lift {A} (r : result A) : M A := fun ss c => (r, ss, c).

Notation "x <- m ;; k" := (bind m (fun x => k))
  (at level 100, m at next level, right associativity).
Notation "m ;;; k" := (bind m (fun _ => k))
  (at level 100, right associativity).

Definition condline_str : M string := fun ss c => (Return (str ss), ss, c).
Definition condline_set_str (t : string) : M unit :=
  fun ss c => (Return tt, set_str t ss, c).
Definition condline_tellg : M Z :=
  fun ss c => let '(p, ss') := tellg ss in (Return p, ss', c).
Definition condline_seekg (pos : Z) : M unit :=
  fun ss c => (Return tt, seekg pos ss, c).
Definition condline_seekg_end : M unit :=
  fun ss c => (Return tt, seekg_end ss, c).
Definition condline_extract (old : string) : M string :=
  fun ss c => let '(t, ss') := extract old ss in (Return t, ss', c).
Definition string_erase (s : string) (pos n : Z) : M string :=
  match erase s pos n with
  | Some s' => ret s'
  | None => throw std_out_of_range
  end.
Definition add (name : string) (v : value) : M unit :=
  fun ss c => (Return tt, ss, container_add name v c).
Definition get_container : M container := fun ss c => (Return c, ss, c).

(** [(std::streampos) position] for a [size_t]. *)
Definition streampos (z : Z) : Z := if z <? 2 ^ 63 then z else z - size_max.

(** [condline->str(condline->str().erase((size_t)condline->tellg() - token.size(), token.size()))]:
    the idiom every value field uses to take the token it has just
    extracted out of the buffer. *)
Definition erase_extracted (token : string) : M unit :=
  t <- condline_tellg ;;
  s <- condline_str ;;
  s' <- string_erase s (size_t (size_t t - size token)) (size token) ;;
  condline_set_str s'.

(** *** Numeric conversion (the anonymous namespace) *)

Definition throw_error_wrong_data_type_int
    (snumbersubstring : string) (number : Z) (variablename sectionname : string)
    : exception :=
  four_c_throw
    "Failed to read value '%s' while reading variable '%s' in '%s'. 4C could only read '%d', so the specified number format is probably not supported. The variable '%s' has to be an integer."
    [arg_s snumbersubstring; arg_s variablename; arg_s sectionname;
     arg_d number; arg_s variablename].

Definition throw_error_wrong_data_type_double
    (snumbersubstring : string) (number : double) (variablename sectionname : string)
    : exception :=
  four_c_throw
    "Failed to read value '%s' while reading variable '%s' in '%s'. 4C could only read '%f', so the specified number format is probably not supported. The variable '%s' has to be a floating point."
    [arg_s snumbersubstring; arg_s variablename; arg_s sectionname;
     arg_f number; arg_s variablename].

Definition missing_value_error (variablename sectionname : string) (variablelength : Z)
    : exception :=
  four_c_throw
    "Invalid argument! No value of variable '%s' in '%s' specified. Possibly you didn't give enough input values. The variable '%s' expects %i input values."
    [arg_s variablename; arg_s sectionname; arg_s variablename; arg_d variablelength].

Definition invalid_value_error (snumber variablename sectionname : string) : exception :=
  four_c_throw
    "Invalid argument! Failed to read the value '%s' of variable '%s' in '%s'."
    [arg_s snumber; arg_s variablename; arg_s sectionname; arg_s variablename].

(** The template, with [convert_string_to_number<T>] and the overload of
    [throw_error_wrong_data_type] for [T] as arguments. *)
Definition convert_and_validate_string_to_number {T : Type}
    (convert_string_to_number : string -> sto_result T)
    (throw_error_wrong_data_type : string -> T -> string -> string -> exception)
    (snumber variablename sectionname : string) (variablelength : Z) (optional : bool)
    : result T :=
  match convert_string_to_number snumber with
  | invalid_argument =>
      if (negb optional && bool_decide (snumber = ""))%bool
      then Throw (missing_value_error variablename sectionname variablelength)
      else Throw (invalid_value_error snumber variablename sectionname)
  | out_of_range => Throw std_out_of_range
  | Converted number pos =>
      if bool_decide (Z.of_nat pos = size snumber) then Return number
      else match substr snumber pos with
           | Some rest =>
               Throw (throw_error_wrong_data_type rest number variablename sectionname)
           | None => Throw std_out_of_range
           end
  end.

Definition convert_int := convert_and_validate_string_to_number stoi throw_error_wrong_data_type_int.
Definition convert_double := convert_and_validate_string_to_number stod throw_error_wrong_data_type_double.

(** *** The components

    [LineComponent] and its subclasses.  Every subclass carries the base
    class's [name_] and [optional_] where its [read] looks at them. *)

(** [IntComponentData], [RealComponentData]: the fields the source reads. *)
Record IntComponentData : Type := {
  int_default_value : Z;
  int_optional : bool
}.

Record RealComponentData : Type := {
  real_default_value : double;
  real_optional : bool
}.

(** [LengthDefinition] is a [std::function<int(const InputParameterContainer&)>];
    the vector components hold a [std::variant<int, LengthDefinition>]. *)
Definition LengthDefinition : Type := container -> result Z.

Inductive length_variant : Type :=
| length_int (length : Z)
| length_from (length : LengthDefinition).

(** Modelled from the spec: [LengthFromInt] (declared in the header, which
    is not among the sources): it looks the named field up in the container,
    which must already hold an integer under that name, and returns that
    integer. *)
Definition LengthFromInt (name : string) : LengthDefinition :=
  fun c => container_get_int c name.

Record Selection : Type := {
  sel_name : string;
  defaultvalue_ : string;
  datfilevalues_ : list string;
  stringcondvalues_ : list string;
  intcondvalues_ : list Z;
  stringtostring_ : bool
}.

(** [std::map<KeyType, std::pair<std::string, std::vector<...>>>] as the list
    of its entries in key order. *)
Inductive LineComponent : Type :=
| SeparatorComponent (optional_ : bool) (separator_ description_ : string)
| StringComponent (name_ : string) (optional_ : bool) (defaultvalue : string)
| SelectionComponent (sel : Selection)
| IntComponent (name_ : string) (data_ : IntComponentData)
| IntVectorComponent (name_ : string) (optional_ : bool)
    (length_ : length_variant) (data_ : IntComponentData)
| RealComponent (name_ : string) (data_ : RealComponentData)
| RealVectorComponent (name_ : string) (optional_ : bool)
    (length_ : length_variant) (data_ : RealComponentData)
| BoolComponent (name_ : string) (optional_ : bool) (defaultvalue : bool)
| SwitchComponent (name_ : string) (default_key_ : Z)
    (choices_ : list (Z * (string * list LineComponent)))
    (component_for_key_ : Selection)
| ProcessedComponent (name_ : string) (optional_ : bool)
    (insert_operation_ : string -> container -> container).

(** [std::find(v.begin(), v.end(), x)] as a distance from [begin()]. *)
Fixpoint index_of (x : string) (v : list string) : nat :=
  match v with
  | [] => 0%nat
  | y :: v' => if bool_decide (y = x) then 0%nat else S (index_of x v')
  end.

(** [Teuchos::Array::operator[]]. *)
Definition array_at {A} (v : list A) (i : nat) : M A :=
  match v !! i with
  | Some a => ret a
  | None => throw array_range_error
  end.

(** The constructor's two checks. *)
Definition selection_checks (defaultvalue : string) (datfilevalues : list string)
    (ncondvalues : nat) : option exception :=
  if bool_decide (index_of defaultvalue datfilevalues = length datfilevalues)
  then Some (four_c_throw "Invalid default value '%s'." [arg_s defaultvalue])
  else if bool_decide (length datfilevalues = ncondvalues) then None
  else Some (four_c_throw "Input file values must match condition values." []).

Definition SelectionComponent_string (name defaultvalue : string)
    (datfilevalues stringcondvalues : list string) : result Selection :=
  match selection_checks defaultvalue datfilevalues (length stringcondvalues) with
  | Some e => Throw e
  | None =>
      Return {| sel_name := name; defaultvalue_ := defaultvalue;
                datfilevalues_ := datfilevalues;
                stringcondvalues_ := stringcondvalues;
                intcondvalues_ := [-1];
                stringtostring_ := true |}
  end.

Definition SelectionComponent_int (name defaultvalue : string)
    (datfilevalues : list string) (intcondvalues : list Z) : result Selection :=
  match selection_checks defaultvalue datfilevalues (length intcondvalues) with
  | Some e => Throw e
  | None =>
      Return {| sel_name := name; defaultvalue_ := defaultvalue;
                datfilevalues_ := datfilevalues;
                stringcondvalues_ := ["notdefined"];
                intcondvalues_ := intcondvalues;
                stringtostring_ := false |}
  end.

(** A Selection that one of the two constructors has built. *)
Definition constructed (sel : Selection) : Prop :=
  (exists name defaultvalue datfilevalues stringcondvalues,
     SelectionComponent_string name defaultvalue datfilevalues stringcondvalues
     = Return sel)
  \/ (exists name defaultvalue datfilevalues intcondvalues,
        SelectionComponent_int name defaultvalue datfilevalues intcondvalues
        = Return sel).

(** The value a Selection stores for the label at index [i]: the string or
    the integer at that index. *)
Definition payload_at (sel : Selection) (i : nat) : option value :=
  if stringtostring_ sel then v_string <$> stringcondvalues_ sel !! i
  else v_int <$> intcondvalues_ sel !! i.

(** *** [describe]

    [SeparatorComponent::describe]; the [describe] of the String, Int,
    Real, Bool and vector components writes nothing. *)
Definition SeparatorComponent_describe (optional_ : bool) (separator_ description_ : string)
    : string :=
  "    " +:+ setw_left 15 separator_
  +:+ setw_left 15 (if optional_ then "(optional)" else "")
  +:+ description_.

(** *** [read] *)

Definition label_pattern (label : string) : string := " " +:+ label +:+ " ".

Definition required_parameter_missing (separator section_name : string) : exception :=
  four_c_throw
    "Required parameter '%s' for section '%s' not specified in input file!"
    [arg_s separator; arg_s section_name].

Definition value_not_properly_specified (name section_name : string) : exception :=
  four_c_throw
    "Value of parameter '%s' for section '%s' not properly specified in input file!"
    [arg_s name; arg_s section_name].

Definition SeparatorComponent_read (optional_ : bool) (separator_ : string)
    (section_name : string) : M unit :=
  s <- condline_str ;;
  let position := find_pos s (label_pattern separator_) in
  if bool_decide (position = npos) then
    if optional_ then condline_seekg_end
    else throw (required_parameter_missing separator_ section_name)
  else
    let position := size_t (position + 1) in
    s <- condline_str ;;
    s' <- string_erase s position (size separator_) ;;
    condline_set_str s' ;;;
    condline_seekg (streampos position).

Definition StringComponent_read (name_ : string) (defaultvalue : string)
    (section_name : string) : M unit :=
  position <- condline_tellg ;;
  s <- condline_str ;;
  if bool_decide (size_t position <> size s) then
    str <- condline_extract defaultvalue ;;
    if bool_decide (str = "")
    then throw (value_not_properly_specified name_ section_name)
    else
      erase_extracted str ;;;
      condline_seekg position ;;;
      add name_ (v_string str)
  else add name_ (v_string defaultvalue).

(** The loop over [datfilevalues_]: the position of the last search and the
    selected value. *)
Fixpoint selection_scan (s : string) (values : list string)
    (position : Z) (selected_value : string) : Z * string :=
  match values with
  | [] => (position, selected_value)
  | v :: values' =>
      let position := find_pos s (label_pattern v) in
      if bool_decide (position <> npos) then (position, v)
      else selection_scan s values' position selected_value
  end.

Definition SelectionComponent_read (sel : Selection) (section_name : string) : M unit :=
  s <- condline_str ;;
  let '(position, selected_value) :=
    selection_scan s (datfilevalues_ sel) 0 (defaultvalue_ sel) in
  let position := size_t (position + 1) in
  s' <- string_erase s position (size selected_value) ;;
  condline_set_str s' ;;;
  condline_seekg (streampos position) ;;;
  let pos := index_of selected_value (datfilevalues_ sel) in
  if stringtostring_ sel then
    v <- array_at (stringcondvalues_ sel) pos ;;
    add (sel_name sel) (v_string v)
  else
    v <- array_at (intcondvalues_ sel) pos ;;
    add (sel_name sel) (v_int v).

Definition IntComponent_read (name_ : string) (data_ : IntComponentData)
    (section_name : string) : M unit :=
  let optional_ := int_optional data_ in
  position <- condline_tellg ;;
  s <- condline_str ;;
  if bool_decide (size_t position <> size s) then
    snumber <- condline_extract "" ;;
    number <-
      (if (negb optional_ || negb (bool_decide (snumber = "")))%bool
       then lift (convert_int snumber name_ section_name 1 optional_)
       else ret (int_default_value data_)) ;;
    erase_extracted snumber ;;;
    condline_seekg position ;;;
    add name_ (v_int number)
  else add name_ (v_int (int_default_value data_)).

Definition visit_length (length_ : length_variant) : M Z :=
  match length_ with
  | length_int n => ret n
  | length_from f => c <- get_container ;; lift (f c)
  end.

(** [std::vector<T> nnumbers(dynamic_length, value)]: the length converts to
    [size_t], and a length beyond [max_size()] throws. *)
Definition new_vector {T} (dynamic_length : Z) (x : T) : M (list T) :=
  if dynamic_length <? 0 then throw std_length_error
  else ret (replicate (Z.to_nat dynamic_length) x).

(** The range-for over the slots of [nnumbers], with its [break]. *)
Fixpoint read_slots {T} (convert : string -> result T) (optional_ : bool)
    (position : Z) (slots : list T) : M (list T) :=
  match slots with
  | [] => ret []
  | current_number :: slots' =>
      snumber <- condline_extract "" ;;
      if (optional_ && bool_decide (snumber = ""))%bool
      then ret (current_number :: slots')
      else
        number <- lift (convert snumber) ;;
        erase_extracted snumber ;;;
        condline_seekg position ;;;
        rest <- read_slots convert optional_ position slots' ;;
        ret (number :: rest)
  end.

Definition IntVectorComponent_read (name_ : string) (optional_ : bool)
    (length_ : length_variant) (data_ : IntComponentData)
    (section_name : string) : M unit :=
  dynamic_length <- visit_length length_ ;;
  nnumbers <- new_vector dynamic_length (int_default_value data_) ;;
  position <- condline_tellg ;;
  s <- condline_str ;;
  nnumbers <-
    (if bool_decide (size_t position <> size s) then
       read_slots
         (fun snumber => convert_int snumber name_ section_name dynamic_length optional_)
         optional_ position nnumbers
     else ret nnumbers) ;;
  add name_ (v_int_vector nnumbers).

Definition RealComponent_read (name_ : string) (data_ : RealComponentData)
    (section_name : string) : M unit :=
  let optional_ := real_optional data_ in
  position <- condline_tellg ;;
  s <- condline_str ;;
  if bool_decide (size_t position <> size s) then
    snumber <- condline_extract "" ;;
    if negb (optional_ && bool_decide (snumber = ""))%bool then
      number <- lift (convert_double snumber name_ section_name 1 optional_) ;;
      erase_extracted snumber ;;;
      condline_seekg position ;;;
      add name_ (v_real number)
    else add name_ (v_real (real_default_value data_))
  else add name_ (v_real (real_default_value data_)).

Definition RealVectorComponent_read (name_ : string) (optional_ : bool)
    (length_ : length_variant) (data_ : RealComponentData)
    (section_name : string) : M unit :=
  dynamic_length <- visit_length length_ ;;
  nnumbers <- new_vector dynamic_length (real_default_value data_) ;;
  position <- condline_tellg ;;
  s <- condline_str ;;
  nnumbers <-
    (if bool_decide (size_t position <> size s) then
       read_slots
         (fun snumber => convert_double snumber name_ section_name dynamic_length optional_)
         optional_ position nnumbers
     else ret nnumbers) ;;
  add name_ (v_real_vector nnumbers).

Definition true_literals : list string := ["Yes"; "YES"; "yes"; "True"; "TRUE"; "true"].
Definition false_literals : list string := ["No"; "NO"; "no"; "False"; "FALSE"; "false"].

Definition BoolComponent_read (name_ : string) (defaultvalue : bool)
    (section_name : string) : M unit :=
  position <- condline_tellg ;;
  s <- condline_str ;;
  if bool_decide (size_t position <> size s) then
    sboolean <- condline_extract "" ;;
    boolean <-
      (if bool_decide (sboolean ∈ true_literals) then ret true
       else if bool_decide (sboolean ∈ false_literals) then ret false
       else throw (value_not_properly_specified name_ section_name)) ;;
    erase_extracted sboolean ;;;
    condline_seekg position ;;;
    add name_ (v_bool boolean)
  else add name_ (v_bool defaultvalue).

Definition ProcessedComponent_read (name_ : string)
    (insert_operation_ : string -> container -> container)
    (section_name : string) : M unit :=
  position <- condline_tellg ;;
  s <- condline_str ;;
  if bool_decide (size_t position <> size s) then
    str <- condline_extract "" ;;
    if bool_decide (str = "")
    then throw (value_not_properly_specified name_ section_name)
    else
      erase_extracted str ;;;
      condline_seekg position ;;;
      (fun ss c => (Return tt, ss, insert_operation_ str c))
  else ret tt.

(** The virtual [read].  For a Switch: the embedded Selection first, the key
    read back from the container, the assertion that the key is one of
    [choices_], then the components of that choice in order. *)
Fixpoint read (section_name : string) (component : LineComponent) {struct component}
    : M unit :=
  match component with
  | SeparatorComponent optional_ separator_ _ =>
      SeparatorComponent_read optional_ separator_ section_name
  | StringComponent name_ _ defaultvalue =>
      StringComponent_read name_ defaultvalue section_name
  | SelectionComponent sel => SelectionComponent_read sel section_name
  | IntComponent name_ data_ => IntComponent_read name_ data_ section_name
  | IntVectorComponent name_ optional_ length_ data_ =>
      IntVectorComponent_read name_ optional_ length_ data_ section_name
  | RealComponent name_ data_ => RealComponent_read name_ data_ section_name
  | RealVectorComponent name_ optional_ length_ data_ =>
      RealVectorComponent_read name_ optional_ length_ data_ section_name
  | BoolComponent name_ _ defaultvalue =>
      BoolComponent_read name_ defaultvalue section_name
  | SwitchComponent name_ _ choices_ component_for_key_ =>
      SelectionComponent_read component_for_key_ section_name ;;;
      c <- get_container ;;
      key <- lift (container_get_int c (sel_name component_for_key_)) ;;
      (fix at_key (choices : list (Z * (string * list LineComponent))) : M unit :=
         match choices with
         | [] => throw (four_c_assert "Internal error.")
         | (k, (_, components)) :: choices' =>
             if bool_decide (k = key) then
               (fix read_each (l : list LineComponent) : M unit :=
                  match l with
                  | [] => ret tt
                  | component :: l' => read section_name component ;;; read_each l'
                  end) components
             else at_key choices'
         end) choices_
  | ProcessedComponent name_ _ insert_operation_ =>
      ProcessedComponent_read name_ insert_operation_ section_name
  end.

(** The line-level driver: each component's [read] in sequence. *)
Fixpoint read_all (section_name : string) (components : list LineComponent) : M unit :=
  match components with
  | [] => ret tt
  | component :: components' =>
      read section_name component ;;; read_all section_name components'
  end.

(** [choices_.count(key) == 1] and [choices_[key].second]. *)
Fixpoint choice_at (choices : list (Z * (string * list LineComponent))) (key : Z)
    : option (string * list LineComponent) :=
  match choices with
  | [] => None
  | (k, choice) :: choices' =>
      if bool_decide (k = key) then Some choice else choice_at choices' key
  end.

Definition SwitchComponent_read (choices_ : list (Z * (string * list LineComponent)))
    (component_for_key_ : Selection) (section_name : string) : M unit :=
  SelectionComponent_read component_for_key_ section_name ;;;
  c <- get_container ;;
  key <- lift (container_get_int c (sel_name component_for_key_)) ;;
  match choice_at choices_ key with
  | None => throw (four_c_assert "Internal error.")
  | Some (_, components) => read_all section_name components
  end.

(** The name under which a component stores its value; a Separator stores
    nothing and a Processed component leaves that to its insertion
    function. *)
Definition written_name (component : LineComponent) : option string :=
  match component with
  | SeparatorComponent _ _ _ => None
  | StringComponent name_ _ _ => Some name_
  | SelectionComponent sel => Some (sel_name sel)
  | IntComponent name_ _ => Some name_
  | IntVectorComponent name_ _ _ _ => Some name_
  | RealComponent name_ _ => Some name_
  | RealVectorComponent name_ _ _ _ => Some name_
  | BoolComponent name_ _ _ => Some name_
  | SwitchComponent _ _ _ component_for_key_ => Some (sel_name component_for_key_)
  | ProcessedComponent _ _ _ => None
  end.

(** The insertion functions of the Processed components inside a component
    only add to the container: a name it holds stays. *)
Fixpoint keeps_names (component : LineComponent) : Prop :=
  match component with
  | ProcessedComponent _ _ insert_operation_ =>
      forall (s : string) (c : container) (n : string),
        is_Some (c !! n) -> is_Some (insert_operation_ s c !! n)
  | SwitchComponent _ _ choices_ _ =>
      (fix at_choices (choices : list (Z * (string * list LineComponent))) : Prop :=
         match choices with
         | [] => True
         | (_, (_, components)) :: choices' =>
             (fix each (l : list LineComponent) : Prop :=
                match l with
                | [] => True
                | component :: l' => keeps_names component /\ each l'
                end) components
             /\ at_choices choices'
         end) choices_
  | _ => True
  end.

(** A [std::map]: the keys of the entries increase. *)
Definition is_map (choices : list (Z * (string * list LineComponent))) : Prop :=
  StronglySorted Z.lt (map fst choices).

(** [SwitchComponent::SwitchComponent]: the keys and labels of [choices] in
    key order feed the embedded Selection, whose default label is
    [choices_[default_key_].first]; [operator[]] adds an empty entry for a
    key the map does not have. *)
Fixpoint map_subscript (choices : list (Z * (string * list LineComponent))) (key : Z)
    : (string * list LineComponent) * list (Z * (string * list LineComponent)) :=
  match choices with
  | [] => (("", []), [(key, ("", []))])
  | (k, choice) :: choices' =>
      if bool_decide (k = key) then (choice, choices)
      else if key <? k then (("", []), (key, ("", [])) :: choices)
      else let '(found, choices'') := map_subscript choices' key in
           (found, (k, choice) :: choices'')
  end.

Definition SwitchComponent_new (name : string) (default_key : Z)
    (choices : list (Z * (string * list LineComponent))) : result LineComponent :=
  let keys := map fst choices in
  let names_for_keys := map (fun kc => fst (snd kc)) choices in
  let '(default_choice, choices_) := map_subscript choices default_key in
  match SelectionComponent_int name (fst default_choice) names_for_keys keys with
  | Return component_for_key => Return (SwitchComponent name default_key choices_ component_for_key)
  | Throw e => Throw e
  end.

(** *** [default_line]

    [ostream_double] stands for the library's [stream << x] on a
    [double]. *)
Section DefaultLine.
Variable ostream_double : double -> string.

Definition DefaultLengthVisitor (length_ : length_variant) : Z :=
  match length_ with
  | length_int n => n
  | length_from _ => 1
  end.

(** [for (int i = 0; i < default_length; ++i) stream << text]. *)
Definition stream_times (default_length : Z) (text : string) : string :=
  String.concat "" (replicate (Z.to_nat default_length) text).

Definition print_yes_no (value : bool) : string := if value then "Yes" else "No".

Fixpoint default_line (component : LineComponent) : string :=
  match component with
  | SeparatorComponent _ separator_ _ => separator_
  | StringComponent _ _ defaultvalue => defaultvalue
  | SelectionComponent sel => defaultvalue_ sel
  | IntComponent _ data_ => to_string (int_default_value data_)
  | IntVectorComponent _ _ length_ data_ =>
      stream_times (DefaultLengthVisitor length_)
        (to_string (int_default_value data_) +:+ " ")
  | RealComponent _ data_ => ostream_double (real_default_value data_)
  | RealVectorComponent _ _ length_ data_ =>
      stream_times (DefaultLengthVisitor length_)
        (ostream_double (real_default_value data_))
  | BoolComponent _ _ defaultvalue => print_yes_no defaultvalue
  | SwitchComponent _ default_key_ choices_ component_for_key_ =>
      defaultvalue_ component_for_key_ +:+ " " +:+
      (fix at_key (choices : list (Z * (string * list LineComponent))) : string :=
         match choices with
         | [] => ""
         | (k, (_, components)) :: choices' =>
             if bool_decide (k = default_key_) then
               (fix each (l : list LineComponent) : string :=
                  match l with
                  | [] => ""
                  | component :: l' => default_line component +:+ " " +:+ each l'
                  end) components
             else at_key choices'
         end) choices_
  | ProcessedComponent _ _ _ => "none"
  end.

(** The default texts of a field list in order, with a blank between
    them. *)
Definition render_joined (components : list LineComponent) : string :=
  String.concat " " (map default_line components).

(** The same texts as a line to read: a blank, and a blank after each
    field's text. *)
Fixpoint render_fields (components : list LineComponent) : string :=
  match components with
  | [] => ""
  | component :: components' =>
      default_line component +:+ " " +:+ render_fields components'
  end.

Definition render_padded (components : list LineComponent) : string :=
  " " +:+ render_fields components.

End DefaultLine.

(** The container once a field has stored its declared default in it. *)
Definition store_default (component : LineComponent) (c : container) : container :=
  match component with
  | StringComponent name_ _ defaultvalue => <[name_ := v_string defaultvalue]> c
  | IntComponent name_ data_ => <[name_ := v_int (int_default_value data_)]> c
  | IntVectorComponent name_ _ length_ data_ =>
      <[name_ := v_int_vector
                   (replicate (Z.to_nat (DefaultLengthVisitor length_))
                      (int_default_value data_))]> c
  | BoolComponent name_ _ defaultvalue => <[name_ := v_bool defaultvalue]> c
  | _ => c
  end.

Definition store_defaults (components : list LineComponent) (c : container) : container :=
  fold_left (fun c component => store_default component c) components c.

(** The fields whose default text reads back as their default: a Separator
    whose label starts with a character other than a blank, a String whose
    default is a token, an Int or an int vector of constant length whose
    default is an [int], a Bool. *)
Definition head_not_blank (s : string) : Prop :=
  match s with
  | String a _ => a <> " "%char
  | EmptyString => False
  end.

Definition reads_back (component : LineComponent) : Prop :=
  match component with
  | SeparatorComponent _ separator_ _ => head_not_blank separator_
  | StringComponent _ _ defaultvalue => is_token defaultvalue
  | IntComponent _ data_ => int_min <= int_default_value data_ <= int_max
  | IntVectorComponent _ _ (length_int n) data_ =>
      0 <= n /\ int_min <= int_default_value data_ <= int_max
  | BoolComponent _ _ _ => True
  | _ => False
  end.

End Components.

(** A [FloatingPoint] to evaluate examples with: [strtod] on decimal
    literals (white space, sign, digits with an optional point, an optional
    exponent), the value kept as the literal's sign, digits and power of
    ten. *)
Record decimal : Type := {
  negative : bool;
  mantissa : Z;
  exponent : Z
}.

Definition scan_sign (s : string) : bool * nat * string :=
  match s with
  | String "-"%char r => (true, 1%nat, r)
  | String "+"%char r => (false, 1%nat, r)
  | _ => (false, 0%nat, s)
  end.

Definition scan_exponent (s : string) : Z * nat :=
  match s with
  | String c r =>
      if bool_decide (c = "e"%char \/ c = "E"%char) then
        let '(neg, sign_len, r') := scan_sign r in
        let '(e, n) := scan_digits 0 r' in
        if Nat.eqb n 0 then (0, 0%nat)
        else (if neg then - e else e, (1 + sign_len + n)%nat)
      else (0, 0%nat)
  | EmptyString => (0, 0%nat)
  end.

Definition decimal_stod (s : string) : sto_result decimal :=
  let ws := span_length isspace s in
  let '(neg, sign_len, r) := scan_sign (drop ws s) in
  let '(int_part, n_int) := scan_digits 0 r in
  let r1 := drop n_int r in
  let '(m, n_frac, point_len) :=
    match r1 with
    | String "."%char r2 =>
        let '(m, n_frac) := scan_digits int_part r2 in (m, n_frac, 1%nat)
    | _ => (int_part, 0%nat, 0%nat)
    end in
  if Nat.eqb (n_int + n_frac) 0 then invalid_argument
  else
    let r3 := drop (n_int + point_len + n_frac) r in
    let '(e, n_exp) := scan_exponent r3 in
    Converted {| negative := neg; mantissa := m; exponent := e - Z.of_nat n_frac |}
      (ws + sign_len + n_int + point_len + n_frac + n_exp).

#[export] Instance decimal_literals : FloatingPoint :=
  {| double := decimal; stod := decimal_stod |}.

End Input.

(** * Properties *)

Module std_facts.
Import std.

Lemma append_cons a s t : String a s +:+ t = String a (s +:+ t).
Proof. reflexivity. Qed.

Lemma append_nil_l t : "" +:+ t = t.
Proof. reflexivity. Qed.

Lemma append_nil_r s : s +:+ "" = s.
Proof. induction s as [|a s IH]; [done|]. by rewrite append_cons, IH. Qed.

Lemma append_assoc s t u : (s +:+ t) +:+ u = s +:+ (t +:+ u).
Proof. induction s as [|a s IH]; [done|]. by rewrite !append_cons, IH. Qed.

Lemma length_append s t :
  String.length (s +:+ t) = (String.length s + String.length t)%nat.
Proof. induction s as [|a s IH]; [done|]. rewrite append_cons. simpl. by rewrite IH. Qed.

Lemma length_take n s : String.length (take n s) = Nat.min n (String.length s).
Proof. revert s; induction n as [|n IH]; intros [|a s]; simpl; auto. Qed.

Lemma length_drop n s : String.length (drop n s) = (String.length s - n)%nat.
Proof. revert s; induction n as [|n IH]; intros [|a s]; simpl; auto. Qed.

Lemma take_drop n s : take n s +:+ drop n s = s.
Proof.
  revert s; induction n as [|n IH]; intros [|a s]; simpl; auto.
  by rewrite append_cons, IH.
Qed.

Lemma take_append s t : take (String.length s) (s +:+ t) = s.
Proof. induction s as [|a s IH]; [by destruct t|]. rewrite append_cons. simpl. by rewrite IH. Qed.

Lemma drop_append s t : drop (String.length s) (s +:+ t) = t.
Proof. induction s as [|a s IH]; [by destruct t|]. rewrite append_cons. simpl. by rewrite IH. Qed.

Lemma drop_drop n m s : drop n (drop m s) = drop (m + n) s.
Proof.
  revert s; induction m as [|m IH]; intros s; [done|].
  destruct s as [|a s]; simpl; [by destruct n|]. apply IH.
Qed.

Lemma drop_all n s : (String.length s <= n)%nat -> drop n s = "".
Proof.
  revert s; induction n as [|n IH]; intros [|a s]; simpl; intros; auto; try lia.
  apply IH. lia.
Qed.

Lemma span_length_le p s : (span_length p s <= String.length s)%nat.
Proof. induction s as [|a s IH]; simpl; [lia|]. destruct (p a); lia. Qed.

Lemma prefix_spec p s : String.prefix p s = true <-> exists t, s = p +:+ t.
Proof.
  revert p; induction s as [|b s IH]; intros [|a p]; simpl.
  - split; eauto.
  - split; [done|]. intros [t Ht]. by rewrite append_cons in Ht.
  - split; eauto.
  - destruct (ascii_dec a b) as [->|Hne].
    + rewrite IH. split; intros [t Ht]; exists t.
      * by rewrite append_cons, <- Ht.
      * rewrite append_cons in Ht. by injection Ht.
    + split; [done|]. intros [t Ht]. rewrite append_cons in Ht. congruence.
Qed.

Lemma find_nil pat :
  find "" pat = if String.prefix pat "" then Some 0%nat else None.
Proof. reflexivity. Qed.

Lemma find_cons a s pat :
  find (String a s) pat
  = if String.prefix pat (String a s) then Some 0%nat else option_map S (find s pat).
Proof. reflexivity. Qed.

(** [find] returns a place where the pattern occurs, the first one, and
    finds the pattern whenever it occurs. *)
Lemma find_occurs s pat p :
  find s pat = Some p ->
  exists pre post, s = pre +:+ pat +:+ post /\ String.length pre = p.
Proof.
  revert p; induction s as [|a s IH]; intros p.
  - rewrite find_nil. destruct (String.prefix pat "") eqn:E; [|done].
    apply prefix_spec in E as [t Ht]. intros [= <-]. exists "", t. by rewrite append_nil_l.
  - rewrite find_cons. destruct (String.prefix pat (String a s)) eqn:E.
    + apply prefix_spec in E as [t Ht]. intros [= <-]. exists "", t. by rewrite append_nil_l.
    + destruct (find s pat) as [q|]; [|done]. intros [= <-].
      destruct (IH q eq_refl) as (pre & post & H1 & H2).
      exists (String a pre), post. rewrite append_cons. simpl. by rewrite <- H1, H2.
Qed.

Lemma find_first s pat p pre post :
  find s pat = Some p -> s = pre +:+ pat +:+ post -> (p <= String.length pre)%nat.
Proof.
  revert p pre; induction s as [|a s IH]; intros p pre.
  - rewrite find_nil. destruct (String.prefix pat ""); [|done]. intros [= <-]. lia.
  - rewrite find_cons. destruct (String.prefix pat (String a s)) eqn:E.
    + intros [= <-]. lia.
    + destruct (find s pat) as [q|]; [|done]. intros [= <-] Hs.
      destruct pre as [|b pre].
      * rewrite append_nil_l in Hs.
        assert (String.prefix pat (String a s) = true); [|congruence].
        apply prefix_spec. eauto.
      * rewrite append_cons in Hs. injection Hs as -> Hs.
        specialize (IH q pre eq_refl Hs). simpl. lia.
Qed.

Lemma find_None s pat pre post :
  find s pat = None -> s <> pre +:+ pat +:+ post.
Proof.
  revert pre; induction s as [|a s IH]; intros pre.
  - rewrite find_nil. destruct (String.prefix pat "") eqn:E; [done|]. intros _ Hs.
    assert (String.prefix pat "" = true); [|congruence].
    apply prefix_spec. exists post.
    destruct pre; [done|by rewrite append_cons in Hs].
  - rewrite find_cons. destruct (String.prefix pat (String a s)) eqn:E; [done|].
    destruct (find s pat) as [q|]; [done|]. intros _ Hs.
    destruct pre as [|b pre].
    + rewrite append_nil_l in Hs.
      assert (String.prefix pat (String a s) = true); [|congruence].
      apply prefix_spec. eauto.
    + rewrite append_cons in Hs. injection Hs as -> Hs. by apply (IH pre).
Qed.

Lemma append_inv_length s1 t1 s2 t2 :
  s1 +:+ t1 = s2 +:+ t2 -> String.length s1 = String.length s2 -> s1 = s2 /\ t1 = t2.
Proof.
  revert s2; induction s1 as [|a s1 IH]; intros [|b s2]; try done.
  rewrite !append_cons. intros [= -> H] [= Hl]. destruct (IH _ H Hl) as [-> ->]. done.
Qed.

Lemma find_first_occurrence pat s pre post :
  first_occurrence pat s pre post -> find s pat = Some (String.length pre).
Proof.
  intros [Hs Hmin]. destruct (find s pat) as [p|] eqn:E.
  - f_equal. pose proof (find_first _ _ _ _ _ E Hs).
    destruct (find_occurs _ _ _ E) as (pre' & post' & Hs' & <-).
    specialize (Hmin _ _ Hs'). lia.
  - by apply (find_None _ _ pre post) in E.
Qed.

Lemma find_not_occurs pat s : ~ occurs pat s -> find s pat = None.
Proof.
  intros Hno. destruct (find s pat) as [p|] eqn:E; [|done].
  destruct (find_occurs _ _ _ E) as (pre & post & Hs & _). destruct Hno. by exists pre, post.
Qed.

Lemma find_occurs_first pat s :
  occurs pat s -> exists pre post, first_occurrence pat s pre post.
Proof.
  intros (pre0 & post0 & Hs0). destruct (find s pat) as [p|] eqn:E.
  - destruct (find_occurs _ _ _ E) as (pre & post & Hs & <-).
    exists pre, post. split; [done|]. intros pre' post' Hs'. by eapply find_first.
  - by apply (find_None _ _ pre0 post0) in E.
Qed.

(** Erasing never lengthens the text. *)
Lemma erase_length s pos n s' :
  0 <= pos -> 0 <= n ->
  erase s pos n = Some s' -> (String.length s' <= String.length s)%nat.
Proof.
  unfold erase, size. intros Hpos Hn.
  destruct (Z.ltb_spec (Z.of_nat (String.length s)) pos); [done|].
  intros [= <-]. rewrite length_append, length_take, length_drop. lia.
Qed.

(** The stream operations keep the get position inside the buffer. *)
Lemma wf_set_str t ss : wf (set_str t ss).
Proof. unfold wf; simpl; lia. Qed.

Lemma wf_tellg ss : wf ss -> wf (tellg ss).2.
Proof. unfold tellg. by destruct (good ss). Qed.

Lemma wf_seekg pos ss : wf ss -> wf (seekg pos ss).
Proof.
  unfold seekg, wf, size. simpl. intros H.
  destruct (failbit ss); simpl; [done|].
  destruct (Z.leb_spec 0 pos); simpl; [|done].
  destruct (Z.leb_spec pos (Z.of_nat (String.length (buf ss)))); simpl; lia.
Qed.

Lemma wf_seekg_end ss : wf ss -> wf (seekg_end ss).
Proof. unfold seekg_end, wf. simpl. destruct (failbit ss); simpl; lia. Qed.

Lemma wf_extract old ss : wf ss -> wf (extract old ss).2.
Proof.
  unfold extract, wf. intros H. destruct (good ss); [|done].
  set (rest := drop (gptr ss) (buf ss)).
  set (ws := span_length isspace rest).
  pose proof (span_length_le isspace rest) as H1. fold ws in H1.
  pose proof (span_length_le (fun c => negb (isspace c)) (drop ws rest)) as H2.
  rewrite length_drop in H2. subst rest. rewrite length_drop in H1, H2.
  destruct (drop ws _) as [|a r]; cbn [snd gptr buf]; lia.
Qed.

End std_facts.

Module Properties.
Import std std_facts Input.

(** Closes [lhs = rhs] by evaluating [lhs] in the virtual machine; [rhs]
    is written in normal form. *)
Ltac by_evaluation :=
  lazymatch goal with |- _ = ?r => vm_cast_no_check (@eq_refl _ r) end.

Section Facts.
Context `{FP : FloatingPoint}.

Notation "x <- m ;; k" := (bind m (fun x => k))
  (at level 100, m at next level, right associativity).
Notation "m ;;; k" := (bind m (fun _ => k))
  (at level 100, right associativity).

(** ** Induction over components, through the choices of a Switch *)
Lemma LineComponent_nested_ind (P : LineComponent -> Prop) :
  (forall o s d, P (SeparatorComponent o s d)) ->
  (forall n o d, P (StringComponent n o d)) ->
  (forall sel, P (SelectionComponent sel)) ->
  (forall n d, P (IntComponent n d)) ->
  (forall n o l d, P (IntVectorComponent n o l d)) ->
  (forall n d, P (RealComponent n d)) ->
  (forall n o l d, P (RealVectorComponent n o l d)) ->
  (forall n o d, P (BoolComponent n o d)) ->
  (forall n k choices sel,
     Forall (fun kc => Forall P kc.2.2) choices ->
     P (SwitchComponent n k choices sel)) ->
  (forall n o f, P (ProcessedComponent n o f)) ->
  forall c, P c.
Proof.
  intros Hsep Hstr Hsel Hint Hiv Hreal Hrv Hbool Hsw Hproc.
  fix IH 1. intros [o s d|n o d|sel|n d|n o l d|n d|n o l d|n o d|n k choices sel|n o f].
  1-8, 10: clear IH; auto.
  apply Hsw.
  induction choices as [|[k' [lbl comps]] choices IHc]; [constructor|].
  constructor; [|exact IHc].
  simpl. induction comps as [|c comps IHl]; [constructor|].
  constructor; [apply IH|exact IHl].
Qed.

Lemma bind_ext {A B} (m : M A) (k1 k2 : A -> M B) ss c :
  (forall a ss' c', k1 a ss' c' = k2 a ss' c') -> bind m k1 ss c = bind m k2 ss c.
Proof. intros H. unfold bind. destruct (m ss c) as [[[a|e] ss'] c']; auto. Qed.

(** The loop of a Switch over the components of the chosen key is
    [read_all]; the Switch's [read] is the one written with [choice_at]. *)
Lemma read_SwitchComponent section_name n k choices sel ss c :
  read section_name (SwitchComponent n k choices sel) ss c
  = SwitchComponent_read choices sel section_name ss c.
Proof.
  unfold SwitchComponent_read. simpl.
  apply bind_ext; intros _ ss1 c1. apply bind_ext; intros c2 ss2 c3.
  apply bind_ext; intros key ss3 c4. clear.
  induction choices as [|[k' [lbl comps]] choices IH]; [done|].
  simpl. destruct (bool_decide (k' = key)); [|exact IH].
  clear. revert ss3 c4. induction comps as [|comp comps IH]; intros ss c; [done|].
  simpl. apply bind_ext; intros _ ss' c'. apply IH.
Qed.

(** ** The get position stays inside the text *)

(** [keeps P m]: the call [m] leaves a stream that satisfies [P] when it
    was handed one, whether it returns or throws. *)
Definition keeps (P : stringstream -> Prop) {A} (m : M A) : Prop :=
  forall ss c, P ss -> P (m ss c).1.2.

Lemma keeps_ret P {A} (a : A) : keeps P (ret a).
Proof. by intros ss c H. Qed.

Lemma keeps_throw P {A} e : keeps P (@throw _ A e).
Proof. by intros ss c H. Qed.

Lemma keeps_lift P {A} (r : result A) : keeps P (lift r).
Proof. by intros ss c H. Qed.

Lemma keeps_bind P {A B} (m : M A) (k : A -> M B) :
  keeps P m -> (forall a, keeps P (k a)) -> keeps P (bind m k).
Proof.
  intros Hm Hk ss c H. unfold bind. specialize (Hm ss c H).
  destruct (m ss c) as [[[a|e] ss'] c']; [by apply Hk|done].
Qed.

Lemma keeps_str P : keeps P condline_str.
Proof. by intros ss c H. Qed.

Lemma keeps_get_container P : keeps P get_container.
Proof. by intros ss c H. Qed.

Lemma keeps_add P name v : keeps P (add name v).
Proof. by intros ss c H. Qed.

Lemma keeps_array_at P {A} (v : list A) i : keeps P (array_at v i).
Proof. unfold array_at. destruct (v !! i); [apply keeps_ret|apply keeps_throw]. Qed.

Lemma keeps_string_erase P s pos n : keeps P (string_erase s pos n).
Proof. unfold string_erase. destruct (erase s pos n); [apply keeps_ret|apply keeps_throw]. Qed.

Lemma keeps_new_vector P {T} n (x : T) : keeps P (new_vector n x).
Proof. unfold new_vector. destruct (n <? 0); [apply keeps_throw|apply keeps_ret]. Qed.

Lemma keeps_visit_length P l : keeps P (visit_length l).
Proof.
  destruct l; simpl; [apply keeps_ret|].
  apply keeps_bind; [apply keeps_get_container|intros; apply keeps_lift].
Qed.

Lemma wf_keeps_set_str t : keeps wf (condline_set_str t).
Proof. intros ss c _. apply wf_set_str. Qed.

Lemma wf_keeps_tellg : keeps wf condline_tellg.
Proof.
  intros ss c H. unfold condline_tellg. pose proof (wf_tellg ss H).
  by destruct (tellg ss).
Qed.

Lemma wf_keeps_seekg pos : keeps wf (condline_seekg pos).
Proof. intros ss c H. by apply wf_seekg. Qed.

Lemma wf_keeps_seekg_end : keeps wf condline_seekg_end.
Proof. intros ss c H. by apply wf_seekg_end. Qed.

Lemma wf_keeps_extract old : keeps wf (condline_extract old).
Proof.
  intros ss c H. unfold condline_extract. pose proof (wf_extract old ss H).
  by destruct (extract old ss).
Qed.

Create HintDb keeps.
#[local] Hint Resolve keeps_ret keeps_throw keeps_lift keeps_str keeps_get_container
  keeps_add keeps_array_at keeps_string_erase keeps_new_vector keeps_visit_length
  wf_keeps_set_str wf_keeps_tellg wf_keeps_seekg wf_keeps_seekg_end
  wf_keeps_extract : keeps.

Ltac keeps_step :=
  match goal with
  | |- keeps _ (bind _ _) => apply keeps_bind; [|intros ?]
  | |- keeps _ (if ?b then _ else _) => destruct b
  | |- keeps _ (let '(_, _) := ?x in _) => destruct x
  | |- keeps _ _ => solve [auto with keeps]
  end.

Lemma wf_keeps_erase_extracted token : keeps wf (erase_extracted token).
Proof. unfold erase_extracted. repeat keeps_step. Qed.
#[local] Hint Resolve wf_keeps_erase_extracted : keeps.

Lemma wf_keeps_read_slots {T} (convert : string -> result T) optional_ position slots :
  keeps wf (read_slots convert optional_ position slots).
Proof. induction slots as [|x slots IH]; simpl; repeat keeps_step. Qed.
#[local] Hint Resolve wf_keeps_read_slots : keeps.

Lemma wf_keeps_SelectionComponent_read sel section_name :
  keeps wf (SelectionComponent_read sel section_name).
Proof. unfold SelectionComponent_read. repeat keeps_step. Qed.
#[local] Hint Resolve wf_keeps_SelectionComponent_read : keeps.

Lemma wf_keeps_read_all section_name components :
  Forall (fun component => keeps wf (read section_name component)) components ->
  keeps wf (read_all section_name components).
Proof.
  induction 1 as [|component components H _ IH]; simpl; repeat keeps_step.
Qed.

Lemma wf_keeps_read section_name component : keeps wf (read section_name component).
Proof.
  induction component as [| | | | | | | |n k choices sel IH|] using LineComponent_nested_ind;
    try (simpl;
         unfold SeparatorComponent_read, StringComponent_read, IntComponent_read,
           IntVectorComponent_read, RealComponent_read, RealVectorComponent_read,
           BoolComponent_read, ProcessedComponent_read;
         repeat keeps_step; done).
  - intros ss c H. rewrite read_SwitchComponent. revert ss c H.
    change (keeps wf (SwitchComponent_read choices sel section_name)).
    unfold SwitchComponent_read. repeat keeps_step.
    induction IH as [|[k' [lbl comps]] choices Hc _ IHc]; simpl; [auto with keeps|].
    destruct (bool_decide (k' = a1)); [|exact IHc].
    by apply wf_keeps_read_all.
  - simpl. unfold ProcessedComponent_read. repeat keeps_step. by intros ss c H.
Qed.

(** ** Labels: Separator *)

Lemma erase_middle a b d :
  erase (a +:+ b +:+ d) (size a) (size b) = Some (a +:+ d).
Proof.
  unfold erase, size. rewrite !length_append.
  destruct (Z.ltb_spec (Z.of_nat (String.length a + (String.length b + String.length d)))
              (Z.of_nat (String.length a))); [lia|].
  f_equal. rewrite Nat2Z.id.
  replace (Z.to_nat _) with (String.length a + String.length b)%nat by lia.
  rewrite take_append. f_equal.
  rewrite <- drop_drop, drop_append, drop_append. done.
Qed.

Lemma size_t_small z : 0 <= z < size_max -> size_t z = z.
Proof. intros. unfold size_t. by apply Z.mod_small. Qed.

Lemma find_pos_first pat s pre post :
  first_occurrence pat s pre post -> find_pos s pat = size pre.
Proof. intros H. unfold find_pos. by rewrite (find_first_occurrence _ _ _ _ H). Qed.

Lemma find_pos_absent pat s : ~ occurs pat s -> find_pos s pat = npos.
Proof. intros H. unfold find_pos. by rewrite (find_not_occurs _ _ H). Qed.

(** A Separator whose label occurs: the label leaves the text at its
    first place, and the get position is where it began. *)
Lemma SeparatorComponent_read_found optional_ separator_ section_name ss c pre post :
  failbit ss = false ->
  size (buf ss) <= max_size ->
  first_occurrence (" " +:+ separator_ +:+ " ") (buf ss) pre post ->
  SeparatorComponent_read optional_ separator_ section_name ss c
  = (Return (),
     mk_stream (pre +:+ " " +:+ " " +:+ post) (String.length pre + 1) false false,
     c).
Proof.
  intros Hfail Hsize Hfirst. unfold max_size in Hsize. pose proof Hfirst as [Hs _].
  unfold SeparatorComponent_read, bind, condline_str, str, label_pattern.
  rewrite (find_pos_first _ _ _ _ Hfirst).
  destruct ss as [b g e f]. cbn [buf failbit] in *. subst f.
  assert (size pre + 1 + size separator_ + 1 + size post = size b).
  { rewrite Hs. unfold size. rewrite !length_append. simpl. lia. }
  assert (0 <= size pre /\ 0 <= size separator_ /\ 0 <= size post) as (? & ? & ?)
    by (unfold size; lia).
  rewrite bool_decide_eq_false_2 by (unfold npos, size_max; lia).
  rewrite size_t_small by (unfold size_max; lia).
  assert (Hsz : size pre + 1 = size (pre +:+ " ")).
  { unfold size. rewrite length_append. simpl. lia. }
  assert (Hbuf : b = (pre +:+ " ") +:+ separator_ +:+ (" " +:+ post)).
  { rewrite Hs. by rewrite !append_assoc. }
  assert (Herase : erase b (size pre + 1) (size separator_)
                   = Some ((pre +:+ " ") +:+ " " +:+ post)).
  { rewrite Hsz, Hbuf. apply erase_middle. }
  unfold string_erase. cbn [buf]. rewrite Herase.
  unfold ret, condline_set_str, condline_seekg, set_str, seekg, clear_eof, streampos.
  cbn [failbit buf gptr eofbit].
  destruct (Z.ltb_spec (size pre + 1) (2 ^ 63)); [|lia].
  rewrite (proj2 (Z.leb_le 0 (size pre + 1))) by lia.
  rewrite (proj2 (Z.leb_le (size pre + 1) _)).
  2:{ unfold size. rewrite !length_append. simpl. lia. }
  cbn [andb]. rewrite append_assoc. do 3 f_equal. unfold size. lia.
Qed.

(** ** Labels: Selection *)

Lemma index_of_le x (v : list string) i :
  v !! i = Some x -> (index_of x v <= i)%nat /\ v !! index_of x v = Some x.
Proof.
  revert i; induction v as [|y v IH]; intros i; [done|].
  simpl. destruct (bool_decide_reflect (y = x)) as [->|Hne].
  - intros _. split; [lia|done].
  - destruct i as [|i]; simpl; [congruence|]. intros H.
    destruct (IH i H). split; [lia|done].
Qed.

Lemma index_of_lt x (v : list string) :
  index_of x v <> length v -> v !! index_of x v = Some x.
Proof.
  induction v as [|y v IH]; simpl; [done|].
  destruct (bool_decide_reflect (y = x)) as [->|Hne]; [done|].
  simpl. intros H. apply IH. lia.
Qed.

Lemma index_of_first x (v : list string) j :
  (j < index_of x v)%nat -> v !! j <> Some x.
Proof.
  revert j; induction v as [|y v IH]; intros j; simpl; [lia|].
  destruct (bool_decide_reflect (y = x)) as [->|Hne]; [lia|].
  destruct j as [|j]; simpl; [congruence|]. intros H. apply IH. lia.
Qed.

(** What the constructors guarantee. *)
Lemma constructed_inv sel :
  constructed sel ->
  datfilevalues_ sel !! index_of (defaultvalue_ sel) (datfilevalues_ sel)
    = Some (defaultvalue_ sel)
  /\ length (datfilevalues_ sel)
     = (if stringtostring_ sel then length (stringcondvalues_ sel)
        else length (intcondvalues_ sel)).
Proof.
  intros [(n & d & l & strs & H)|(n & d & l & ints & H)];
    [unfold SelectionComponent_string in H|unfold SelectionComponent_int in H];
    unfold selection_checks in H;
    destruct (bool_decide_reflect (index_of d l = length l)); try done;
    match type of H with context [bool_decide ?P] => destruct (bool_decide_reflect P) end;
    try done; injection H as <-; simpl; split; auto using index_of_lt.
Qed.

Lemma payload_at_is_Some sel i :
  constructed sel -> is_Some (datfilevalues_ sel !! i) -> is_Some (payload_at sel i).
Proof.
  intros [_ Hlen]%constructed_inv Hi%lookup_lt_is_Some. unfold payload_at.
  destruct (stringtostring_ sel); apply fmap_is_Some, lookup_lt_is_Some; lia.
Qed.

Lemma selection_scan_absent s labels position d :
  labels <> [] ->
  (forall label, label ∈ labels -> ~ occurs (" " +:+ label +:+ " ") s) ->
  selection_scan s labels position d = (npos, d).
Proof.
  revert position; induction labels as [|l labels IH]; intros position Hne Habs; [done|].
  simpl. unfold label_pattern. rewrite find_pos_absent by (apply Habs; left).
  rewrite bool_decide_eq_false_2 by tauto.
  destruct labels as [|l' labels]; [done|].
  apply IH; [done|]. intros label Hl. apply Habs. by right.
Qed.

Lemma selection_scan_found s labels position d i label pre post :
  size s <= max_size ->
  labels !! i = Some label ->
  first_occurrence (" " +:+ label +:+ " ") s pre post ->
  (forall j label', (j < i)%nat -> labels !! j = Some label' ->
     ~ occurs (" " +:+ label' +:+ " ") s) ->
  selection_scan s labels position d = (size pre, label).
Proof.
  intros Hsize. revert position i.
  induction labels as [|l labels IH]; intros position i Hi Hfirst Hmin; [done|].
  simpl. unfold label_pattern. destruct i as [|i]; simpl in Hi.
  - injection Hi as ->. rewrite (find_pos_first _ _ _ _ Hfirst).
    rewrite bool_decide_eq_true_2; [done|].
    destruct Hfirst as [Hs _]. unfold max_size in Hsize. revert Hsize. rewrite Hs.
    unfold size, npos, size_max. rewrite !length_append. lia.
  - rewrite find_pos_absent by (apply (Hmin 0%nat); [lia|done]).
    rewrite bool_decide_eq_false_2 by tauto.
    apply (IH _ i); [done..|]. intros j label' Hj Hl'. apply (Hmin (S j)); [lia|done].
Qed.

Lemma erase_front s n : 0 <= n -> erase s 0 n = Some (drop (Z.to_nat n) s).
Proof.
  intros Hn. unfold erase, size.
  destruct (Z.ltb_spec (Z.of_nat (String.length s)) 0); [lia|]. f_equal.
  change (take (Z.to_nat 0) s) with (take 0 s). destruct s; simpl take; rewrite append_nil_l.
  - by rewrite !(drop_all _ "") by (simpl; lia).
  - rewrite Z.sub_0_r, Z.add_0_l.
    destruct (Z.le_ge_cases n (Z.of_nat (String.length (String a s)))).
    + by rewrite Z.min_l.
    + rewrite Z.min_r by done. rewrite !drop_all; [done|lia|lia].
Qed.

(** A Selection none of whose labels occurs: the payload of the default
    label is stored, and as many characters as the default label has leave
    the front of the text. *)
Lemma SelectionComponent_read_absent sel section_name ss c :
  constructed sel ->
  (forall label, label ∈ datfilevalues_ sel -> ~ occurs (" " +:+ label +:+ " ") (buf ss)) ->
  exists v,
    payload_at sel (index_of (defaultvalue_ sel) (datfilevalues_ sel)) = Some v /\
    SelectionComponent_read sel section_name ss c
    = (Return (),
       mk_stream (drop (String.length (defaultvalue_ sel)) (buf ss)) 0 false (failbit ss),
       <[sel_name sel := v]> c).
Proof.
  intros Hc Habs. pose proof (constructed_inv _ Hc) as [Hd Hlen].
  destruct (payload_at_is_Some sel _ Hc (mk_is_Some _ _ Hd)) as [v Hv].
  exists v. split; [done|].
  unfold SelectionComponent_read, bind, condline_str, str.
  rewrite selection_scan_absent; [|by intros E; rewrite E in Hd|done].
  change (size_t (npos + 1)) with 0.
  unfold string_erase. rewrite erase_front by (unfold size; lia).
  unfold size. rewrite Nat2Z.id.
  unfold ret, condline_set_str, condline_seekg, set_str, seekg, clear_eof, streampos.
  cbn [failbit buf gptr eofbit]. change (0 <? 2 ^ 63) with true. cbv iota.
  assert (Hstream :
    (if failbit ss
     then mk_stream (drop (String.length (defaultvalue_ sel)) (buf ss)) 0 false (failbit ss)
     else if ((0 <=? 0) && (0 <=? size (drop (String.length (defaultvalue_ sel)) (buf ss))))%bool
          then mk_stream (drop (String.length (defaultvalue_ sel)) (buf ss)) (Z.to_nat 0) false false
          else setstate_fail
                 (mk_stream (drop (String.length (defaultvalue_ sel)) (buf ss)) 0 false (failbit ss)))
    = mk_stream (drop (String.length (defaultvalue_ sel)) (buf ss)) 0 false (failbit ss)).
  { destruct (failbit ss); [done|].
    rewrite (proj2 (Z.leb_le 0 (size _))) by (unfold size; lia). done. }
  unfold size in *. rewrite Hstream. clear Hstream.
  unfold payload_at in Hv. unfold array_at, add, container_add.
  destruct (stringtostring_ sel).
  - destruct (stringcondvalues_ sel !! _) as [x|]; [|done]. by injection Hv as <-.
  - destruct (intcondvalues_ sel !! _) as [x|]; [|done]. by injection Hv as <-.
Qed.

(** A Selection one of whose labels occurs: the first label in declaration
    order that occurs is taken out of the text where it first occurs, and
    the payload at that label's index is stored. *)
Lemma SelectionComponent_read_found sel section_name ss c i label pre post :
  constructed sel ->
  size (buf ss) <= max_size ->
  datfilevalues_ sel !! i = Some label ->
  first_occurrence (" " +:+ label +:+ " ") (buf ss) pre post ->
  (forall j label', (j < i)%nat -> datfilevalues_ sel !! j = Some label' ->
     ~ occurs (" " +:+ label' +:+ " ") (buf ss)) ->
  exists v,
    payload_at sel i = Some v /\
    SelectionComponent_read sel section_name ss c
    = (Return (),
       seekg (size pre + 1) (set_str (pre +:+ " " +:+ " " +:+ post) ss),
       <[sel_name sel := v]> c).
Proof.
  intros Hc Hsize Hi Hfirst Hmin.
  destruct (payload_at_is_Some sel i Hc (mk_is_Some _ _ Hi)) as [v Hv].
  exists v. split; [done|].
  assert (Hidx : index_of label (datfilevalues_ sel) = i).
  { destruct (index_of_le _ _ _ Hi) as [Hle Hj].
    destruct (decide (index_of label (datfilevalues_ sel) = i)) as [|Hne]; [done|].
    assert (Hlt : (index_of label (datfilevalues_ sel) < i)%nat) by lia.
    destruct (Hmin _ _ Hlt Hj). destruct Hfirst as [Hs _]. by exists pre, post. }
  unfold SelectionComponent_read, bind, condline_str, str.
  rewrite (selection_scan_found _ _ _ _ i label pre post) by done.
  rewrite Hidx. pose proof Hfirst as [Hs _].
  assert (size pre + 1 + size label + 1 + size post = size (buf ss)).
  { rewrite Hs. unfold size. rewrite !length_append. simpl. lia. }
  assert (0 <= size pre /\ 0 <= size label /\ 0 <= size post) as (? & ? & ?)
    by (unfold size; lia).
  unfold max_size in Hsize.
  rewrite size_t_small by (unfold size_max; lia).
  assert (Herase : erase (buf ss) (size pre + 1) (size label)
                   = Some (pre +:+ " " +:+ " " +:+ post)).
  { replace (size pre + 1) with (size (pre +:+ " "))
      by (unfold size; rewrite length_append; simpl; lia).
    replace (buf ss) with ((pre +:+ " ") +:+ label +:+ (" " +:+ post))
      by (rewrite Hs; by rewrite !append_assoc).
    rewrite erase_middle. by rewrite append_assoc. }
  unfold string_erase. rewrite Herase.
  unfold ret, condline_set_str, condline_seekg, streampos.
  destruct (Z.ltb_spec (size pre + 1) (2 ^ 63)); [|lia].
  unfold payload_at in Hv. unfold array_at, add, container_add.
  destruct (stringtostring_ sel).
  - destruct (stringcondvalues_ sel !! _) as [x|]; [|done]. by injection Hv as <-.
  - destruct (intcondvalues_ sel !! _) as [x|]; [|done]. by injection Hv as <-.
Qed.

(** C3. A Selection built by either constructor stores, under its name,
    the payload (string or integer) at the index of the first label in
    declaration order that occurs in the text between two blanks, wherever
    in the text that is; when no label occurs, it stores the payload at the
    index of the default label. *)
Theorem C3_selection_stores_payload
    (sel : Selection) (section_name : string)
    (ss : stringstream) (c : gmap string value) :
  constructed sel ->
  size (buf ss) <= max_size ->
  (forall i label,
     datfilevalues_ sel !! i = Some label ->
     occurs (" " +:+ label +:+ " ") (buf ss) ->
     (forall j label', (j < i)%nat -> datfilevalues_ sel !! j = Some label' ->
        ~ occurs (" " +:+ label' +:+ " ") (buf ss)) ->
     exists v ss',
       payload_at sel i = Some v /\
       read section_name (SelectionComponent sel) ss c
       = (Return (), ss', <[sel_name sel := v]> c))
  /\ ((forall label, label ∈ datfilevalues_ sel ->
         ~ occurs (" " +:+ label +:+ " ") (buf ss)) ->
      exists i v ss',
        datfilevalues_ sel !! i = Some (defaultvalue_ sel) /\
        (forall j, (j < i)%nat -> datfilevalues_ sel !! j <> Some (defaultvalue_ sel)) /\
        payload_at sel i = Some v /\
        read section_name (SelectionComponent sel) ss c
        = (Return (), ss', <[sel_name sel := v]> c)).
Proof.
  intros Hc Hsize. split.
  - intros i label Hi Hocc Hmin.
    destruct (find_occurs_first _ _ Hocc) as (pre & post & Hfirst).
    destruct (SelectionComponent_read_found sel section_name ss c i label pre post)
      as (v & Hv & Hread); try done.
    exists v. eexists. split; [done|]. simpl. exact Hread.
  - intros Habs.
    destruct (SelectionComponent_read_absent sel section_name ss c Hc Habs)
      as (v & Hv & Hread).
    exists (index_of (defaultvalue_ sel) (datfilevalues_ sel)), v. eexists.
    split; [by apply constructed_inv|]. split; [apply index_of_first|].
    split; [done|]. simpl. exact Hread.
Qed.

(** ** Scalars *)

Lemma tellg_good ss :
  eofbit ss = false -> failbit ss = false -> tellg ss = (Z.of_nat (gptr ss), ss).
Proof. intros He Hf. unfold tellg, good. by rewrite He, Hf. Qed.

(** ** Numeric conversion *)

(** C5. A token of which [stoi] or [stod] converts a prefix and leaves
    characters over makes the conversion throw the wrong-data-type error:
    its arguments are the characters left over, the field name, the section
    name, the value converted so far and the field name again, and its text
    ends in "has to be an integer." for an Int and in "has to be a floating
    point." for a Real. *)
Theorem C5_trailing_garbage
    (snumber variablename sectionname : string) (variablelength : Z) (optional : bool) :
  (forall (number : Z) (pos : nat),
     stoi snumber = Converted number pos ->
     (pos < String.length snumber)%nat ->
     convert_and_validate_string_to_number stoi throw_error_wrong_data_type_int
       snumber variablename sectionname variablelength optional
     = Throw
         (four_c_throw
            "Failed to read value '%s' while reading variable '%s' in '%s'. 4C could only read '%d', so the specified number format is probably not supported. The variable '%s' has to be an integer."
            [arg_s (drop pos snumber); arg_s variablename; arg_s sectionname;
             arg_d number; arg_s variablename]))
  /\ (forall (number : double) (pos : nat),
        stod snumber = Converted number pos ->
        (pos < String.length snumber)%nat ->
        convert_and_validate_string_to_number stod throw_error_wrong_data_type_double
          snumber variablename sectionname variablelength optional
        = Throw
            (four_c_throw
               "Failed to read value '%s' while reading variable '%s' in '%s'. 4C could only read '%f', so the specified number format is probably not supported. The variable '%s' has to be a floating point."
               [arg_s (drop pos snumber); arg_s variablename; arg_s sectionname;
                arg_f number; arg_s variablename])).
Proof.
  split; intros number pos Hconv Hpos; unfold convert_and_validate_string_to_number;
    rewrite Hconv;
    (rewrite bool_decide_eq_false_2 by (unfold size; lia));
    unfold substr; (destruct (Nat.ltb_spec (String.length snumber) pos); [lia|]);
    reflexivity.
Qed.

(** ** Taking a token out of the text

    The state a value field expects: the get position [|pre|] is followed
    by white space [ws], the token [tok] and its terminating white-space
    character [sp]. *)

Lemma span_length_all p s t :
  all_chars p s = true ->
  span_length p (s +:+ t) = (String.length s + span_length p t)%nat.
Proof.
  induction s as [|a s IH]; [done|]. rewrite append_cons. simpl.
  destruct (p a); [|done]. simpl. intros H. by rewrite IH.
Qed.

Lemma span_length_token_space tok sp post :
  all_chars (fun c => negb (isspace c)) tok = true -> isspace sp = true ->
  span_length (fun c => negb (isspace c)) (tok +:+ String sp post) = String.length tok.
Proof.
  intros Htok Hsp. rewrite span_length_all by done. simpl. rewrite Hsp. simpl. lia.
Qed.

Lemma span_length_space_token ws tok rest :
  all_chars isspace ws = true -> is_token tok ->
  span_length isspace (ws +:+ tok +:+ rest) = String.length ws.
Proof.
  intros Hws [Hne Htok]. rewrite span_length_all by done.
  destruct tok as [|a tok]; [done|]. rewrite append_cons. simpl in *.
  destruct (isspace a); [done|]. lia.
Qed.

Lemma extract_token old pre ws tok sp post :
  all_chars isspace ws = true -> is_token tok -> isspace sp = true ->
  extract old (mk_stream (pre +:+ ws +:+ tok +:+ String sp post) (String.length pre) false false)
  = (tok,
     mk_stream (pre +:+ ws +:+ tok +:+ String sp post)
       (String.length pre + String.length ws + String.length tok) false false).
Proof.
  intros Hws Htok Hsp. unfold extract, good. cbn [eofbit failbit buf gptr negb andb].
  rewrite drop_append, (span_length_space_token _ _ _ Hws Htok), drop_append.
  destruct Htok as [Hne Htok].
  destruct (tok +:+ String sp post) as [|a r] eqn:E.
  { destruct tok; [done|by rewrite append_cons in E]. }
  rewrite <- E, (span_length_token_space _ _ _ Htok Hsp), take_append.
  f_equal. f_equal. rewrite length_append. simpl. apply Nat.eqb_neq. lia.
Qed.

Lemma erase_extracted_token pre ws tok rest (c : gmap string value) :
  size (pre +:+ ws +:+ tok +:+ rest) <= max_size ->
  erase_extracted tok
    (mk_stream (pre +:+ ws +:+ tok +:+ rest)
       (String.length pre + String.length ws + String.length tok) false false) c
  = (Return (), mk_stream (pre +:+ ws +:+ rest) 0 false false, c).
Proof.
  intros Hsize. unfold max_size, size in Hsize. rewrite !length_append in Hsize.
  unfold erase_extracted, bind, condline_tellg, tellg, good, condline_str, str.
  cbn [eofbit failbit buf gptr negb andb].
  assert (Hpos : size_t (size_t (Z.of_nat (String.length pre + String.length ws + String.length tok))
                         - size tok) = size (pre +:+ ws)).
  { unfold size. rewrite length_append.
    rewrite (size_t_small (Z.of_nat _)) by (unfold size_max; lia).
    rewrite size_t_small by (unfold size_max; lia). lia. }
  rewrite Hpos. unfold string_erase.
  replace (pre +:+ ws +:+ tok +:+ rest) with ((pre +:+ ws) +:+ tok +:+ rest)
    by (by rewrite !append_assoc).
  rewrite erase_middle. unfold ret, condline_set_str, set_str. cbn [eofbit failbit].
  by rewrite append_assoc.
Qed.

Lemma seekg_back pre rest :
  seekg (Z.of_nat (String.length pre)) (mk_stream (pre +:+ rest) 0 false false)
  = mk_stream (pre +:+ rest) (String.length pre) false false.
Proof.
  unfold seekg, clear_eof, size. cbn [failbit buf gptr eofbit].
  rewrite (proj2 (Z.leb_le 0 _)) by lia.
  rewrite (proj2 (Z.leb_le _ _)) by (rewrite length_append; lia).
  cbn [andb]. by rewrite Nat2Z.id.
Qed.

Lemma token_remains pre ws tok rest :
  is_token tok -> size (pre +:+ ws +:+ tok +:+ rest) <= max_size ->
  size_t (Z.of_nat (String.length pre)) <> size (pre +:+ ws +:+ tok +:+ rest).
Proof.
  intros [Hne _] Hsize. unfold max_size, size in *. rewrite !length_append in *.
  rewrite size_t_small by (unfold size_max; lia).
  destruct tok; [done|]. simpl. lia.
Qed.

Lemma bool_literal_is_token tok :
  tok ∈ true_literals ++ false_literals -> is_token tok.
Proof.
  unfold true_literals, false_literals. simpl. intros H.
  repeat (apply elem_of_cons in H as [->|H]; [by split|]).
  by apply elem_of_nil in H.
Qed.

(** C6, as the code has it.  A Bool with text left extracts one token and
    compares it with twelve spellings: [Yes], [YES], [yes], [True], [TRUE],
    [true] give true and [No], [NO], [no], [False], [FALSE], [false] give
    false; the token then leaves the text and the get position returns to
    where it was.  Every other token, other mixes of upper and lower case
    among them, throws the error of a value not properly specified.  With
    the get position at the end of the text the declared default is
    stored. *)
Theorem C6_bool_read
    (name_ section_name : string) (optional_ defaultvalue : bool)
    (c : gmap string value) :
  (forall pre ws tok sp post,
     all_chars isspace ws = true -> isspace sp = true ->
     size (pre +:+ ws +:+ tok +:+ String sp post) <= max_size ->
     tok ∈ true_literals ++ false_literals ->
     read section_name (BoolComponent name_ optional_ defaultvalue)
       (mk_stream (pre +:+ ws +:+ tok +:+ String sp post) (String.length pre) false false) c
     = (Return (),
        mk_stream (pre +:+ ws +:+ String sp post) (String.length pre) false false,
        <[name_ := v_bool (bool_decide (tok ∈ true_literals))]> c))
  /\ (forall ss tok ss',
        eofbit ss = false -> failbit ss = false ->
        (gptr ss < String.length (buf ss))%nat ->
        size (buf ss) <= max_size ->
        extract "" ss = (tok, ss') ->
        tok ∉ true_literals ++ false_literals ->
        read section_name (BoolComponent name_ optional_ defaultvalue) ss c
        = (Throw
             (four_c_throw
                "Value of parameter '%s' for section '%s' not properly specified in input file!"
                [arg_s name_; arg_s section_name]),
           ss', c))
  /\ (forall ss,
        eofbit ss = false -> failbit ss = false ->
        gptr ss = String.length (buf ss) ->
        size (buf ss) <= max_size ->
        read section_name (BoolComponent name_ optional_ defaultvalue) ss c
        = (Return (), ss, <[name_ := v_bool defaultvalue]> c)).
Proof.
  split; [|split].
  - intros pre ws tok sp post Hws Hsp Hsize Hlit.
    pose proof (bool_literal_is_token _ Hlit) as Htok.
    simpl. unfold BoolComponent_read, bind, condline_tellg, tellg, good, condline_str, str.
    cbn [eofbit failbit buf gptr negb andb].
    rewrite bool_decide_eq_true_2 by (by apply token_remains).
    unfold condline_extract. rewrite (extract_token _ _ _ _ _ _ Hws Htok Hsp).
    assert (Hval :
      (if bool_decide (tok ∈ true_literals) then ret true
       else if bool_decide (tok ∈ false_literals) then ret false
            else throw (value_not_properly_specified name_ section_name))
      = (ret (bool_decide (tok ∈ true_literals)) : M bool)).
    { apply elem_of_app in Hlit.
      destruct (bool_decide_reflect (tok ∈ true_literals)); [done|].
      rewrite bool_decide_eq_true_2 by tauto. done. }
    rewrite Hval. unfold ret. rewrite erase_extracted_token by done.
    unfold condline_seekg, add, container_add.
    replace (pre +:+ ws +:+ String sp post) with (pre +:+ (ws +:+ String sp post)) by done.
    by rewrite seekg_back.
  - intros ss tok ss' He Hf Hpos Hsize Hext Hlit.
    simpl. unfold BoolComponent_read, bind, condline_tellg, condline_str, str.
    rewrite (tellg_good _ He Hf).
    rewrite bool_decide_eq_true_2.
    2:{ unfold max_size, size in *. rewrite size_t_small by (unfold size_max; lia). lia. }
    unfold condline_extract. rewrite Hext.
    rewrite elem_of_app in Hlit.
    rewrite !bool_decide_eq_false_2 by tauto. done.
  - intros ss He Hf Hpos Hsize.
    simpl. unfold BoolComponent_read, bind, condline_tellg, condline_str, str.
    rewrite (tellg_good _ He Hf).
    rewrite bool_decide_eq_false_2; [done|]. intros H. apply H.
    unfold max_size, size in *. rewrite size_t_small by (unfold size_max; lia). lia.
Qed.

(** ** The NUMSCAL / STOICHIOMETRIES line *)

(** C1, as the code has it.  The four fields read the line
    [" NUMSCAL 3 STOICHIOMETRIES 1 -1 0 "], the tokens of the scenario with
    a blank before the first label and after the last value, into NUMSCAL = 3
    and STOICHIOMETRIES = [1, -1, 0], whatever their optional flags and
    defaults are; the vector has as many slots as the NUMSCAL just stored
    says, so that NUMSCAL 2 stores [1, -1]. *)
Theorem C1_numscal_stoichiometries
    (o1 o3 o4 : bool) (data2 data4 : IntComponentData) :
  let fields :=
    [SeparatorComponent o1 "NUMSCAL" "";
     IntComponent "NUMSCAL" data2;
     SeparatorComponent o3 "STOICHIOMETRIES" "";
     IntVectorComponent "STOICHIOMETRIES" o4 (length_from (LengthFromInt "NUMSCAL")) data4] in
  read_all "SEC" fields
    (mk_stream " NUMSCAL 3 STOICHIOMETRIES 1 -1 0 " 0 false false) ∅
  = (Return (), mk_stream "       " 3 false false,
     <["STOICHIOMETRIES" := v_int_vector [1; -1; 0]]> (<["NUMSCAL" := v_int 3]> ∅))
  /\ read_all "SEC" fields
       (mk_stream " NUMSCAL 2 STOICHIOMETRIES 1 -1 0 " 0 false false) ∅
     = (Return (), mk_stream "      0 " 3 false false,
        <["STOICHIOMETRIES" := v_int_vector [1; -1]]> (<["NUMSCAL" := v_int 2]> ∅)).
Proof.
  destruct data2 as [d2 o2], data4 as [d4 o4']. cbv zeta.
  destruct o1, o2, o3, o4; split; by_evaluation.
Qed.

(** ** Switch *)

(** A constructed Selection always returns, having stored the payload of
    one of its labels. *)
Lemma selection_scan_result s labels position d position' selected :
  selection_scan s labels position d = (position', selected) ->
  (selected = d \/ selected ∈ labels) /\
  (labels = [] \/ position' = npos \/
   exists p, position' = Z.of_nat p /\ (p + 2 <= String.length s)%nat).
Proof.
  revert position; induction labels as [|l labels IH]; intros position; simpl.
  - intros [= <- <-]. split; auto.
  - unfold find_pos, label_pattern.
    destruct (find s (" " +:+ l +:+ " ")) as [p|] eqn:E.
    + destruct (bool_decide_reflect (Z.of_nat p <> npos)) as [Hne|Heq].
      * intros [= <- <-]. split; [right; by left|]. right. right. exists p. split; [done|].
        destruct (find_occurs _ _ _ E) as (pre & post & Hs & <-).
        rewrite Hs, !length_append. simpl. lia.
      * intros H. destruct (IH _ H) as [Hsel Hpos]. split.
        -- destruct Hsel; [by left|right; by right].
        -- right. destruct Hpos as [->|Hpos]; [|done].
           simpl in H. injection H as <- <-. left. lia.
    + rewrite bool_decide_eq_false_2 by tauto.
      intros H. destruct (IH _ H) as [Hsel Hpos]. split.
      * destruct Hsel; [by left|right; by right].
      * right. destruct Hpos as [->|Hpos]; [|done].
        simpl in H. injection H as <- <-. by left.
Qed.

Lemma size_t_le z : 0 <= z -> 0 <= size_t z <= z.
Proof.
  intros Hz. unfold size_t, size_max. split; [apply Z.mod_pos_bound; lia|].
  apply Z.mod_le; lia.
Qed.

Lemma index_of_elem x (v : list string) : x ∈ v -> index_of x v <> length v.
Proof.
  induction v as [|y v IH]; simpl; [by intros ?%elem_of_nil|].
  destruct (bool_decide_reflect (y = x)); [done|].
  intros [?|H]%elem_of_cons; [congruence|]. specialize (IH H). lia.
Qed.

Lemma SelectionComponent_read_returns sel section_name ss c :
  constructed sel ->
  exists i v ss',
    is_Some (datfilevalues_ sel !! i) /\ payload_at sel i = Some v /\
    SelectionComponent_read sel section_name ss c
    = (Return (), ss', <[sel_name sel := v]> c).
Proof.
  intros Hc. pose proof (constructed_inv _ Hc) as [Hd Hlen].
  unfold SelectionComponent_read, bind, condline_str, str.
  destruct (selection_scan (buf ss) (datfilevalues_ sel) 0 (defaultvalue_ sel))
    as [position selected] eqn:Hscan.
  destruct (selection_scan_result _ _ _ _ _ _ Hscan) as [Hsel Hpos].
  assert (Hin : selected ∈ datfilevalues_ sel).
  { destruct Hsel as [->|]; [|done]. by eapply list_elem_of_lookup_2. }
  assert (Herase : exists s', erase (buf ss) (size_t (position + 1)) (size selected) = Some s').
  { unfold erase.
    destruct (Z.ltb_spec (size (buf ss)) (size_t (position + 1))) as [Hlt|]; [|eauto].
    exfalso. destruct Hpos as [Hnil|[->|(p & -> & Hp)]].
    - rewrite Hnil in Hin. by apply elem_of_nil in Hin.
    - change (size_t (npos + 1)) with 0 in Hlt. unfold size in Hlt. lia.
    - pose proof (size_t_le (Z.of_nat p + 1)). unfold size in Hlt. lia. }
  destruct Herase as [s' Herase]. unfold string_erase. rewrite Herase.
  unfold ret, condline_set_str, condline_seekg.
  pose proof (index_of_lt _ _ (index_of_elem _ _ Hin)) as Hidx.
  destruct (payload_at_is_Some sel _ Hc (mk_is_Some _ _ Hidx)) as [v Hv].
  exists (index_of selected (datfilevalues_ sel)), v. eexists.
  split; [by eexists|]. split; [done|].
  unfold payload_at in Hv. unfold array_at, add, container_add.
  destruct (stringtostring_ sel).
  - destruct (stringcondvalues_ sel !! _) as [x|]; [|done]. by injection Hv as <-.
  - destruct (intcondvalues_ sel !! _) as [x|]; [|done]. by injection Hv as <-.
Qed.

(** What the Switch's constructor builds. *)
Lemma SwitchComponent_new_inv name default_key choices sw :
  SwitchComponent_new name default_key choices = Return sw ->
  exists sel,
    sw = SwitchComponent name default_key (map_subscript choices default_key).2 sel /\
    constructed sel /\ sel_name sel = name /\
    datfilevalues_ sel = map (fun kc => kc.2.1) choices /\
    intcondvalues_ sel = map fst choices /\ stringtostring_ sel = false.
Proof.
  unfold SwitchComponent_new.
  destruct (map_subscript choices default_key) as [default_choice choices_] eqn:E.
  destruct (SelectionComponent_int _ _ _ _) as [sel|e] eqn:Hsel; [|done].
  intros [= <-]. exists sel. split; [done|]. split.
  { right. eauto. }
  unfold SelectionComponent_int in Hsel.
  destruct (selection_checks _ _ _); [done|]. by injection Hsel as <-.
Qed.

Lemma choice_at_key choices k : is_Some (choice_at choices k) -> k ∈ map fst choices.
Proof.
  induction choices as [|[k' ch] choices IH]; simpl; [by intros [? ?]|].
  destruct (bool_decide_reflect (k' = k)) as [->|]; [left|right; auto].
Qed.

Lemma key_choice_at choices k : k ∈ map fst choices -> is_Some (choice_at choices k).
Proof.
  induction choices as [|[k' ch] choices IH]; simpl; [by intros ?%elem_of_nil|].
  destruct (bool_decide_reflect (k' = k)) as [->|]; [by eexists|].
  intros [?|?]%elem_of_cons; [congruence|auto].
Qed.

Lemma choice_at_lookup choices i k choice :
  is_map choices -> choices !! i = Some (k, choice) -> choice_at choices k = Some choice.
Proof.
  unfold is_map. revert i; induction choices as [|[k' ch] choices IH]; intros i Hs; [done|].
  simpl in Hs. apply StronglySorted_inv in Hs as [Hs Hall].
  destruct i as [|i]; simpl.
  - intros [= -> ->]. by rewrite bool_decide_eq_true_2.
  - intros Hi. rewrite bool_decide_eq_false_2; [by eapply IH|].
    intros ->. rewrite Forall_forall in Hall.
    assert (k ∈ map fst choices) as Hk.
    { apply list_elem_of_fmap. exists (k, choice). split; [done|].
      by eapply list_elem_of_lookup_2. }
    apply Hall in Hk. lia.
Qed.

Lemma choice_at_cons k' ch choices k :
  choice_at ((k', ch) :: choices) k
  = if bool_decide (k' = k) then Some ch else choice_at choices k.
Proof. reflexivity. Qed.

(** [operator[]] on the default key leaves the entries of the map as they
    are. *)
Lemma choice_at_map_subscript choices default_key k :
  k ∈ map fst choices ->
  is_Some (choice_at (map_subscript choices default_key).2 k)
  /\ (is_map choices ->
      choice_at (map_subscript choices default_key).2 k = choice_at choices k).
Proof.
  induction choices as [|[k' ch] choices IH]; [by intros ?%elem_of_nil|].
  intros Hk. cbn [map_subscript].
  destruct (bool_decide_reflect (k' = default_key)) as [->|Hne].
  { split; [by apply key_choice_at|done]. }
  destruct (Z.ltb_spec default_key k') as [Hlt|Hge].
  - cbn [snd]. split.
    + rewrite choice_at_cons. destruct (bool_decide (default_key = k)); [by eexists|].
      by apply key_choice_at.
    + intros Hs. unfold is_map in Hs. simpl in Hs.
      apply StronglySorted_inv in Hs as [Hs Hall]. rewrite Forall_forall in Hall.
      rewrite (choice_at_cons default_key).
      rewrite bool_decide_eq_false_2; [done|]. intros ->.
      simpl in Hk. apply elem_of_cons in Hk as [->|Hk]; [lia|].
      apply Hall in Hk. lia.
  - destruct (map_subscript choices default_key) as [found choices''] eqn:E.
    cbn [snd]. rewrite !(choice_at_cons k'). simpl in Hk.
    destruct (bool_decide_reflect (k' = k)) as [->|Hk'].
    + split; [by eexists|done].
    + apply elem_of_cons in Hk as [?|Hk]; [congruence|].
      destruct (IH Hk) as [H1 H2]. split; [done|].
      intros Hs. apply H2. unfold is_map in *. simpl in Hs.
      by apply StronglySorted_inv in Hs as [Hs _].
Qed.

(** *** Names in the container *)

(** [grows m]: a name the container holds before the call [m] is still
    there after it. *)
Definition grows {A} (m : M A) : Prop :=
  forall ss c r ss' c' n,
    m ss c = (r, ss', c') -> is_Some (c !! n) -> is_Some (c' !! n).

(** [writes n m]: the container holds the name [n] when [m] returns. *)
Definition writes (n : string) {A} (m : M A) : Prop :=
  forall ss c a ss' c', m ss c = (Return a, ss', c') -> is_Some (c' !! n).

Lemma grows_same {A} (m : M A) : (forall ss c, (m ss c).2 = c) -> grows m.
Proof. intros H ss c r ss' c' n E. specialize (H ss c). rewrite E in H. by subst. Qed.

Lemma grows_ret {A} (a : A) : grows (ret a).
Proof. by apply grows_same. Qed.

Lemma grows_throw {A} e : grows (@throw _ A e).
Proof. by apply grows_same. Qed.

Lemma grows_lift {A} (r : result A) : grows (lift r).
Proof. by apply grows_same. Qed.

Lemma grows_str : grows condline_str.
Proof. by apply grows_same. Qed.

Lemma grows_set_str t : grows (condline_set_str t).
Proof. by apply grows_same. Qed.

Lemma grows_tellg : grows condline_tellg.
Proof. apply grows_same. intros ss c. unfold condline_tellg. by destruct (tellg ss). Qed.

Lemma grows_seekg pos : grows (condline_seekg pos).
Proof. by apply grows_same. Qed.

Lemma grows_seekg_end : grows condline_seekg_end.
Proof. by apply grows_same. Qed.

Lemma grows_extract old : grows (condline_extract old).
Proof. apply grows_same. intros ss c. unfold condline_extract. by destruct (extract old ss). Qed.

Lemma grows_get_container : grows get_container.
Proof. by apply grows_same. Qed.

Lemma grows_array_at {A} (v : list A) i : grows (array_at v i).
Proof. apply grows_same. intros ss c. unfold array_at. by destruct (v !! i). Qed.

Lemma grows_string_erase s pos n : grows (string_erase s pos n).
Proof. apply grows_same. intros ss c. unfold string_erase. by destruct (erase s pos n). Qed.

Lemma grows_new_vector {T} n (x : T) : grows (new_vector n x).
Proof. apply grows_same. intros ss c. unfold new_vector. by destruct (n <? 0). Qed.

Lemma grows_add name v : grows (add name v).
Proof.
  intros ss c r ss' c' n [= <- <- <-] Hn. unfold container_add.
  destruct (decide (name = n)) as [->|Hne].
  - rewrite lookup_insert_eq. by eexists.
  - by rewrite lookup_insert_ne.
Qed.

Lemma grows_bind {A B} (m : M A) (k : A -> M B) :
  grows m -> (forall a, grows (k a)) -> grows (bind m k).
Proof.
  intros Hm Hk ss c r ss' c' n E Hn. unfold bind in E.
  destruct (m ss c) as [[[a|e] ss1] c1] eqn:Em.
  - eapply Hk; [exact E|]. by eapply Hm.
  - injection E as <- <- <-. by eapply Hm.
Qed.

Lemma grows_visit_length l : grows (visit_length l).
Proof.
  destruct l; simpl; [apply grows_ret|].
  apply grows_bind; [apply grows_get_container|intros; apply grows_lift].
Qed.

Create HintDb grows.
#[local] Hint Resolve grows_ret grows_throw grows_lift grows_str grows_set_str grows_tellg
  grows_seekg grows_seekg_end grows_extract grows_get_container grows_array_at
  grows_string_erase grows_new_vector grows_add grows_visit_length : grows.

Ltac grows_step :=
  match goal with
  | |- grows (bind _ _) => apply grows_bind; [|intros ?]
  | |- grows (if ?b then _ else _) => destruct b
  | |- grows (let '(_, _) := ?x in _) => destruct x
  | |- grows _ => solve [auto with grows]
  end.

Lemma grows_erase_extracted token : grows (erase_extracted token).
Proof. unfold erase_extracted. repeat grows_step. Qed.
#[local] Hint Resolve grows_erase_extracted : grows.

Lemma grows_read_slots {T} (convert : string -> result T) optional_ position slots :
  grows (read_slots convert optional_ position slots).
Proof. induction slots as [|x slots IH]; simpl; repeat grows_step. Qed.
#[local] Hint Resolve grows_read_slots : grows.

Lemma grows_SelectionComponent_read sel section_name :
  grows (SelectionComponent_read sel section_name).
Proof. unfold SelectionComponent_read. repeat grows_step. Qed.
#[local] Hint Resolve grows_SelectionComponent_read : grows.

Lemma grows_read_all section_name components :
  Forall (fun component => grows (read section_name component)) components ->
  grows (read_all section_name components).
Proof. induction 1 as [|component components H _ IH]; simpl; repeat grows_step. Qed.

Lemma keeps_names_SwitchComponent n k choices sel :
  keeps_names (SwitchComponent n k choices sel) <->
  Forall (fun kc => Forall keeps_names kc.2.2) choices.
Proof.
  induction choices as [|[k' [lbl comps]] choices IH]; [by split; [constructor|]|].
  assert (Hcomps :
    (fix each (l : list LineComponent) : Prop :=
       match l with
       | [] => True
       | component :: l' => keeps_names component /\ each l'
       end) comps <-> Forall keeps_names comps).
  { clear. induction comps as [|c comps IH]; [by split; [constructor|]|].
    rewrite Forall_cons, <- IH. done. }
  rewrite Forall_cons. cbn [snd]. rewrite <- Hcomps, <- IH. done.
Qed.

Lemma grows_read section_name component :
  keeps_names component -> grows (read section_name component).
Proof.
  induction component as [| | | | | | | |n k choices sel IH|n o f]
    using LineComponent_nested_ind; intros Hk;
    try (simpl;
         unfold SeparatorComponent_read, StringComponent_read, IntComponent_read,
           IntVectorComponent_read, RealComponent_read, RealVectorComponent_read,
           BoolComponent_read;
         repeat grows_step; done).
  - apply keeps_names_SwitchComponent in Hk.
    intros ss c r ss' c' m E. rewrite read_SwitchComponent in E. revert ss c r ss' c' m E.
    change (grows (SwitchComponent_read choices sel section_name)).
    unfold SwitchComponent_read. repeat grows_step.
    induction choices as [|[k' [lbl comps]] choices IHc]; simpl; [auto with grows|].
    apply Forall_cons in IH as [IH1 IH2]. apply Forall_cons in Hk as [Hk1 Hk2].
    destruct (bool_decide (k' = a1)); [|by apply IHc].
    apply grows_read_all. simpl in *. clear -IH1 Hk1.
    induction comps as [|comp comps IHl]; [constructor|].
    apply Forall_cons in IH1 as [? ?]. apply Forall_cons in Hk1 as [? ?].
    constructor; auto.
  - simpl. unfold ProcessedComponent_read. repeat grows_step.
    intros ss c r ss' c' m [= <- <- <-]. apply Hk.
Qed.

Lemma writes_add n v : writes n (add n v).
Proof.
  intros ss c a ss' c' [= <- <- <-]. unfold container_add.
  rewrite lookup_insert_eq. by eexists.
Qed.

Lemma writes_throw n {A} e : writes n (@throw _ A e).
Proof. by intros ss c a ss' c' E. Qed.

Lemma writes_bind_r n {A B} (m : M A) (k : A -> M B) :
  (forall a, writes n (k a)) -> writes n (bind m k).
Proof.
  intros Hk ss c b ss' c' E. unfold bind in E.
  destruct (m ss c) as [[[a|e] ss1] c1]; [by eapply Hk|done].
Qed.

Lemma writes_bind_l n {A B} (m : M A) (k : A -> M B) :
  writes n m -> (forall a, grows (k a)) -> writes n (bind m k).
Proof.
  intros Hm Hk ss c b ss' c' E. unfold bind in E.
  destruct (m ss c) as [[[a|e] ss1] c1] eqn:Em; [|done].
  eapply Hk; [exact E|]. by eapply Hm.
Qed.

Ltac writes_step :=
  match goal with
  | |- writes _ (bind _ _) => apply writes_bind_r; intros ?
  | |- writes _ (if ?b then _ else _) => destruct b
  | |- writes _ (let '(_, _) := ?x in _) => destruct x
  | |- writes _ (add _ _) => apply writes_add
  | |- writes _ (throw _) => apply writes_throw
  end.

Lemma writes_SelectionComponent_read sel section_name :
  writes (sel_name sel) (SelectionComponent_read sel section_name).
Proof. unfold SelectionComponent_read. repeat writes_step. Qed.

Lemma grows_read_all_names section_name components :
  Forall keeps_names components -> grows (read_all section_name components).
Proof.
  intros H. apply grows_read_all. eapply Forall_impl; [exact H|].
  intros component. apply grows_read.
Qed.

Lemma grows_dispatch section_name choices key :
  Forall (fun kc => Forall keeps_names kc.2.2) choices ->
  grows (match choice_at choices key with
         | None => throw (four_c_assert "Internal error.")
         | Some (_, components) => read_all section_name components
         end).
Proof.
  induction 1 as [|[k' [lbl comps]] choices Hc _ IH]; simpl; [apply grows_throw|].
  destruct (bool_decide (k' = key)); [|exact IH]. by apply grows_read_all_names.
Qed.

(** A value field that returns has stored something under its name. *)
Lemma writes_read section_name component n :
  keeps_names component -> written_name component = Some n ->
  writes n (read section_name component).
Proof.
  destruct component; intros Hk [= <-];
    try (simpl;
         unfold StringComponent_read, IntComponent_read, IntVectorComponent_read,
           RealComponent_read, RealVectorComponent_read, BoolComponent_read;
         repeat writes_step; done).
  - apply writes_SelectionComponent_read.
  - intros ss c a ss' c' E. rewrite read_SwitchComponent in E.
    revert ss c a ss' c' E.
    change (writes (sel_name component_for_key_)
              (SwitchComponent_read choices_ component_for_key_ section_name)).
    unfold SwitchComponent_read. apply writes_bind_l; [apply writes_SelectionComponent_read|].
    intros _. repeat grows_step.
    apply grows_dispatch. by apply keeps_names_SwitchComponent in Hk.
Qed.

Lemma writes_read_all section_name components ss c a ss' c' component n :
  Forall keeps_names components ->
  read_all section_name components ss c = (Return a, ss', c') ->
  component ∈ components -> written_name component = Some n ->
  is_Some (c' !! n).
Proof.
  intros Hk. revert ss c. induction Hk as [|comp components Hcomp Hk IH]; intros ss c E Hin Hn.
  { by apply elem_of_nil in Hin. }
  simpl in E. unfold bind in E.
  destruct (read section_name comp ss c) as [[[u|e] ss1] c1] eqn:E1; [|done].
  apply elem_of_cons in Hin as [->|Hin].
  - eapply (grows_read_all_names section_name components Hk); [exact E|].
    eapply writes_read; eauto.
  - by eapply IH.
Qed.

(** ** Printing and reading back an [int] *)

Lemma digit_char_spec r :
  0 <= r <= 9 ->
  isdigit (digit_char r) = true /\ digit_value (digit_char r) = r
  /\ isspace (digit_char r) = false.
Proof.
  intros H.
  assert (r = 0 \/ r = 1 \/ r = 2 \/ r = 3 \/ r = 4 \/ r = 5 \/ r = 6 \/ r = 7 \/ r = 8 \/ r = 9)
    as Hr by lia.
  repeat (destruct Hr as [->|Hr]; [by vm_compute|]). subst r. by vm_compute.
Qed.

Lemma all_chars_append p s t :
  all_chars p (s +:+ t) = (all_chars p s && all_chars p t)%bool.
Proof.
  induction s as [|a s IH]; [done|]. rewrite append_cons. simpl. rewrite IH.
  by destruct (p a).
Qed.

Lemma digits_before_app fuel n tail :
  digits_before fuel n tail = digits_before fuel n "" +:+ tail.
Proof.
  revert n tail; induction fuel as [|fuel IH]; intros n tail; simpl; [done|].
  destruct (n <? 10); [done|].
  rewrite IH, (IH _ (String _ "")), append_assoc. done.
Qed.

Lemma scan_digits_cons acc c s :
  scan_digits acc (String c s)
  = if isdigit c
    then let '(v, n) := scan_digits (10 * acc + digit_value c) s in (v, S n)
    else (acc, 0%nat).
Proof. reflexivity. Qed.

(** The digits printed for [n] are read back as [n], after whatever was
    read before them. *)
Lemma scan_digits_before fuel n tail acc :
  (0 < fuel)%nat ->
  0 <= n < 10 ^ Z.of_nat fuel ->
  exists k,
    (0 < k)%nat /\
    String.length (digits_before fuel n "") = k /\
    all_chars (fun c => negb (isspace c)) (digits_before fuel n "") = true /\
    (exists a r, digits_before fuel n "" = String a r /\ isdigit a = true) /\
    scan_digits acc (digits_before fuel n "" +:+ tail)
    = (let '(v, m) := scan_digits (acc * 10 ^ Z.of_nat k + n) tail in (v, (k + m)%nat)).
Proof.
  revert n tail acc; induction fuel as [|fuel IH]; intros n tail acc Hfuel Hn; [lia|].
  cbn [digits_before]. destruct (Z.ltb_spec n 10) as [Hlt|Hge].
  - exists 1%nat. destruct (digit_char_spec (n mod 10)) as (Hd & Hv & Hs);
      [pose proof (Z.mod_pos_bound n 10); lia|].
    rewrite Z.mod_small in * by lia.
    split; [lia|]. split; [done|]. split; [simpl; by rewrite Hs|].
    split; [eauto|].
    rewrite append_cons, append_nil_l, scan_digits_cons, Hd, Hv.
    replace (10 * acc + n) with (acc * 10 ^ Z.of_nat 1 + n) by (simpl; lia). done.
  - assert (Hdiv : 0 <= n / 10 < 10 ^ Z.of_nat fuel).
    { split; [apply Z.div_pos; lia|]. apply Z.div_lt_upper_bound; [lia|].
      rewrite Nat2Z.inj_succ, Z.pow_succ_r in Hn by lia. lia. }
    destruct (digit_char_spec (n mod 10)) as (Hd & Hv & Hs);
      [pose proof (Z.mod_pos_bound n 10); lia|].
    set (last := String (digit_char (n mod 10)) "").
    rewrite (digits_before_app fuel (n / 10) last).
    assert (Hfuel' : (0 < fuel)%nat).
    { destruct fuel; [|lia]. simpl in Hdiv. assert (1 <= n / 10); [|lia].
      apply Z.div_le_lower_bound; lia. }
    destruct (IH (n / 10) (last +:+ tail) acc Hfuel' Hdiv)
      as (k & Hk & Hlen & Hall & Hhead & Hscan).
    exists (S k). split; [lia|]. split.
    { rewrite length_append, Hlen. simpl. lia. }
    split.
    { rewrite all_chars_append, Hall. unfold last. simpl. by rewrite Hs. }
    split.
    { destruct Hhead as (a & r & -> & Ha). exists a, (r +:+ last).
      by rewrite append_cons. }
    rewrite append_assoc, Hscan. unfold last.
    rewrite append_cons, append_nil_l, scan_digits_cons, Hd, Hv.
    replace (10 * (acc * 10 ^ Z.of_nat k + n / 10) + n mod 10)
      with (acc * 10 ^ Z.of_nat (S k) + n).
    2:{ rewrite Nat2Z.inj_succ, Z.pow_succ_r by lia.
        pose proof (Z.div_mod n 10 ltac:(lia)). lia. }
    destruct (scan_digits _ tail) as [v m]. f_equal. lia.
Qed.

Lemma digits_fuel n : 0 <= n -> n < 10 ^ Z.of_nat (S (Z.to_nat (Z.log2 n))).
Proof.
  intros Hn. destruct (Z.eq_dec n 0) as [->|Hne]; [by vm_compute|].
  pose proof (Z.log2_spec n ltac:(lia)) as [_ Hlt].
  pose proof (Z.log2_nonneg n).
  rewrite Nat2Z.inj_succ, Z2Nat.id by lia.
  eapply Z.lt_le_trans; [exact Hlt|].
  apply Z.pow_le_mono_l. lia.
Qed.

Lemma scan_digits_nil acc : scan_digits acc "" = (acc, 0%nat).
Proof. reflexivity. Qed.

Lemma digits_spec n :
  0 <= n ->
  is_token (digits n)
  /\ (exists a r, digits n = String a r /\ isdigit a = true)
  /\ scan_digits 0 (digits n) = (n, String.length (digits n)).
Proof.
  intros Hn. unfold digits.
  pose proof (digits_fuel n Hn) as Hfuel.
  destruct (scan_digits_before (S (Z.to_nat (Z.log2 n))) n "" 0 ltac:(lia) (conj Hn Hfuel))
    as (k & Hk & Hlen & Hall & Hhead & Hscan).
  rewrite append_nil_r, scan_digits_nil in Hscan.
  split; [split; [|done]|split; [done|]].
  - destruct Hhead as (a & r & -> & _). done.
  - rewrite Hscan, Hlen. f_equal; lia.
Qed.

Lemma stoi_minus r :
  stoi (String "-" r)
  = (let '(v, n) := scan_digits 0 r in
     if Nat.eqb n 0 then invalid_argument
     else if ((int_min <=? - v) && (- v <=? int_max))%bool
          then Converted (- v) (0 + 1 + n)
          else out_of_range).
Proof. reflexivity. Qed.

Lemma stoi_digit a r :
  isdigit a = true ->
  stoi (String a r)
  = (let '(v, n) := scan_digits 0 (String a r) in
     if Nat.eqb n 0 then invalid_argument
     else if ((int_min <=? v) && (v <=? int_max))%bool
          then Converted v (0 + 0 + n)
          else out_of_range).
Proof.
  destruct a as [[] [] [] [] [] [] [] []]; (intros H; try discriminate H); reflexivity.
Qed.

Lemma stoi_to_string n :
  int_min <= n <= int_max ->
  stoi (to_string n) = Converted n (String.length (to_string n)).
Proof.
  intros Hrange. unfold to_string. destruct (Z.ltb_spec n 0) as [Hneg|Hpos].
  - destruct (digits_spec (- n) ltac:(lia)) as ([Hne _] & _ & Hscan).
    rewrite stoi_minus, Hscan.
    destruct (String.length (digits (- n))) as [|m] eqn:Hl.
    { destruct (digits (- n)); [done|discriminate Hl]. }
    cbn [Nat.eqb]. rewrite Z.opp_involutive.
    rewrite (proj2 (Z.leb_le int_min n)), (proj2 (Z.leb_le n int_max)) by lia.
    cbn [andb String.length]. rewrite Hl. done.
  - destruct (digits_spec n Hpos) as ([Hne _] & (a & r & Hd & Ha) & Hscan).
    rewrite Hd, (stoi_digit a r Ha), <- Hd, Hscan.
    destruct (String.length (digits n)) as [|m] eqn:Hl.
    { rewrite Hd in Hl. discriminate Hl. }
    cbn [Nat.eqb].
    rewrite (proj2 (Z.leb_le int_min n)), (proj2 (Z.leb_le n int_max)) by lia.
    cbn [andb]. done.
Qed.

Lemma to_string_is_token n : is_token (to_string n).
Proof.
  unfold to_string. destruct (Z.ltb_spec n 0) as [Hneg|Hpos].
  - destruct (digits_spec (- n) ltac:(lia)) as ([_ Hall] & _). split; [done|].
    simpl. by rewrite Hall.
  - by destruct (digits_spec n Hpos) as (? & _).
Qed.

Lemma convert_int_to_string n variablename sectionname variablelength optional :
  int_min <= n <= int_max ->
  convert_int (to_string n) variablename sectionname variablelength optional = Return n.
Proof.
  intros Hrange. unfold convert_int, convert_and_validate_string_to_number.
  rewrite (stoi_to_string n Hrange). by rewrite bool_decide_eq_true_2.
Qed.

(** ** Reading a rendered line back *)

(** [n] blanks. *)
Fixpoint blank (n : nat) : string :=
  match n with
  | O => ""
  | S n' => String " " (blank n')
  end.

Lemma length_blank n : String.length (blank n) = n.
Proof. induction n as [|n IH]; simpl; auto. Qed.

Lemma blank_is_space n : all_chars isspace (blank n) = true.
Proof. induction n as [|n IH]; simpl; auto. Qed.

Lemma blank_add a b : blank (a + b) = blank a +:+ blank b.
Proof. induction a as [|a IH]; simpl; [done|]. by rewrite IH. Qed.

Lemma blank_S_r n : blank (S n) = blank n +:+ " ".
Proof. by rewrite <- Nat.add_1_r, blank_add. Qed.

Lemma blank_split g k : (g <= k)%nat -> blank (S k) = blank g +:+ blank (S k - g).
Proof. intros H. rewrite <- blank_add. f_equal. lia. Qed.

Lemma drop_blank j n rest :
  (j <= n)%nat -> drop j (blank n +:+ rest) = blank (n - j) +:+ rest.
Proof.
  intros H. replace n with (j + (n - j))%nat at 1 by lia.
  rewrite blank_add, append_assoc.
  rewrite <- (length_blank j) at 1. apply drop_append.
Qed.

(** After the blanks, a label whose first character is not a blank is
    first found where the rendered text has it. *)
Lemma first_occurrence_after_blanks k label rest :
  head_not_blank label ->
  first_occurrence (" " +:+ label +:+ " ") (blank (S k) +:+ label +:+ " " +:+ rest)
    (blank k) rest.
Proof.
  intros Hhead. split.
  { rewrite blank_S_r. by rewrite !append_assoc. }
  intros pre' post' Hs.
  destruct (Nat.le_gt_cases k (String.length pre')) as [|Hlt]; [by rewrite length_blank|].
  exfalso.
  assert (Hd : drop (S (String.length pre')) (blank (S k) +:+ label +:+ " " +:+ rest)
               = label +:+ " " +:+ post').
  { rewrite Hs. rewrite <- Nat.add_1_r, <- drop_drop, drop_append.
    by rewrite !append_assoc. }
  rewrite drop_blank in Hd by lia.
  destruct (S k - S (String.length pre'))%nat as [|m] eqn:Hm; [lia|].
  destruct label as [|a label]; [done|]. simpl in Hhead, Hd.
  rewrite !append_cons in Hd. by injection Hd as <-.
Qed.

(** The token protocol on a line of blanks followed by a token: the
    token is extracted, taken out of the text, and the get position
    returns to where it was. *)
Lemma take_token old g k tok rest (c : gmap string value) :
  (g <= k)%nat -> is_token tok ->
  size (blank (S k) +:+ tok +:+ " " +:+ rest) <= max_size ->
  let ss := mk_stream (blank (S k) +:+ tok +:+ " " +:+ rest) g false false in
  let ss1 := mk_stream (blank (S k) +:+ tok +:+ " " +:+ rest)
               (S k + String.length tok) false false in
  condline_tellg ss c = (Return (Z.of_nat g), ss, c)
  /\ size_t (Z.of_nat g) <> size (buf ss)
  /\ condline_extract old ss c = (Return tok, ss1, c)
  /\ erase_extracted tok ss1 c
     = (Return (), mk_stream (blank (S (S k)) +:+ rest) 0 false false, c)
  /\ condline_seekg (Z.of_nat g) (mk_stream (blank (S (S k)) +:+ rest) 0 false false) c
     = (Return (), mk_stream (blank (S (S k)) +:+ rest) g false false, c).
Proof.
  intros Hg Htok Hsize ss ss1.
  assert (Hbuf : blank (S k) +:+ tok +:+ " " +:+ rest
                 = blank g +:+ blank (S k - g) +:+ tok +:+ String " " rest).
  { rewrite (blank_split g k Hg). by rewrite !append_assoc. }
  assert (Hafter : blank (S (S k)) +:+ rest = blank g +:+ blank (S k - g) +:+ String " " rest).
  { rewrite (blank_S_r (S k)), (blank_split g k Hg). by rewrite !append_assoc. }
  assert (Hss : ss = mk_stream (blank g +:+ blank (S k - g) +:+ tok +:+ String " " rest)
                       (String.length (blank g)) false false).
  { unfold ss. by rewrite Hbuf, length_blank. }
  assert (Hss1 : ss1 = mk_stream (blank g +:+ blank (S k - g) +:+ tok +:+ String " " rest)
                         (String.length (blank g) + String.length (blank (S k - g))
                          + String.length tok) false false).
  { unfold ss1. rewrite Hbuf, !length_blank. do 2 f_equal. lia. }
  split; [done|]. split.
  { rewrite Hss. cbn [buf].
    replace (Z.of_nat g) with (Z.of_nat (String.length (blank g)))
      by (by rewrite length_blank).
    apply token_remains; [done|]. by rewrite <- Hbuf. }
  split.
  { unfold condline_extract. rewrite Hss, Hss1.
    by rewrite (extract_token old (blank g) (blank (S k - g)) tok " "%char rest
                  (blank_is_space _) Htok eq_refl). }
  split.
  { rewrite Hss1, Hafter. apply erase_extracted_token. by rewrite <- Hbuf. }
  unfold condline_seekg. rewrite Hafter.
  replace (Z.of_nat g) with (Z.of_nat (String.length (blank g))) by (by rewrite length_blank).
  rewrite seekg_back. by rewrite length_blank.
Qed.

Lemma bind_returns {A B} (m : M A) (k : A -> M B) ss c a ss' c' :
  m ss c = (Return a, ss', c') -> bind m k ss c = k a ss' c'.
Proof. intros H. unfold bind. by rewrite H. Qed.

Ltac returns H := rewrite (bind_returns _ _ _ _ _ _ _ H).

(** The stream of a line that starts with [S k] blanks, read from [g]. *)
Definition line (k g : nat) (rest : string) : stringstream :=
  mk_stream (blank (S k) +:+ rest) g false false.

Lemma size_line_shorter k text rest :
  size (blank (S (S k)) +:+ rest) <= size (blank (S k) +:+ text +:+ " " +:+ rest).
Proof. unfold size. rewrite !length_append, !length_blank. simpl. lia. Qed.

Section Steps.
Variable ostream_double : double -> string.
Variable section_name : string.

Lemma SeparatorComponent_step optional_ separator_ description_ k g rest c :
  head_not_blank separator_ ->
  size (blank (S k) +:+ separator_ +:+ " " +:+ rest) <= max_size ->
  read section_name (SeparatorComponent optional_ separator_ description_)
    (line k g (separator_ +:+ " " +:+ rest)) c
  = (Return (), line (S k) (S k) rest, c).
Proof.
  intros Hhead Hsize. simpl.
  rewrite (SeparatorComponent_read_found optional_ separator_ section_name
             (line k g (separator_ +:+ " " +:+ rest)) c (blank k) rest
             eq_refl Hsize (first_occurrence_after_blanks k separator_ rest Hhead)).
  unfold line. rewrite length_blank, !(blank_S_r (S k)), (blank_S_r k), !append_assoc.
  do 3 f_equal. lia.
Qed.

Lemma StringComponent_step name_ optional_ defaultvalue k g rest c :
  is_token defaultvalue -> (g <= k)%nat ->
  size (blank (S k) +:+ defaultvalue +:+ " " +:+ rest) <= max_size ->
  read section_name (StringComponent name_ optional_ defaultvalue)
    (line k g (defaultvalue +:+ " " +:+ rest)) c
  = (Return (), line (S k) g rest, <[name_ := v_string defaultvalue]> c).
Proof.
  intros Htok Hg Hsize.
  destruct (take_token defaultvalue g k defaultvalue rest c Hg Htok Hsize)
    as (Htell & Hremains & Hextract & Herase & Hseek).
  simpl. unfold StringComponent_read, line. returns Htell.
  rewrite (bind_returns condline_str _ _ _ _ _ _ eq_refl).
  rewrite bool_decide_eq_true_2 by exact Hremains.
  returns Hextract. rewrite bool_decide_eq_false_2 by (by destruct Htok).
  returns Herase. returns Hseek. done.
Qed.

Lemma IntComponent_step name_ data_ k g rest c :
  int_min <= int_default_value data_ <= int_max -> (g <= k)%nat ->
  size (blank (S k) +:+ to_string (int_default_value data_) +:+ " " +:+ rest) <= max_size ->
  read section_name (IntComponent name_ data_)
    (line k g (to_string (int_default_value data_) +:+ " " +:+ rest)) c
  = (Return (), line (S k) g rest, <[name_ := v_int (int_default_value data_)]> c).
Proof.
  intros Hrange Hg Hsize. pose proof (to_string_is_token (int_default_value data_)) as Htok.
  destruct (take_token "" g k _ rest c Hg Htok Hsize)
    as (Htell & Hremains & Hextract & Herase & Hseek).
  simpl. unfold IntComponent_read, line. returns Htell.
  rewrite (bind_returns condline_str _ _ _ _ _ _ eq_refl).
  rewrite bool_decide_eq_true_2 by exact Hremains.
  returns Hextract.
  rewrite (bool_decide_eq_false_2 (to_string _ = "")) by (by destruct Htok).
  rewrite orb_true_r, convert_int_to_string by done.
  rewrite (bind_returns (lift (Return (int_default_value data_))) _ _ _ _ _ _ eq_refl).
  returns Herase. returns Hseek. done.
Qed.

Lemma BoolComponent_step name_ optional_ defaultvalue k g rest c :
  (g <= k)%nat ->
  size (blank (S k) +:+ print_yes_no defaultvalue +:+ " " +:+ rest) <= max_size ->
  read section_name (BoolComponent name_ optional_ defaultvalue)
    (line k g (print_yes_no defaultvalue +:+ " " +:+ rest)) c
  = (Return (), line (S k) g rest, <[name_ := v_bool defaultvalue]> c).
Proof.
  intros Hg Hsize.
  assert (Htok : is_token (print_yes_no defaultvalue)) by (by destruct defaultvalue).
  destruct (take_token "" g k _ rest c Hg Htok Hsize)
    as (Htell & Hremains & Hextract & Herase & Hseek).
  simpl. unfold BoolComponent_read, line. returns Htell.
  rewrite (bind_returns condline_str _ _ _ _ _ _ eq_refl).
  rewrite bool_decide_eq_true_2 by exact Hremains.
  returns Hextract.
  assert (Hval :
    (if bool_decide (print_yes_no defaultvalue ∈ true_literals) then ret true
     else if bool_decide (print_yes_no defaultvalue ∈ false_literals) then ret false
          else throw (value_not_properly_specified name_ section_name))
    = (ret defaultvalue : M bool)).
  { by destruct defaultvalue. }
  rewrite Hval. rewrite (bind_returns (ret defaultvalue) _ _ _ _ _ _ eq_refl).
  returns Herase. returns Hseek. done.
Qed.

Lemma stream_times_S m text :
  String.concat "" (replicate (S m) text) = text +:+ String.concat "" (replicate m text).
Proof. destruct m; simpl; [by rewrite append_nil_r|done]. Qed.

(** The slots of a vector, each filled from one copy of the token. *)
Lemma read_slots_step {T} (convert : string -> result T) optional_ tok (d : T) m :
  is_token tok -> convert tok = Return d ->
  forall k g rest c,
    (g <= k)%nat ->
    size (blank (S k) +:+ String.concat "" (replicate m (tok +:+ " ")) +:+ rest) <= max_size ->
    read_slots convert optional_ (Z.of_nat g) (replicate m d)
      (line k g (String.concat "" (replicate m (tok +:+ " ")) +:+ rest)) c
    = (Return (replicate m d), line (k + m) g rest, c).
Proof.
  intros Htok Hconv. induction m as [|m IH]; intros k g rest c Hg Hsize.
  { simpl. rewrite append_nil_l. unfold ret. by rewrite Nat.add_0_r. }
  rewrite stream_times_S in *. rewrite !append_assoc in *.
  destruct (take_token "" g k tok _ c Hg Htok Hsize)
    as (_ & _ & Hextract & Herase & Hseek).
  cbn [replicate read_slots]. unfold line at 1. returns Hextract.
  rewrite (bool_decide_eq_false_2 (tok = "")) by (by destruct Htok).
  rewrite andb_false_r, Hconv.
  rewrite (bind_returns (lift (Return d)) _ _ _ _ _ _ eq_refl).
  returns Herase. returns Hseek.
  change (mk_stream (blank (S (S k)) +:+ String.concat "" (replicate m (tok +:+ " ")) +:+ rest)
            g false false)
    with (line (S k) g (String.concat "" (replicate m (tok +:+ " ")) +:+ rest)).
  rewrite (bind_returns _ _ _ _ _ _ _ (IH (S k) g rest c ltac:(lia)
             ltac:(etrans; [apply size_line_shorter|exact Hsize]))).
  unfold ret. do 3 f_equal. lia.
Qed.

Lemma IntVectorComponent_step name_ optional_ n data_ k g rest c :
  0 <= n -> int_min <= int_default_value data_ <= int_max -> (g <= k)%nat ->
  size (blank (S k)
        +:+ stream_times n (to_string (int_default_value data_) +:+ " ")
        +:+ " " +:+ rest) <= max_size ->
  read section_name (IntVectorComponent name_ optional_ (length_int n) data_)
    (line k g (stream_times n (to_string (int_default_value data_) +:+ " ")
               +:+ " " +:+ rest)) c
  = (Return (), line (S (k + Z.to_nat n)) g rest,
     <[name_ := v_int_vector (replicate (Z.to_nat n) (int_default_value data_))]> c).
Proof.
  intros Hn Hrange Hg Hsize. pose proof (to_string_is_token (int_default_value data_)) as Htok.
  unfold stream_times in *. simpl. unfold IntVectorComponent_read.
  rewrite (bind_returns (visit_length (length_int n)) _ _ _ _ _ _ eq_refl).
  unfold new_vector. destruct (Z.ltb_spec n 0); [lia|].
  rewrite (bind_returns (ret _) _ _ _ _ _ _ eq_refl).
  rewrite (bind_returns condline_tellg _ (line k g _) c (Z.of_nat g) (line k g _) c eq_refl).
  rewrite (bind_returns condline_str _ _ _ _ _ _ eq_refl).
  rewrite bool_decide_eq_true_2.
  2:{ unfold line, str, max_size, size in *. cbn [buf].
      rewrite !length_append, length_blank in *.
      rewrite size_t_small by (unfold size_max; lia). simpl. lia. }
  rewrite (bind_returns _ _ _ _ _ _ _
             (read_slots_step _ optional_ _ _ (Z.to_nat n) Htok
                (convert_int_to_string _ name_ section_name n optional_ Hrange)
                k g (" " +:+ rest) c Hg Hsize)).
  unfold add, container_add, line. rewrite (blank_S_r (S (k + Z.to_nat n))), append_assoc.
  done.
Qed.

(** Each field that reads back takes its own default text off the front
    of the line and stores its default. *)
Lemma reads_back_step component k g rest c :
  reads_back component -> (g <= k)%nat ->
  size (blank (S k) +:+ default_line ostream_double component +:+ " " +:+ rest) <= max_size ->
  exists k' g',
    (g' <= k')%nat
    /\ size (blank (S k') +:+ rest)
       <= size (blank (S k) +:+ default_line ostream_double component +:+ " " +:+ rest)
    /\ read section_name component
         (line k g (default_line ostream_double component +:+ " " +:+ rest)) c
       = (Return (), line k' g' rest, store_default component c).
Proof.
  intros Hrb Hg Hsize.
  destruct component as [o s d|n o d|sel|n d|n o [len|f] d|n d|n o l d|n o d|n dk ch sel|n o f];
    simpl in Hrb; try done; cbn [default_line store_default] in *.
  - exists (S k), (S k). split; [lia|]. split; [apply size_line_shorter|].
    by apply SeparatorComponent_step.
  - exists (S k), g. split; [lia|]. split; [apply size_line_shorter|].
    by apply StringComponent_step.
  - exists (S k), g. split; [lia|]. split; [apply size_line_shorter|].
    by apply IntComponent_step.
  - destruct Hrb as [Hlen Hrange]. cbn [DefaultLengthVisitor] in *.
    exists (S (k + Z.to_nat len)), g. split; [lia|]. split.
    + unfold size, stream_times. rewrite !length_append, !length_blank.
      assert (Z.to_nat len <= String.length
                (String.concat "" (replicate (Z.to_nat len)
                   (to_string (int_default_value d) +:+ " "))))%nat; [|simpl; lia].
      generalize (Z.to_nat len). intros m. induction m as [|m IH]; [simpl; lia|].
      rewrite stream_times_S, !length_append. simpl. lia.
    + by apply IntVectorComponent_step.
  - exists (S k), g. split; [lia|]. split; [apply size_line_shorter|].
    by apply BoolComponent_step.
Qed.

Lemma read_all_rendered components :
  Forall reads_back components ->
  forall k g c,
    (g <= k)%nat ->
    size (blank (S k) +:+ render_fields ostream_double components) <= max_size ->
    exists k' g',
      read_all section_name components
        (line k g (render_fields ostream_double components)) c
      = (Return (), line k' g' "", store_defaults components c).
Proof.
  induction 1 as [|component components Hrb _ IH]; intros k g c Hg Hsize.
  { exists k, g. done. }
  cbn [render_fields] in *.
  destruct (reads_back_step component k g (render_fields ostream_double components) c
              Hrb Hg Hsize) as (k1 & g1 & Hg1 & Hsize1 & Hread).
  destruct (IH k1 g1 (store_default component c) Hg1 ltac:(lia)) as (k' & g' & Hall).
  exists k', g'. cbn [read_all]. returns Hread. exact Hall.
Qed.

End Steps.

(** C9, as the code has it.  For a field list of Separators whose label
    starts with a character other than a blank, Strings whose default is a
    token, Ints, Bools and int vectors of constant length: the line made
    of a blank and of each field's default text followed by a blank, read
    from its start by the same field list, returns, with each value
    field's declared default stored under its name (a vector: its length
    in copies of the default) and nothing but blanks left in the text. *)
Theorem C9_rendered_defaults_read_back
    (ostream_double : double -> string) (section_name : string)
    (components : list LineComponent) (c : gmap string value) :
  Forall reads_back components ->
  size (render_padded ostream_double components) <= max_size ->
  exists ss',
    read_all section_name components
      (mk_stream (render_padded ostream_double components) 0 false false) c
    = (Return (), ss', store_defaults components c)
    /\ all_chars isspace (buf ss') = true.
Proof.
  intros Hrb Hsize.
  destruct (read_all_rendered ostream_double section_name components Hrb 0%nat 0%nat c
              ltac:(lia) Hsize) as (k' & g' & Hread).
  exists (line k' g' ""). split; [exact Hread|].
  unfold line. cbn [buf]. rewrite append_nil_r. apply blank_is_space.
Qed.


(** ** Further properties of the components *)

(** *** Numeric conversion, case by case *)

Lemma convert_whole {T} (conv : string -> sto_result T) thrower
    snumber variablename sectionname variablelength optional number :
  conv snumber = Converted number (String.length snumber) ->
  convert_and_validate_string_to_number conv thrower
    snumber variablename sectionname variablelength optional
  = Return number.
Proof.
  intros H. unfold convert_and_validate_string_to_number. rewrite H.
  by rewrite bool_decide_eq_true_2.
Qed.

(** X1. The conversion returns a number exactly when the library function
    converts the whole token, to that number: nothing is returned for a
    token of which a part is left over.  A token without a number throws
    the missing-value error, with the expected count, when the token is
    empty and the field mandatory, and the invalid-value error with the
    token otherwise, an empty token of an optional field included; a value
    the library cannot represent lets [std::out_of_range] through. *)
Theorem X1_conversion_cases {T : Type}
    (conv : string -> sto_result T)
    (thrower : string -> T -> string -> string -> exception)
    (snumber variablename sectionname : string) (variablelength : Z) (optional : bool) :
  let convert :=
    convert_and_validate_string_to_number conv thrower
      snumber variablename sectionname variablelength optional in
  (forall number,
     convert = Return number <-> conv snumber = Converted number (String.length snumber))
  /\ (conv snumber = invalid_argument ->
      convert
      = Throw (if (negb optional && bool_decide (snumber = ""))%bool
               then four_c_throw
                      "Invalid argument! No value of variable '%s' in '%s' specified. Possibly you didn't give enough input values. The variable '%s' expects %i input values."
                      [arg_s variablename; arg_s sectionname; arg_s variablename;
                       arg_d variablelength]
               else four_c_throw
                      "Invalid argument! Failed to read the value '%s' of variable '%s' in '%s'."
                      [arg_s snumber; arg_s variablename; arg_s sectionname;
                       arg_s variablename]))
  /\ (conv snumber = out_of_range -> convert = Throw std_out_of_range).
Proof.
  cbv zeta. unfold convert_and_validate_string_to_number. split; [|split].
  - intros number. destruct (conv snumber) as [v pos| |] eqn:E.
    + destruct (bool_decide_reflect (Z.of_nat pos = size snumber)) as [Hpos|Hpos].
      * unfold size in Hpos. apply Nat2Z.inj in Hpos. subst pos.
        split; [by intros [= ->]|by intros [= ->]].
      * split.
        -- by destruct (substr snumber pos).
        -- intros [= -> ->]. by destruct Hpos.
    + split; [|done]. by destruct (negb optional && bool_decide (snumber = ""))%bool.
    + split; done.
  - intros ->. by destruct (negb optional && bool_decide (snumber = ""))%bool.
  - by intros ->.
Qed.

(** *** The constructors' checks *)

Lemma index_of_not_elem x (v : list string) : x ∉ v -> index_of x v = length v.
Proof.
  intros H. destruct (decide (index_of x v = length v)) as [|Hne]; [done|].
  destruct H. eapply list_elem_of_lookup_2. by apply index_of_lt.
Qed.

Lemma selection_checks_cases defaultvalue datfilevalues ncondvalues :
  selection_checks defaultvalue datfilevalues ncondvalues
  = if bool_decide (defaultvalue ∈ datfilevalues)
    then if bool_decide (length datfilevalues = ncondvalues) then None
         else Some (four_c_throw "Input file values must match condition values." [])
    else Some (four_c_throw "Invalid default value '%s'." [arg_s defaultvalue]).
Proof.
  unfold selection_checks.
  destruct (bool_decide_reflect (defaultvalue ∈ datfilevalues)) as [Hin|Hout].
  - by rewrite bool_decide_eq_false_2 by (by apply index_of_elem).
  - by rewrite bool_decide_eq_true_2 by (by apply index_of_not_elem).
Qed.

(** X2. Both constructors of a Selection check the default label first:
    a default that is not one of the labels throws "Invalid default value"
    with the default, whatever the payloads are.  With the default among
    the labels, a payload list of another length than the label list
    throws "Input file values must match condition values.", and equal
    lengths build the Selection with the labels and payloads as given. *)
Theorem X2_selection_constructors
    (name defaultvalue : string) (datfilevalues stringcondvalues : list string)
    (intcondvalues : list Z) :
  (defaultvalue ∉ datfilevalues ->
   SelectionComponent_string name defaultvalue datfilevalues stringcondvalues
   = Throw (four_c_throw "Invalid default value '%s'." [arg_s defaultvalue])
   /\ SelectionComponent_int name defaultvalue datfilevalues intcondvalues
      = Throw (four_c_throw "Invalid default value '%s'." [arg_s defaultvalue]))
  /\ (defaultvalue ∈ datfilevalues ->
      SelectionComponent_string name defaultvalue datfilevalues stringcondvalues
      = (if bool_decide (length datfilevalues = length stringcondvalues)
         then Return {| sel_name := name; defaultvalue_ := defaultvalue;
                        datfilevalues_ := datfilevalues;
                        stringcondvalues_ := stringcondvalues;
                        intcondvalues_ := [-1]; stringtostring_ := true |}
         else Throw (four_c_throw "Input file values must match condition values." []))
      /\ SelectionComponent_int name defaultvalue datfilevalues intcondvalues
         = (if bool_decide (length datfilevalues = length intcondvalues)
            then Return {| sel_name := name; defaultvalue_ := defaultvalue;
                           datfilevalues_ := datfilevalues;
                           stringcondvalues_ := ["notdefined"];
                           intcondvalues_ := intcondvalues; stringtostring_ := false |}
            else Throw (four_c_throw "Input file values must match condition values." []))).
Proof.
  unfold SelectionComponent_string, SelectionComponent_int.
  rewrite !selection_checks_cases. split; intros H.
  - by rewrite bool_decide_eq_false_2 by done.
  - rewrite bool_decide_eq_true_2 by done.
    split; by destruct (bool_decide _).
Qed.

Lemma map_subscript_present choices key choice :
  is_map choices -> choice_at choices key = Some choice ->
  map_subscript choices key = (choice, choices).
Proof.
  unfold is_map. induction choices as [|[k ch] choices IH]; [done|].
  simpl map. intros [Hs Hall]%StronglySorted_inv. rewrite choice_at_cons.
  cbn [map_subscript].
  destruct (bool_decide_reflect (k = key)) as [->|Hne]; [by intros [= ->]|].
  intros Hch.
  assert (Hk : key ∈ map fst choices) by (apply choice_at_key; by eexists).
  rewrite Forall_forall in Hall. apply Hall in Hk.
  destruct (Z.ltb_spec key k); [lia|]. by rewrite (IH Hs Hch).
Qed.

Lemma map_subscript_absent choices key :
  key ∉ map fst choices -> (map_subscript choices key).1 = ("", []).
Proof.
  induction choices as [|[k ch] choices IH]; [done|].
  simpl map. intros Hk. apply not_elem_of_cons in Hk as [Hne Hk].
  cbn [map_subscript]. rewrite bool_decide_eq_false_2 by congruence.
  destruct (key <? k); [done|].
  specialize (IH Hk). by destruct (map_subscript choices key).
Qed.

Lemma choice_at_elem choices key label components :
  choice_at choices key = Some (label, components) ->
  label ∈ map (fun kc => kc.2.1) choices.
Proof.
  induction choices as [|[k ch] choices IH]; [done|].
  rewrite choice_at_cons. destruct (bool_decide (k = key)).
  - intros [= ->]. by left.
  - intros H. right. auto.
Qed.

(** The Selection inside a Switch over [choices] whose default key has the
    label [label]. *)
Definition switch_selection (name label : string)
    (choices : list (Z * (string * list LineComponent))) : Selection :=
  {| sel_name := name; defaultvalue_ := label;
     datfilevalues_ := map (fun kc => kc.2.1) choices;
     stringcondvalues_ := ["notdefined"];
     intcondvalues_ := map fst choices;
     stringtostring_ := false |}.

Lemma switch_selection_constructed name default_key choices label components :
  choice_at choices default_key = Some (label, components) ->
  SelectionComponent_int name label (map (fun kc => kc.2.1) choices) (map fst choices)
  = Return (switch_selection name label choices).
Proof.
  intros Hch. unfold SelectionComponent_int. rewrite selection_checks_cases.
  rewrite bool_decide_eq_true_2 by (by eapply choice_at_elem).
  by rewrite bool_decide_eq_true_2 by (by rewrite !length_map).
Qed.

Lemma SwitchComponent_new_present name default_key choices label components :
  is_map choices ->
  choice_at choices default_key = Some (label, components) ->
  SwitchComponent_new name default_key choices
  = Return (SwitchComponent name default_key choices
              (switch_selection name label choices)).
Proof.
  intros Hmap Hch. unfold SwitchComponent_new.
  rewrite (map_subscript_present _ _ _ Hmap Hch). cbn [fst].
  by rewrite (switch_selection_constructed name _ _ _ _ Hch).
Qed.

(** X3. The constructor of a Switch.  With the default key among the keys
    of the map, it builds the Switch over the map as given, and the
    embedded Selection has the Switch's name, the labels of the choices in
    key order, their keys as payloads, and the default key's label as its
    default.  With a default key the map does not hold, the default label
    is the empty one of the entry that [operator[]] adds, and the
    constructor throws "Invalid default value" unless a choice has the
    empty label. *)
Theorem X3_switch_constructor
    (name : string) (default_key : Z)
    (choices : list (Z * (string * list LineComponent))) :
  (forall label components,
     is_map choices ->
     choice_at choices default_key = Some (label, components) ->
     SwitchComponent_new name default_key choices
     = Return
         (SwitchComponent name default_key choices
            {| sel_name := name; defaultvalue_ := label;
               datfilevalues_ := map (fun kc => kc.2.1) choices;
               stringcondvalues_ := ["notdefined"];
               intcondvalues_ := map fst choices;
               stringtostring_ := false |}))
  /\ (default_key ∉ map fst choices ->
      "" ∉ map (fun kc => kc.2.1) choices ->
      SwitchComponent_new name default_key choices
      = Throw (four_c_throw "Invalid default value '%s'." [arg_s ""])).
Proof.
  split.
  - intros label components Hmap Hch.
    exact (SwitchComponent_new_present name _ _ _ _ Hmap Hch).
  - intros Hkey Hlabel. unfold SwitchComponent_new.
    pose proof (map_subscript_absent _ _ Hkey) as Hd.
    destruct (map_subscript choices default_key) as [default_choice choices_].
    simpl in Hd. subst default_choice. cbn [fst].
    unfold SelectionComponent_int. rewrite selection_checks_cases.
    by rewrite bool_decide_eq_false_2.
Qed.

(** *** What every [read] leaves of the stream *)

(** A property of the stream that the five operations on it keep is kept
    by every [read]. *)
Section StreamInvariant.
Variable P : stringstream -> Prop.
Hypothesis P_set_str : forall t ss, P ss -> P (set_str t ss).
Hypothesis P_tellg : forall ss, P ss -> P (tellg ss).2.
Hypothesis P_seekg : forall pos ss, P ss -> P (seekg pos ss).
Hypothesis P_seekg_end : forall ss, P ss -> P (seekg_end ss).
Hypothesis P_extract : forall old ss, P ss -> P (extract old ss).2.

Lemma inv_keeps_set_str t : keeps P (condline_set_str t).
Proof. intros ss c H. by apply P_set_str. Qed.

Lemma inv_keeps_tellg : keeps P condline_tellg.
Proof.
  intros ss c H. unfold condline_tellg. pose proof (P_tellg ss H).
  by destruct (tellg ss).
Qed.

Lemma inv_keeps_seekg pos : keeps P (condline_seekg pos).
Proof. intros ss c H. by apply P_seekg. Qed.

Lemma inv_keeps_seekg_end : keeps P condline_seekg_end.
Proof. intros ss c H. by apply P_seekg_end. Qed.

Lemma inv_keeps_extract old : keeps P (condline_extract old).
Proof.
  intros ss c H. unfold condline_extract. pose proof (P_extract old ss H).
  by destruct (extract old ss).
Qed.

#[local] Hint Resolve inv_keeps_set_str inv_keeps_tellg inv_keeps_seekg
  inv_keeps_seekg_end inv_keeps_extract : keeps.

Lemma inv_keeps_erase_extracted token : keeps P (erase_extracted token).
Proof. unfold erase_extracted. repeat keeps_step. Qed.
#[local] Hint Resolve inv_keeps_erase_extracted : keeps.

Lemma inv_keeps_read_slots {T} (convert : string -> result T) optional_ position slots :
  keeps P (read_slots convert optional_ position slots).
Proof. induction slots as [|x slots IH]; simpl; repeat keeps_step. Qed.
#[local] Hint Resolve inv_keeps_read_slots : keeps.

Lemma inv_keeps_SelectionComponent_read sel section_name :
  keeps P (SelectionComponent_read sel section_name).
Proof. unfold SelectionComponent_read. repeat keeps_step. Qed.
#[local] Hint Resolve inv_keeps_SelectionComponent_read : keeps.

Lemma inv_keeps_read_all section_name components :
  Forall (fun component => keeps P (read section_name component)) components ->
  keeps P (read_all section_name components).
Proof.
  induction 1 as [|component components H _ IH]; simpl; repeat keeps_step.
Qed.

Lemma inv_keeps_read section_name component : keeps P (read section_name component).
Proof.
  induction component as [| | | | | | | |n k choices sel IH|] using LineComponent_nested_ind;
    try (simpl;
         unfold SeparatorComponent_read, StringComponent_read, IntComponent_read,
           IntVectorComponent_read, RealComponent_read, RealVectorComponent_read,
           BoolComponent_read, ProcessedComponent_read;
         repeat keeps_step; done).
  - intros ss c H. rewrite read_SwitchComponent. revert ss c H.
    change (keeps P (SwitchComponent_read choices sel section_name)).
    unfold SwitchComponent_read. repeat keeps_step.
    induction IH as [|[k' [lbl comps]] choices Hc _ IHc]; simpl; [auto with keeps|].
    destruct (bool_decide (k' = a1)); [|exact IHc].
    by apply inv_keeps_read_all.
  - simpl. unfold ProcessedComponent_read. repeat keeps_step. by intros ss c H.
Qed.

End StreamInvariant.

(** X4. A stream that has failed stays failed: no [read] of any component
    clears [failbit], whether it returns or throws. *)
Theorem X4_failed_stream_stays_failed
    (section_name : string) (component : LineComponent)
    (ss : stringstream) (c : gmap string value) :
  failbit ss = true ->
  failbit (read section_name component ss c).1.2 = true.
Proof.
  revert ss c. apply (inv_keeps_read (fun ss => failbit ss = true)).
  - done.
  - intros ss H. unfold tellg. by destruct (good ss).
  - intros pos ss H. unfold seekg, clear_eof. cbn [failbit]. by rewrite H.
  - intros ss H. unfold seekg_end, clear_eof. cbn [failbit]. by rewrite H.
  - intros old ss H. unfold extract, good. rewrite H, andb_false_r. done.
Qed.

(** [shrinks m]: the call [m] leaves a text that is no longer than the one
    it was handed. *)
Definition shrinks {A} (m : M A) : Prop :=
  forall ss c, (String.length (buf (m ss c).1.2) <= String.length (buf ss))%nat.

Lemma shrinks_same {A} (m : M A) :
  (forall ss c, buf (m ss c).1.2 = buf ss) -> shrinks m.
Proof. intros H ss c. by rewrite H. Qed.

Lemma shrinks_bind {A B} (m : M A) (k : A -> M B) :
  shrinks m -> (forall a, shrinks (k a)) -> shrinks (bind m k).
Proof.
  intros Hm Hk ss c. unfold bind. specialize (Hm ss c).
  destruct (m ss c) as [[[a|e] ss'] c']; [|done].
  specialize (Hk a ss' c'). simpl in *. lia.
Qed.

Lemma shrinks_ret {A} (a : A) : shrinks (ret a).
Proof. by apply shrinks_same. Qed.

Lemma shrinks_throw {A} e : shrinks (@throw _ A e).
Proof. by apply shrinks_same. Qed.

Lemma shrinks_lift {A} (r : result A) : shrinks (lift r).
Proof. by apply shrinks_same. Qed.

Lemma shrinks_get_container : shrinks get_container.
Proof. by apply shrinks_same. Qed.

Lemma shrinks_add name v : shrinks (add name v).
Proof. by apply shrinks_same. Qed.

Lemma shrinks_array_at {A} (v : list A) i : shrinks (array_at v i).
Proof. unfold array_at. destruct (v !! i); [apply shrinks_ret|apply shrinks_throw]. Qed.

Lemma shrinks_new_vector {T} n (x : T) : shrinks (new_vector n x).
Proof. unfold new_vector. destruct (n <? 0); [apply shrinks_throw|apply shrinks_ret]. Qed.

Lemma shrinks_visit_length l : shrinks (visit_length l).
Proof.
  destruct l; simpl; [apply shrinks_ret|].
  apply shrinks_bind; [apply shrinks_get_container|intros; apply shrinks_lift].
Qed.

Lemma shrinks_tellg : shrinks condline_tellg.
Proof.
  apply shrinks_same. intros ss c. unfold condline_tellg, tellg. by destruct (good ss).
Qed.

Lemma shrinks_seekg pos : shrinks (condline_seekg pos).
Proof.
  apply shrinks_same. intros ss c. unfold condline_seekg, seekg, clear_eof. simpl.
  destruct (failbit ss); [done|]. by destruct (_ && _)%bool.
Qed.

Lemma shrinks_seekg_end : shrinks condline_seekg_end.
Proof.
  apply shrinks_same. intros ss c. unfold condline_seekg_end, seekg_end, clear_eof. simpl.
  by destruct (failbit ss).
Qed.

Lemma shrinks_extract old : shrinks (condline_extract old).
Proof.
  apply shrinks_same. intros ss c. unfold condline_extract, extract.
  destruct (good ss); [|done]. by destruct (drop _ (drop _ _)).
Qed.

(** The text is only ever replaced by what [erase] has made of it. *)
Lemma shrinks_erase {B} (pos n : string -> Z) (k : M B) :
  (forall s, 0 <= pos s) -> (forall s, 0 <= n s) -> shrinks k ->
  shrinks (s <- condline_str ;;
           s' <- string_erase s (pos s) (n s) ;;
           condline_set_str s' ;;; k).
Proof.
  intros Hpos Hn Hk ss c. unfold bind, condline_str, str, string_erase.
  destruct (erase (buf ss) (pos (buf ss)) (n (buf ss))) as [s'|] eqn:E; [|done].
  apply erase_length in E; [|done..]. unfold ret, condline_set_str.
  specialize (Hk (set_str s' ss) c). simpl in *. lia.
Qed.

Lemma size_nonneg s : 0 <= size s.
Proof. unfold size. lia. Qed.

Lemma size_t_nonneg z : 0 <= size_t z.
Proof. unfold size_t, size_max. apply Z.mod_pos_bound. lia. Qed.

Create HintDb shrinks.
#[local] Hint Resolve shrinks_ret shrinks_throw shrinks_lift shrinks_get_container
  shrinks_add shrinks_array_at shrinks_new_vector shrinks_visit_length shrinks_tellg
  shrinks_seekg shrinks_seekg_end shrinks_extract : shrinks.

Ltac shrinks_step :=
  match goal with
  | |- shrinks (bind _ _) => apply shrinks_bind; [|intros ?]
  | |- shrinks (if ?b then _ else _) => destruct b
  | |- shrinks _ => solve [auto with shrinks]
  end.

Lemma shrinks_erase_extracted token : shrinks (erase_extracted token).
Proof.
  unfold erase_extracted. apply shrinks_bind; [apply shrinks_tellg|]. intros t.
  intros ss c.
  pose proof (shrinks_erase (fun _ => size_t (size_t t - size token)) (fun _ => size token)
                (ret ()) (fun _ => size_t_nonneg _) (fun _ => size_nonneg _)
                (shrinks_ret ()) ss c) as H.
  unfold bind, condline_str, string_erase in *.
  destruct (erase _ _ _); simpl in *; exact H.
Qed.
#[local] Hint Resolve shrinks_erase_extracted : shrinks.

Lemma shrinks_read_slots {T} (convert : string -> result T) optional_ position slots :
  shrinks (read_slots convert optional_ position slots).
Proof. induction slots as [|x slots IH]; simpl; repeat shrinks_step. Qed.
#[local] Hint Resolve shrinks_read_slots : shrinks.

Lemma shrinks_SeparatorComponent_read optional_ separator_ section_name :
  shrinks (SeparatorComponent_read optional_ separator_ section_name).
Proof.
  unfold SeparatorComponent_read. apply shrinks_bind; [by apply shrinks_same|]. intros s.
  cbv zeta. destruct (bool_decide _); [destruct optional_; auto with shrinks|].
  apply (shrinks_erase (fun _ => size_t (find_pos s (label_pattern separator_) + 1))
           (fun _ => size separator_)); auto using size_t_nonneg, size_nonneg with shrinks.
Qed.

Lemma shrinks_SelectionComponent_read sel section_name :
  shrinks (SelectionComponent_read sel section_name).
Proof.
  intros ss c. unfold SelectionComponent_read.
  unfold bind at 1, condline_str at 1, str.
  destruct (selection_scan (buf ss) (datfilevalues_ sel) 0 (defaultvalue_ sel))
    as [position selected_value].
  cbv zeta. unfold bind at 1, string_erase.
  destruct (erase (buf ss) (size_t (position + 1)) (size selected_value)) as [s'|] eqn:E;
    [|done].
  apply erase_length in E; [|apply size_t_nonneg|apply size_nonneg].
  unfold ret. unfold bind at 1, condline_set_str at 1.
  match goal with
  | |- context [bind (condline_seekg ?p) ?k] =>
      assert (shrinks (bind (condline_seekg p) k)) as H by (repeat shrinks_step);
      specialize (H (set_str s' ss) c)
  end.
  simpl in *. lia.
Qed.
#[local] Hint Resolve shrinks_SeparatorComponent_read shrinks_SelectionComponent_read
  : shrinks.

Lemma shrinks_read_all section_name components :
  Forall (fun component => shrinks (read section_name component)) components ->
  shrinks (read_all section_name components).
Proof.
  induction 1 as [|component components H _ IH]; simpl; repeat shrinks_step.
Qed.

Lemma shrinks_read section_name component : shrinks (read section_name component).
Proof.
  induction component as [| | | | | | | |n k choices sel IH|] using LineComponent_nested_ind;
    try (simpl;
         unfold StringComponent_read, IntComponent_read,
           IntVectorComponent_read, RealComponent_read, RealVectorComponent_read,
           BoolComponent_read, ProcessedComponent_read;
         repeat shrinks_step; done).
  intros ss c. rewrite read_SwitchComponent. revert ss c.
  change (shrinks (SwitchComponent_read choices sel section_name)).
  unfold SwitchComponent_read. repeat shrinks_step.
  induction IH as [|[k' [lbl comps]] choices Hc _ IHc]; simpl; [auto with shrinks|].
  destruct (bool_decide (k' = a1)); [|exact IHc].
  by apply shrinks_read_all.
Qed.

(** X5. No [read] makes the text longer: whatever the component and the
    stream, the text the call leaves, returning or throwing, has at most
    as many characters as the text it was handed.  The components only
    ever put back what [erase] has made of the text. *)
Theorem X5_read_never_lengthens_text
    (section_name : string) (component : LineComponent)
    (ss : stringstream) (c : gmap string value) :
  let '(outcome, ss', c') := read section_name component ss c in
  (String.length (buf ss') <= String.length (buf ss))%nat.
Proof.
  pose proof (shrinks_read section_name component ss c) as H.
  by destruct (read section_name component ss c) as [[outcome ss'] c'].
Qed.

(** *** What a [read] leaves of the container *)

(** X6. No [read] takes a name out of the container: with insertion
    functions of the Processed components that keep the names they find,
    every name the container holds before a call is still there after it,
    whether the call returns or throws. *)
Theorem X6_read_keeps_names_in_container
    (section_name : string) (component : LineComponent)
    (ss ss' : stringstream) (c c' : gmap string value) (outcome : result unit)
    (n : string) :
  keeps_names component ->
  read section_name component ss c = (outcome, ss', c') ->
  is_Some (c !! n) -> is_Some (c' !! n).
Proof. intros Hk. apply (grows_read section_name component Hk). Qed.

(** [untouched m]: the call [m] leaves the container as it was. *)
Definition untouched {A} (m : M A) : Prop := forall ss c, (m ss c).2 = c.

(** [stores n m]: the call [m] leaves the container as it was when it
    throws and with one entry put under [n] when it returns. *)
Definition stores (n : string) {A} (m : M A) : Prop :=
  forall ss c,
    match m ss c with
    | (Return _, _, c') => exists v, c' = <[n := v]> c
    | (Throw _, _, c') => c' = c
    end.

Lemma untouched_bind {A B} (m : M A) (k : A -> M B) :
  untouched m -> (forall a, untouched (k a)) -> untouched (bind m k).
Proof.
  intros Hm Hk ss c. unfold bind. specialize (Hm ss c).
  destruct (m ss c) as [[[a|e] ss'] c']; simpl in Hm; subst c'; [apply Hk|done].
Qed.

Lemma untouched_ret {A} (a : A) : untouched (ret a).
Proof. done. Qed.

Lemma untouched_throw {A} e : untouched (@throw _ A e).
Proof. done. Qed.

Lemma untouched_lift {A} (r : result A) : untouched (lift r).
Proof. done. Qed.

Lemma untouched_str : untouched condline_str.
Proof. done. Qed.

Lemma untouched_set_str t : untouched (condline_set_str t).
Proof. done. Qed.

Lemma untouched_tellg : untouched condline_tellg.
Proof. intros ss c. unfold condline_tellg. by destruct (tellg ss). Qed.

Lemma untouched_seekg pos : untouched (condline_seekg pos).
Proof. done. Qed.

Lemma untouched_seekg_end : untouched condline_seekg_end.
Proof. done. Qed.

Lemma untouched_extract old : untouched (condline_extract old).
Proof. intros ss c. unfold condline_extract. by destruct (extract old ss). Qed.

Lemma untouched_get_container : untouched get_container.
Proof. done. Qed.

Lemma untouched_array_at {A} (v : list A) i : untouched (array_at v i).
Proof. intros ss c. unfold array_at. by destruct (v !! i). Qed.

Lemma untouched_string_erase s pos n : untouched (string_erase s pos n).
Proof. intros ss c. unfold string_erase. by destruct (erase s pos n). Qed.

Lemma untouched_new_vector {T} n (x : T) : untouched (new_vector n x).
Proof. intros ss c. unfold new_vector. by destruct (n <? 0). Qed.

Lemma untouched_visit_length l : untouched (visit_length l).
Proof.
  destruct l; simpl; [apply untouched_ret|].
  apply untouched_bind; [apply untouched_get_container|intros; apply untouched_lift].
Qed.

Create HintDb untouched.
#[local] Hint Resolve untouched_ret untouched_throw untouched_lift untouched_str
  untouched_set_str untouched_tellg untouched_seekg untouched_seekg_end untouched_extract
  untouched_get_container untouched_array_at untouched_string_erase untouched_new_vector
  untouched_visit_length : untouched.

Ltac untouched_step :=
  match goal with
  | |- untouched (bind _ _) => apply untouched_bind; [|intros ?]
  | |- untouched (if ?b then _ else _) => destruct b
  | |- untouched (let '(_, _) := ?x in _) => destruct x
  | |- untouched _ => solve [auto with untouched]
  end.

Lemma untouched_erase_extracted token : untouched (erase_extracted token).
Proof. unfold erase_extracted. repeat untouched_step. Qed.
#[local] Hint Resolve untouched_erase_extracted : untouched.

Lemma untouched_read_slots {T} (convert : string -> result T) optional_ position slots :
  untouched (read_slots convert optional_ position slots).
Proof. induction slots as [|x slots IH]; simpl; repeat untouched_step. Qed.
#[local] Hint Resolve untouched_read_slots : untouched.

Lemma untouched_SeparatorComponent_read optional_ separator_ section_name :
  untouched (SeparatorComponent_read optional_ separator_ section_name).
Proof. unfold SeparatorComponent_read. repeat untouched_step. Qed.

Lemma stores_bind n {A B} (m : M A) (k : A -> M B) :
  untouched m -> (forall a, stores n (k a)) -> stores n (bind m k).
Proof.
  intros Hm Hk ss c. unfold bind. specialize (Hm ss c).
  destruct (m ss c) as [[[a|e] ss'] c']; simpl in Hm; subst c'; [apply Hk|done].
Qed.

Lemma stores_add n v : stores n (add n v).
Proof. intros ss c. simpl. by exists v. Qed.

Lemma stores_throw n {A} e : stores n (@throw _ A e).
Proof. by intros ss c. Qed.

Ltac stores_step :=
  match goal with
  | |- stores _ (bind _ _) => apply stores_bind; [solve [repeat untouched_step]|intros ?]
  | |- stores _ (if ?b then _ else _) => destruct b
  | |- stores _ (let '(_, _) := ?x in _) => destruct x
  | |- stores _ (add _ _) => apply stores_add
  | |- stores _ (throw _) => apply stores_throw
  end.

Lemma stores_read section_name component n :
  written_name component = Some n ->
  (forall name default_key choices sel,
     component <> SwitchComponent name default_key choices sel) ->
  stores n (read section_name component).
Proof.
  destruct component; intros [= <-] Hsw;
    try (simpl;
         unfold StringComponent_read, SelectionComponent_read, IntComponent_read,
           IntVectorComponent_read, RealComponent_read, RealVectorComponent_read,
           BoolComponent_read;
         repeat stores_step; done).
  by destruct (Hsw name_ default_key_ choices_ component_for_key_).
Qed.

(** X7. A value field other than a Switch (String, Selection, Int, Real,
    Bool, a vector of either) touches one entry of the container, its own:
    a call that returns has put a value under the field's name and left
    every other entry as it was, and a call that throws leaves the
    container exactly as it was.  A Separator never touches the
    container. *)
Theorem X7_value_field_touches_only_its_entry
    (section_name : string) (component : LineComponent)
    (ss : stringstream) (c : gmap string value) :
  (forall name default_key choices sel,
     component <> SwitchComponent name default_key choices sel) ->
  (forall name optional insert_operation,
     component <> ProcessedComponent name optional insert_operation) ->
  let '(outcome, ss', c') := read section_name component ss c in
  match outcome, written_name component with
  | Return _, Some n => exists v, c' = <[n := v]> c
  | _, _ => c' = c
  end.
Proof.
  intros Hsw Hpr. destruct (written_name component) as [n|] eqn:Hn.
  - pose proof (stores_read section_name component n Hn Hsw ss c) as H.
    by destruct (read section_name component ss c) as [[[u|e] ss'] c'].
  - destruct component; try done.
    + pose proof (untouched_SeparatorComponent_read optional_ separator_ section_name ss c)
        as H.
      simpl. destruct (SeparatorComponent_read _ _ _ ss c) as [[[u|e] ss'] c']; by simpl in H.
    + by destruct (Hpr name_ optional_ insert_operation_).
Qed.

(** *** A value field in front of a token *)

Lemma token_protocol old pre ws tok sp post (c : gmap string value) :
  all_chars isspace ws = true -> is_token tok -> isspace sp = true ->
  size (pre +:+ ws +:+ tok +:+ String sp post) <= max_size ->
  let text := pre +:+ ws +:+ tok +:+ String sp post in
  let ss := mk_stream text (String.length pre) false false in
  let ss1 :=
    mk_stream text (String.length pre + String.length ws + String.length tok) false false in
  let text' := pre +:+ ws +:+ String sp post in
  condline_tellg ss c = (Return (Z.of_nat (String.length pre)), ss, c)
  /\ size_t (Z.of_nat (String.length pre)) <> size text
  /\ condline_extract old ss c = (Return tok, ss1, c)
  /\ erase_extracted tok ss1 c = (Return (), mk_stream text' 0 false false, c)
  /\ condline_seekg (Z.of_nat (String.length pre)) (mk_stream text' 0 false false) c
     = (Return (), mk_stream text' (String.length pre) false false, c).
Proof.
  intros Hws Htok Hsp Hsize. cbv zeta.
  split; [done|]. split; [by apply token_remains|]. split.
  { unfold condline_extract. by rewrite extract_token. }
  split; [by apply erase_extracted_token|].
  unfold condline_seekg. by rewrite seekg_back.
Qed.

Lemma IntComponent_read_token name_ data_ section_name pre ws tok sp post c number :
  all_chars isspace ws = true -> is_token tok -> isspace sp = true ->
  size (pre +:+ ws +:+ tok +:+ String sp post) <= max_size ->
  stoi tok = Converted number (String.length tok) ->
  IntComponent_read name_ data_ section_name
    (mk_stream (pre +:+ ws +:+ tok +:+ String sp post) (String.length pre) false false) c
  = (Return (),
     mk_stream (pre +:+ ws +:+ String sp post) (String.length pre) false false,
     <[name_ := v_int number]> c).
Proof.
  intros Hws Htok Hsp Hsize Hconv.
  destruct (token_protocol "" pre ws tok sp post c Hws Htok Hsp Hsize)
    as (Htell & Hremains & Hextract & Herase & Hseek).
  unfold IntComponent_read. returns Htell.
  rewrite (bind_returns condline_str _ _ _ _ _ _ eq_refl).
  rewrite bool_decide_eq_true_2 by exact Hremains.
  returns Hextract.
  rewrite (bool_decide_eq_false_2 (tok = "")) by (by destruct Htok).
  rewrite orb_true_r. unfold convert_int. rewrite (convert_whole _ _ _ _ _ _ _ _ Hconv).
  rewrite (bind_returns (lift (Return number)) _ _ _ _ _ _ eq_refl).
  returns Herase. returns Hseek. done.
Qed.

Lemma RealComponent_read_token name_ data_ section_name pre ws tok sp post c number :
  all_chars isspace ws = true -> is_token tok -> isspace sp = true ->
  size (pre +:+ ws +:+ tok +:+ String sp post) <= max_size ->
  stod tok = Converted number (String.length tok) ->
  RealComponent_read name_ data_ section_name
    (mk_stream (pre +:+ ws +:+ tok +:+ String sp post) (String.length pre) false false) c
  = (Return (),
     mk_stream (pre +:+ ws +:+ String sp post) (String.length pre) false false,
     <[name_ := v_real number]> c).
Proof.
  intros Hws Htok Hsp Hsize Hconv.
  destruct (token_protocol "" pre ws tok sp post c Hws Htok Hsp Hsize)
    as (Htell & Hremains & Hextract & Herase & Hseek).
  unfold RealComponent_read. returns Htell.
  rewrite (bind_returns condline_str _ _ _ _ _ _ eq_refl).
  rewrite bool_decide_eq_true_2 by exact Hremains.
  returns Hextract.
  rewrite (bool_decide_eq_false_2 (tok = "")) by (by destruct Htok).
  rewrite andb_false_r. cbn [negb].
  unfold convert_double. rewrite (convert_whole _ _ _ _ _ _ _ _ Hconv).
  rewrite (bind_returns (lift (Return number)) _ _ _ _ _ _ eq_refl).
  returns Herase. returns Hseek. done.
Qed.

(** X8. An Int or a Real field that finds a token after the get position
    (white space, the token, a white-space character) and whose token the
    library converts as a whole stores the converted number under its
    name, takes the token and nothing else out of the text, and puts the
    get position back where it was; neither the optional flag nor the
    declared default plays a part. *)
Theorem X8_scalar_reads_token
    (name_ section_name pre ws tok : string) (sp : ascii) (post : string)
    (c : gmap string value) :
  all_chars isspace ws = true -> is_token tok -> isspace sp = true ->
  size (pre +:+ ws +:+ tok +:+ String sp post) <= max_size ->
  (forall (data_ : IntComponentData) (number : Z),
     stoi tok = Converted number (String.length tok) ->
     read section_name (IntComponent name_ data_)
       (mk_stream (pre +:+ ws +:+ tok +:+ String sp post) (String.length pre) false false) c
     = (Return (),
        mk_stream (pre +:+ ws +:+ String sp post) (String.length pre) false false,
        <[name_ := v_int number]> c))
  /\ (forall (data_ : RealComponentData) (number : double),
        stod tok = Converted number (String.length tok) ->
        read section_name (RealComponent name_ data_)
          (mk_stream (pre +:+ ws +:+ tok +:+ String sp post) (String.length pre) false false) c
        = (Return (),
           mk_stream (pre +:+ ws +:+ String sp post) (String.length pre) false false,
           <[name_ := v_real number]> c)).
Proof.
  intros Hws Htok Hsp Hsize. split; intros data_ number Hconv; simpl.
  - by apply IntComponent_read_token.
  - by apply RealComponent_read_token.
Qed.

(** *** Nothing but white space after the get position *)

Lemma span_length_whole p s : all_chars p s = true -> span_length p s = String.length s.
Proof.
  intros H. rewrite <- (append_nil_r s) at 1. rewrite span_length_all by done. simpl. lia.
Qed.

Lemma extract_blank old ss :
  eofbit ss = false -> failbit ss = false ->
  all_chars isspace (drop (gptr ss) (buf ss)) = true ->
  extract old ss = (old, mk_stream (buf ss) (String.length (buf ss)) true true).
Proof.
  intros He Hf Hws. unfold extract, good. rewrite He, Hf. cbn [negb andb].
  rewrite (span_length_whole _ _ Hws). by rewrite drop_all.
Qed.

Lemma erase_extracted_failed token b g e (c : gmap string value) :
  size b <= max_size -> size token <= max_size ->
  erase_extracted token (mk_stream b g e true) c
  = (Throw std_out_of_range, mk_stream b g e true, c).
Proof.
  intros Hb Htok. unfold max_size in *.
  assert (0 <= size b /\ 0 <= size token) as [? ?] by (unfold size; lia).
  unfold erase_extracted, bind, condline_tellg, tellg, good, condline_str, str.
  cbn [eofbit failbit buf negb andb]. rewrite andb_false_r.
  unfold setstate_fail. cbn [buf gptr eofbit].
  change (size_t (-1)) with (2 ^ 64 - 1).
  rewrite size_t_small by (unfold size_max; lia).
  unfold string_erase, erase.
  destruct (Z.ltb_spec (size b) (2 ^ 64 - 1 - size token)); [done|lia].
Qed.

Lemma position_inside ss :
  (gptr ss < String.length (buf ss))%nat -> size (buf ss) <= max_size ->
  size_t (Z.of_nat (gptr ss)) <> size (buf ss).
Proof.
  intros Hpos Hsize. unfold max_size, size in *.
  rewrite size_t_small by (unfold size_max; lia). lia.
Qed.

Lemma position_at_end ss :
  gptr ss = String.length (buf ss) -> size (buf ss) <= max_size ->
  size_t (Z.of_nat (gptr ss)) = size (buf ss).
Proof.
  intros Hpos Hsize. unfold max_size, size in *.
  rewrite size_t_small by (unfold size_max; lia). lia.
Qed.

(** A label taken out of the text, on whatever state the stream is in:
    [seekg] repositions a stream that has not failed and is refused by one
    that has. *)
Lemma seekg_label pre post ss :
  seekg (size pre + 1) (set_str (pre +:+ " " +:+ " " +:+ post) ss)
  = if failbit ss
    then mk_stream (pre +:+ " " +:+ " " +:+ post) 0 false true
    else mk_stream (pre +:+ " " +:+ " " +:+ post) (String.length pre + 1) false false.
Proof.
  unfold seekg, set_str, clear_eof. cbn [failbit buf gptr eofbit].
  destruct (failbit ss); [done|].
  rewrite (proj2 (Z.leb_le 0 _)) by (unfold size; lia).
  rewrite (proj2 (Z.leb_le _ _)) by (unfold size; rewrite !length_append; simpl; lia).
  cbn [andb]. f_equal. unfold size. lia.
Qed.

Lemma SeparatorComponent_read_label optional_ separator_ section_name ss c pre post :
  size (buf ss) <= max_size ->
  first_occurrence (" " +:+ separator_ +:+ " ") (buf ss) pre post ->
  SeparatorComponent_read optional_ separator_ section_name ss c
  = (Return (), seekg (size pre + 1) (set_str (pre +:+ " " +:+ " " +:+ post) ss), c).
Proof.
  intros Hsize Hfirst. unfold max_size in Hsize. pose proof Hfirst as [Hs _].
  unfold SeparatorComponent_read, bind, condline_str, str, label_pattern.
  rewrite (find_pos_first _ _ _ _ Hfirst).
  assert (size pre + 1 + size separator_ + 1 + size post = size (buf ss)).
  { rewrite Hs. unfold size. rewrite !length_append. simpl. lia. }
  assert (0 <= size pre /\ 0 <= size separator_ /\ 0 <= size post) as (? & ? & ?)
    by (unfold size; lia).
  rewrite bool_decide_eq_false_2 by (unfold npos, size_max; lia).
  rewrite size_t_small by (unfold size_max; lia).
  assert (Herase : erase (buf ss) (size pre + 1) (size separator_)
                   = Some (pre +:+ " " +:+ " " +:+ post)).
  { replace (size pre + 1) with (size (pre +:+ " "))
      by (unfold size; rewrite length_append; simpl; lia).
    replace (buf ss) with ((pre +:+ " ") +:+ separator_ +:+ (" " +:+ post))
      by (rewrite Hs; by rewrite !append_assoc).
    rewrite erase_middle. by rewrite append_assoc. }
  unfold string_erase. rewrite Herase.
  unfold ret, condline_set_str, condline_seekg, streampos.
  by destruct (Z.ltb_spec (size pre + 1) (2 ^ 63)); [|lia].
Qed.

(** A stream that is not good gives an Int nothing to read: [tellg]
    reports -1, the extraction leaves the string empty, and the field
    throws. *)
Lemma IntComponent_read_failed name_ data_ section_name b g e (c : gmap string value) :
  size b <= max_size ->
  IntComponent_read name_ data_ section_name (mk_stream b g e true) c
  = (Throw (if int_optional data_ then std_out_of_range
            else missing_value_error name_ section_name 1),
     mk_stream b g e true, c).
Proof.
  intros Hb.
  assert (Hpos : size_t (-1) <> size b).
  { change (size_t (-1)) with (2 ^ 64 - 1). unfold max_size in Hb. lia. }
  unfold IntComponent_read, bind, condline_tellg, tellg, good, condline_str, str.
  cbn [eofbit failbit buf negb andb]. rewrite andb_false_r.
  unfold setstate_fail. cbn [buf gptr eofbit].
  rewrite bool_decide_eq_true_2 by exact Hpos.
  unfold condline_extract, extract, good. cbn [eofbit failbit negb andb].
  rewrite andb_false_r. unfold setstate_fail. cbn [buf gptr eofbit].
  destruct (int_optional data_); simpl.
  - unfold ret. by rewrite erase_extracted_failed by (done || by vm_compute).
  - done.
Qed.

(** X9. A label and its value are taken out of the line together,
    wherever the label stands.  A Separator followed by an Int, on a text
    in which the label first occurs between blanks after [pre] and is
    followed by a token that [stoi] converts as a whole: on a stream that
    has not failed they store the number under the Int's name and leave
    the text with the label and the token removed, everything before the
    label and after the token in place, and the get position where the
    label began.  On a stream that has failed the Separator still takes
    its label out of the text, but [seekg] is refused and the Int finds
    nothing to read: a mandatory Int throws the missing-value error and an
    optional one [std::out_of_range], with the token still in the text and
    the container as it was. *)
Theorem X9_label_then_value
    (optional_ : bool) (separator_ description_ name_ section_name : string)
    (data_ : IntComponentData) (number : Z)
    (pre ws tok : string) (sp : ascii) (post : string)
    (ss : stringstream) (c : gmap string value) :
  size (buf ss) <= max_size ->
  first_occurrence (" " +:+ separator_ +:+ " ") (buf ss) pre
    (ws +:+ tok +:+ String sp post) ->
  all_chars isspace ws = true -> is_token tok -> isspace sp = true ->
  stoi tok = Converted number (String.length tok) ->
  read_all section_name
    [SeparatorComponent optional_ separator_ description_; IntComponent name_ data_] ss c
  = if failbit ss
    then (Throw (if int_optional data_ then std_out_of_range
                 else missing_value_error name_ section_name 1),
          mk_stream (pre +:+ " " +:+ " " +:+ ws +:+ tok +:+ String sp post) 0 false true,
          c)
    else (Return (),
          mk_stream (pre +:+ " " +:+ " " +:+ ws +:+ String sp post) (String.length pre + 1)
            false false,
          <[name_ := v_int number]> c).
Proof.
  intros Hsize Hfirst Hws Htok Hsp Hconv.
  cbn [read_all read].
  rewrite (bind_returns _ _ _ _ _ _ _
             (SeparatorComponent_read_label optional_ separator_ section_name ss c pre _
                Hsize Hfirst)).
  rewrite seekg_label.
  assert (Hsize' : size ((pre +:+ " ") +:+ (" " +:+ ws) +:+ tok +:+ String sp post)
                   <= max_size).
  { destruct Hfirst as [Hs _]. rewrite Hs in Hsize.
    unfold size in *. rewrite !length_append in *. simpl in *. lia. }
  destruct (failbit ss).
  - unfold bind at 1. rewrite IntComponent_read_failed; [done|].
    etrans; [|exact Hsize']. unfold size. rewrite !length_append. simpl. lia.
  - assert (Hlen : (String.length pre + 1 = String.length (pre +:+ " "))%nat).
    { rewrite length_append. simpl. lia. }
    assert (Htext : forall rest,
              pre +:+ " " +:+ " " +:+ rest = (pre +:+ " ") +:+ " " +:+ rest).
    { intros rest. by rewrite !append_assoc. }
    rewrite Hlen, (Htext (ws +:+ tok +:+ String sp post)), (Htext (ws +:+ String sp post)).
    assert (Hws' : all_chars isspace (" " +:+ ws) = true) by exact Hws.
    by rewrite (bind_returns _ _ _ _ _ _ _
                  (IntComponent_read_token name_ data_ section_name (pre +:+ " ")
                     (" " +:+ ws) tok sp post c number Hws' Htok Hsp Hsize' Hconv)).
Qed.

(** X10. A scalar field with nothing but white space after the get
    position (and at least one character of it).  The extraction finds no
    token and leaves the stream failed at the end of the text.  A
    mandatory Int throws the missing-value error that says one value is
    expected, and so does a mandatory Real when [stod] rejects the empty
    string.  An optional Real stores its default.  An optional Int goes on
    to take the empty token out of the text, at the position the failed
    stream reports, and [erase] throws [std::out_of_range]. *)
Theorem X10_scalar_with_white_space_only
    (name_ section_name : string) (ss : stringstream) (c : gmap string value) :
  eofbit ss = false -> failbit ss = false ->
  (gptr ss < String.length (buf ss))%nat ->
  size (buf ss) <= max_size ->
  all_chars isspace (drop (gptr ss) (buf ss)) = true ->
  let failed := mk_stream (buf ss) (String.length (buf ss)) true true in
  (forall data_ : IntComponentData,
     read section_name (IntComponent name_ data_) ss c
     = (Throw (if int_optional data_ then std_out_of_range
               else missing_value_error name_ section_name 1),
        failed, c))
  /\ (forall data_ : RealComponentData,
        real_optional data_ = true ->
        read section_name (RealComponent name_ data_) ss c
        = (Return (), failed, <[name_ := v_real (real_default_value data_)]> c))
  /\ (forall data_ : RealComponentData,
        real_optional data_ = false ->
        stod "" = invalid_argument ->
        read section_name (RealComponent name_ data_) ss c
        = (Throw (missing_value_error name_ section_name 1), failed, c)).
Proof.
  intros He Hf Hpos Hsize Hws. cbv zeta.
  pose proof (position_inside ss Hpos Hsize) as Hin.
  pose proof (extract_blank "" ss He Hf Hws) as Hext.
  split; [|split].
  - intros data_. simpl. unfold IntComponent_read, bind, condline_tellg, condline_str, str.
    rewrite (tellg_good _ He Hf). rewrite bool_decide_eq_true_2 by done.
    unfold condline_extract. rewrite Hext.
    destruct (int_optional data_); simpl.
    + unfold ret. by rewrite erase_extracted_failed.
    + done.
  - intros data_ Hopt. simpl.
    unfold RealComponent_read, bind, condline_tellg, condline_str, str.
    rewrite (tellg_good _ He Hf). rewrite bool_decide_eq_true_2 by done.
    unfold condline_extract. rewrite Hext, Hopt. done.
  - intros data_ Hopt Hstod. simpl.
    unfold RealComponent_read, bind, condline_tellg, condline_str, str.
    rewrite (tellg_good _ He Hf). rewrite bool_decide_eq_true_2 by done.
    unfold condline_extract. rewrite Hext, Hopt. simpl.
    unfold lift, convert_double, convert_and_validate_string_to_number.
    rewrite Hstod. done.
Qed.

(** X11. A String field.  In front of a token it stores the token, takes
    it out of the text and puts the get position back.  At the end of the
    text it stores its default.  With nothing but white space left, the
    extraction leaves the string holding the default: an empty default
    throws the error of a value not properly specified, and any other
    default goes on to be taken out of the text at the position the failed
    stream reports, where [erase] throws [std::out_of_range]. *)
Theorem X11_string_read
    (name_ section_name : string) (optional_ : bool) (defaultvalue : string)
    (c : gmap string value) :
  (forall pre ws tok sp post,
     all_chars isspace ws = true -> is_token tok -> isspace sp = true ->
     size (pre +:+ ws +:+ tok +:+ String sp post) <= max_size ->
     read section_name (StringComponent name_ optional_ defaultvalue)
       (mk_stream (pre +:+ ws +:+ tok +:+ String sp post) (String.length pre) false false) c
     = (Return (),
        mk_stream (pre +:+ ws +:+ String sp post) (String.length pre) false false,
        <[name_ := v_string tok]> c))
  /\ (forall ss,
        eofbit ss = false -> failbit ss = false ->
        gptr ss = String.length (buf ss) ->
        size (buf ss) <= max_size ->
        read section_name (StringComponent name_ optional_ defaultvalue) ss c
        = (Return (), ss, <[name_ := v_string defaultvalue]> c))
  /\ (forall ss,
        eofbit ss = false -> failbit ss = false ->
        (gptr ss < String.length (buf ss))%nat ->
        size (buf ss) <= max_size ->
        size defaultvalue <= max_size ->
        all_chars isspace (drop (gptr ss) (buf ss)) = true ->
        read section_name (StringComponent name_ optional_ defaultvalue) ss c
        = (Throw (if bool_decide (defaultvalue = "")
                  then value_not_properly_specified name_ section_name
                  else std_out_of_range),
           mk_stream (buf ss) (String.length (buf ss)) true true, c)).
Proof.
  split; [|split].
  - intros pre ws tok sp post Hws Htok Hsp Hsize.
    destruct (token_protocol defaultvalue pre ws tok sp post c Hws Htok Hsp Hsize)
      as (Htell & Hremains & Hextract & Herase & Hseek).
    simpl. unfold StringComponent_read. returns Htell.
    rewrite (bind_returns condline_str _ _ _ _ _ _ eq_refl).
    rewrite bool_decide_eq_true_2 by exact Hremains.
    returns Hextract. rewrite bool_decide_eq_false_2 by (by destruct Htok).
    returns Herase. returns Hseek. done.
  - intros ss He Hf Hpos Hsize. simpl.
    unfold StringComponent_read, bind, condline_tellg, condline_str, str.
    rewrite (tellg_good _ He Hf).
    rewrite bool_decide_eq_false_2; [done|].
    intros H. apply H. by apply position_at_end.
  - intros ss He Hf Hpos Hsize Hd Hws. simpl.
    unfold StringComponent_read, bind, condline_tellg, condline_str, str.
    rewrite (tellg_good _ He Hf).
    rewrite bool_decide_eq_true_2 by (by apply position_inside).
    unfold condline_extract. rewrite (extract_blank _ ss He Hf Hws).
    destruct (bool_decide (defaultvalue = "")); [done|].
    by rewrite erase_extracted_failed.
Qed.

(** X12. A Processed field.  In front of a token it hands the token to
    its insertion function, the container being whatever the function
    makes of it, takes the token out of the text and puts the get position
    back.  At the end of the text it does nothing at all, mandatory or
    not.  With nothing but white space left it throws the error of a value
    not properly specified, and the insertion function is not called. *)
Theorem X12_processed_read
    (name_ section_name : string) (optional_ : bool)
    (insert_operation_ : string -> gmap string value -> gmap string value)
    (c : gmap string value) :
  (forall pre ws tok sp post,
     all_chars isspace ws = true -> is_token tok -> isspace sp = true ->
     size (pre +:+ ws +:+ tok +:+ String sp post) <= max_size ->
     read section_name (ProcessedComponent name_ optional_ insert_operation_)
       (mk_stream (pre +:+ ws +:+ tok +:+ String sp post) (String.length pre) false false) c
     = (Return (),
        mk_stream (pre +:+ ws +:+ String sp post) (String.length pre) false false,
        insert_operation_ tok c))
  /\ (forall ss,
        eofbit ss = false -> failbit ss = false ->
        gptr ss = String.length (buf ss) ->
        size (buf ss) <= max_size ->
        read section_name (ProcessedComponent name_ optional_ insert_operation_) ss c
        = (Return (), ss, c))
  /\ (forall ss,
        eofbit ss = false -> failbit ss = false ->
        (gptr ss < String.length (buf ss))%nat ->
        size (buf ss) <= max_size ->
        all_chars isspace (drop (gptr ss) (buf ss)) = true ->
        read section_name (ProcessedComponent name_ optional_ insert_operation_) ss c
        = (Throw (value_not_properly_specified name_ section_name),
           mk_stream (buf ss) (String.length (buf ss)) true true, c)).
Proof.
  split; [|split].
  - intros pre ws tok sp post Hws Htok Hsp Hsize.
    destruct (token_protocol "" pre ws tok sp post c Hws Htok Hsp Hsize)
      as (Htell & Hremains & Hextract & Herase & Hseek).
    simpl. unfold ProcessedComponent_read. returns Htell.
    rewrite (bind_returns condline_str _ _ _ _ _ _ eq_refl).
    rewrite bool_decide_eq_true_2 by exact Hremains.
    returns Hextract. rewrite bool_decide_eq_false_2 by (by destruct Htok).
    returns Herase. returns Hseek. done.
  - intros ss He Hf Hpos Hsize. simpl.
    unfold ProcessedComponent_read, bind, condline_tellg, condline_str, str.
    rewrite (tellg_good _ He Hf).
    rewrite bool_decide_eq_false_2; [done|].
    intros H. apply H. by apply position_at_end.
  - intros ss He Hf Hpos Hsize Hws. simpl.
    unfold ProcessedComponent_read, bind, condline_tellg, condline_str, str.
    rewrite (tellg_good _ He Hf).
    rewrite bool_decide_eq_true_2 by (by apply position_inside).
    unfold condline_extract. by rewrite (extract_blank _ ss He Hf Hws).
Qed.

(** *** Vectors *)

(** The length a vector resolves to with the container [c]. *)
Definition resolves (length_ : length_variant) (c : gmap string value) (n : Z) : Prop :=
  match length_ with
  | length_int m => m = n
  | length_from f => f c = Return n
  end.

Lemma visit_length_resolves length_ ss c n :
  resolves length_ c n -> visit_length length_ ss c = (Return n, ss, c).
Proof.
  destruct length_ as [m|f]; simpl; [by intros ->|].
  intros H. unfold bind, get_container, lift. by rewrite H.
Qed.

Lemma visit_length_inv length_ ss c r ss' c' :
  visit_length length_ ss c = (r, ss', c') ->
  ss' = ss /\ c' = c /\ forall n, r = Return n -> resolves length_ c n.
Proof.
  destruct length_ as [m|f]; simpl.
  - intros [= <- <- <-]. split; [done|]. split; [done|]. by intros n [= ->].
  - unfold bind, get_container, lift. intros [= <- <- <-]. done.
Qed.

(** Tokens, each followed by the white space that ends it, in front of
    [post]; and the same text with the tokens taken out. *)
Fixpoint tokens_text (items : list (string * string)) (post : string) : string :=
  match items with
  | [] => post
  | (tok, ws) :: items' => tok +:+ ws +:+ tokens_text items' post
  end.

Fixpoint gaps_text (items : list (string * string)) (post : string) : string :=
  match items with
  | [] => post
  | (_, ws) :: items' => ws +:+ gaps_text items' post
  end.

Definition spaced_token (item : string * string) : Prop :=
  is_token item.1 /\ item.2 <> "" /\ all_chars isspace item.2 = true.

Lemma bind_ret_r {A} (m : M A) ss c : bind m ret ss c = m ss c.
Proof. unfold bind. by destruct (m ss c) as [[[a|e] ss'] c']. Qed.

Lemma length_gaps_text items post :
  (String.length (gaps_text items post) <= String.length (tokens_text items post))%nat.
Proof.
  induction items as [|[tok ws] items IH]; simpl; [lia|]. rewrite !length_append. lia.
Qed.

Lemma all_chars_gaps_text items post :
  Forall spaced_token items -> all_chars isspace post = true ->
  all_chars isspace (gaps_text items post) = true.
Proof.
  intros H Hpost. induction H as [|[tok ws] items (_ & _ & Hws) _ IH]; simpl; [done|].
  rewrite all_chars_append. simpl in Hws. by rewrite Hws, IH.
Qed.

(** The slots of a vector in front of as many tokens: each slot takes the
    value of its token, in order, and the loop goes on with the slots that
    are left on the text without the tokens. *)
Lemma read_slots_tokens {T} (convert : string -> result T) optional_ pre items :
  Forall spaced_token items ->
  forall (values slots1 slots2 : list T) ws0 post (c : gmap string value),
    Forall2 (fun item v => convert item.1 = Return v) items values ->
    length slots1 = length items ->
    all_chars isspace ws0 = true ->
    size (pre +:+ ws0 +:+ tokens_text items post) <= max_size ->
    read_slots convert optional_ (Z.of_nat (String.length pre)) (slots1 ++ slots2)
      (mk_stream (pre +:+ ws0 +:+ tokens_text items post) (String.length pre) false false) c
    = (rest <- read_slots convert optional_ (Z.of_nat (String.length pre)) slots2 ;;
       ret (values ++ rest))
        (mk_stream (pre +:+ ws0 +:+ gaps_text items post) (String.length pre) false false) c.
Proof.
  induction 1 as [|[tok ws] items (Htok & Hne & Hws) _ IH];
    intros values slots1 slots2 ws0 post c Hvalues Hlen Hws0 Hsize.
  { apply Forall2_nil_inv_l in Hvalues as ->. destruct slots1; [|done].
    simpl. by rewrite bind_ret_r. }
  apply Forall2_cons_inv_l in Hvalues as (v & values' & Hv & Hvalues & ->).
  destruct slots1 as [|d slots1]; [done|]. injection Hlen as Hlen.
  simpl in Htok, Hne, Hws, Hv.
  destruct ws as [|sp ws']; [done|]. simpl in Hws.
  apply andb_true_iff in Hws as [Hsp Hws'].
  cbn [tokens_text gaps_text] in *. rewrite !append_cons in *.
  set (rest := ws' +:+ tokens_text items post) in *.
  destruct (token_protocol "" pre ws0 tok sp rest c Hws0 Htok Hsp Hsize)
    as (_ & _ & Hextract & Herase & Hseek).
  cbn [app read_slots]. returns Hextract.
  rewrite (bool_decide_eq_false_2 (tok = "")) by (by destruct Htok).
  rewrite andb_false_r, Hv.
  rewrite (bind_returns (lift (Return v)) _ _ _ _ _ _ eq_refl).
  returns Herase. returns Hseek.
  assert (Hjoin : forall t, pre +:+ ws0 +:+ String sp (ws' +:+ t)
                            = pre +:+ (ws0 +:+ String sp ws') +:+ t).
  { intros t. rewrite !append_assoc. by rewrite append_cons. }
  unfold rest. rewrite !Hjoin.
  assert (Hws1 : all_chars isspace (ws0 +:+ String sp ws') = true).
  { rewrite all_chars_append. simpl. by rewrite Hws0, Hsp, Hws'. }
  assert (Hsize1 : size (pre +:+ (ws0 +:+ String sp ws') +:+ tokens_text items post)
                   <= max_size).
  { rewrite <- Hjoin. fold rest. clear -Hsize. unfold size in *.
    rewrite !length_append in *. cbn [String.length] in *. lia. }
  unfold bind at 1.
  rewrite (IH values' slots1 slots2 _ post c Hvalues Hlen Hws1 Hsize1).
  unfold bind.
  by destruct (read_slots convert optional_ _ slots2 _ c) as [[[r|e] ss'] c'].
Qed.

Lemma tokens_remain pre ws0 items post :
  Forall spaced_token items -> items <> [] \/ ws0 +:+ post <> "" ->
  size (pre +:+ ws0 +:+ tokens_text items post) <= max_size ->
  size_t (Z.of_nat (String.length pre)) <> size (pre +:+ ws0 +:+ tokens_text items post).
Proof.
  intros Hitems Hne Hsize. unfold max_size, size in *. rewrite !length_append in *.
  rewrite size_t_small by (unfold size_max; lia).
  destruct Hitems as [|[tok ws] items ([Htok _] & _) _].
  - destruct Hne as [|Hne]; [done|]. simpl.
    destruct ws0; [|simpl; lia]. destruct post; [done|simpl; lia].
  - simpl in *. destruct tok; [done|]. rewrite !length_append. simpl. lia.
Qed.

Lemma read_slots_length {T} (convert : string -> result T) optional_ position slots :
  forall ss c l ss' c',
    read_slots convert optional_ position slots ss c = (Return l, ss', c') ->
    length l = length slots.
Proof.
  induction slots as [|d slots IH]; intros ss c l ss' c'; simpl.
  { by intros [= <- _ _]. }
  unfold bind at 1, condline_extract. destruct (extract "" ss) as [snumber ss1].
  destruct (optional_ && bool_decide (snumber = ""))%bool; [by intros [= <- _ _]|].
  unfold bind at 1, lift. destruct (convert snumber) as [number|e]; [|done].
  unfold bind at 1. destruct (erase_extracted snumber ss1 c) as [[[u|e] ss2] c2]; [|done].
  unfold bind at 1, condline_seekg. unfold bind.
  destruct (read_slots convert optional_ position slots _ c2) as [[[r|e] ss3] c3] eqn:E;
    [|done].
  intros [= <- _ _]. simpl. f_equal. by eapply IH.
Qed.

Section Vectors.
Variables (name_ section_name : string) (optional_ : bool) (length_ : length_variant).
Variables (pre ws0 post : string) (items : list (string * string)).
Variable c : gmap string value.
Hypothesis Hitems : Forall spaced_token items.
Hypothesis Hws0 : all_chars isspace ws0 = true.
Hypothesis Hsize : size (pre +:+ ws0 +:+ tokens_text items post) <= max_size.

(** A vector that is read in front of [items]: the loop over its slots,
    after the tokens. *)
Lemma vector_read_tokens {T} (convert : Z -> string -> result T) (wrap : list T -> value)
    (d : T) (values : list T) (n : Z) :
  resolves length_ c n -> (length items <= Z.to_nat n)%nat -> 0 <= n ->
  items <> [] \/ ws0 +:+ post <> "" ->
  Forall2 (fun item v => convert n item.1 = Return v) items values ->
  (dynamic_length <- visit_length length_ ;;
   nnumbers <- new_vector dynamic_length d ;;
   position <- condline_tellg ;;
   s <- condline_str ;;
   nnumbers <-
     (if bool_decide (size_t position <> size s) then
        read_slots (convert dynamic_length) optional_ position nnumbers
      else ret nnumbers) ;;
   add name_ (wrap nnumbers))
    (mk_stream (pre +:+ ws0 +:+ tokens_text items post) (String.length pre) false false) c
  = (rest <- read_slots (convert n) optional_ (Z.of_nat (String.length pre))
               (replicate (Z.to_nat n - length items) d) ;;
     add name_ (wrap (values ++ rest)))
      (mk_stream (pre +:+ ws0 +:+ gaps_text items post) (String.length pre) false false) c.
Proof.
  intros Hres Hlen Hn Hne Hvalues.
  rewrite (bind_returns _ _ _ _ _ _ _ (visit_length_resolves _ _ _ _ Hres)).
  unfold new_vector. destruct (Z.ltb_spec n 0); [lia|].
  rewrite (bind_returns (ret _) _ _ _ _ _ _ eq_refl).
  rewrite (bind_returns condline_tellg _
             (mk_stream _ (String.length pre) false false) c
             (Z.of_nat (String.length pre))
             (mk_stream _ (String.length pre) false false) c eq_refl).
  rewrite (bind_returns condline_str _ _ _ _ _ _ eq_refl).
  unfold str. cbn [buf].
  rewrite bool_decide_eq_true_2 by (by apply tokens_remain).
  replace (replicate (Z.to_nat n) d)
    with (replicate (length items) d ++ replicate (Z.to_nat n - length items) d).
  2:{ rewrite <- replicate_add. f_equal. lia. }
  unfold bind at 1.
  rewrite (read_slots_tokens (convert n) optional_ pre items Hitems values
             (replicate (length items) d) _ ws0 post c Hvalues
             ltac:(by rewrite length_replicate) Hws0 Hsize).
  unfold bind.
  by destruct (read_slots (convert n) optional_ _ _ _ c) as [[[r|e] ss'] c'].
Qed.

End Vectors.

(** X13. A vector in front of exactly as many tokens as its length
    resolves to, each token followed by white space and converted as a
    whole by the library: the values are stored under the vector's name in
    the order of the tokens, the tokens and nothing else leave the text,
    and the get position is back where it was.  The length is the constant
    of the declaration or what the length function returns on the
    container as it is when the vector is read. *)
Theorem X13_vector_reads_tokens_in_order
    (name_ section_name : string) (optional_ : bool) (length_ : length_variant)
    (pre ws0 post : string) (items : list (string * string))
    (c : gmap string value) :
  Forall spaced_token items ->
  all_chars isspace ws0 = true ->
  size (pre +:+ ws0 +:+ tokens_text items post) <= max_size ->
  resolves length_ c (Z.of_nat (length items)) ->
  let before :=
    mk_stream (pre +:+ ws0 +:+ tokens_text items post) (String.length pre) false false in
  let after :=
    mk_stream (pre +:+ ws0 +:+ gaps_text items post) (String.length pre) false false in
  (forall (data_ : IntComponentData) (values : list Z),
     Forall2 (fun item v => stoi item.1 = Converted v (String.length item.1)) items values ->
     read section_name (IntVectorComponent name_ optional_ length_ data_) before c
     = (Return (), after, <[name_ := v_int_vector values]> c))
  /\ (forall (data_ : RealComponentData) (values : list double),
        Forall2 (fun item v => stod item.1 = Converted v (String.length item.1))
          items values ->
        read section_name (RealVectorComponent name_ optional_ length_ data_) before c
        = (Return (), after, <[name_ := v_real_vector values]> c)).
Proof.
  intros Hitems Hws0 Hsize Hres. cbv zeta.
  assert (Hcases : items = [] \/ items <> []) by (destruct items; auto).
  split; intros data_ values Hvalues; simpl.
  - destruct Hcases as [->|Hne].
    + apply Forall2_nil_inv_l in Hvalues as ->. simpl in *.
      unfold IntVectorComponent_read.
      rewrite (bind_returns _ _ _ _ _ _ _ (visit_length_resolves _ _ _ _ Hres)).
      unfold bind, new_vector, ret, condline_tellg, tellg, good, condline_str. simpl.
      by destruct (bool_decide _).
    + unfold IntVectorComponent_read.
      rewrite (vector_read_tokens name_ optional_ length_ pre ws0 post items c
                 Hitems Hws0 Hsize
                 (fun dl s => convert_int s name_ section_name dl optional_)
                 v_int_vector (int_default_value data_) values (Z.of_nat (length items)));
        [|done|lia|lia|by left|].
      * rewrite Nat2Z.id, Nat.sub_diag. simpl. unfold bind, ret, add, container_add.
        by rewrite app_nil_r.
      * eapply Forall2_impl; [exact Hvalues|]. intros item v Hv. simpl.
        by apply convert_whole.
  - destruct Hcases as [->|Hne].
    + apply Forall2_nil_inv_l in Hvalues as ->. simpl in *.
      unfold RealVectorComponent_read.
      rewrite (bind_returns _ _ _ _ _ _ _ (visit_length_resolves _ _ _ _ Hres)).
      unfold bind, new_vector, ret, condline_tellg, tellg, good, condline_str. simpl.
      by destruct (bool_decide _).
    + unfold RealVectorComponent_read.
      rewrite (vector_read_tokens name_ optional_ length_ pre ws0 post items c
                 Hitems Hws0 Hsize
                 (fun dl s => convert_double s name_ section_name dl optional_)
                 v_real_vector (real_default_value data_) values (Z.of_nat (length items)));
        [|done|lia|lia|by left|].
      * rewrite Nat2Z.id, Nat.sub_diag. simpl. unfold bind, ret, add, container_add.
        by rewrite app_nil_r.
      * eapply Forall2_impl; [exact Hvalues|]. intros item v Hv. simpl.
        by apply convert_whole.
Qed.

Lemma read_slots_white_space {T} (convert : string -> result T) optional_ position d slots
    ss (c : gmap string value) e :
  eofbit ss = false -> failbit ss = false ->
  all_chars isspace (drop (gptr ss) (buf ss)) = true ->
  convert "" = Throw e ->
  read_slots convert optional_ position (d :: slots) ss c
  = (if optional_ then Return (d :: slots) else Throw e,
     mk_stream (buf ss) (String.length (buf ss)) true true, c).
Proof.
  intros He Hf Hws Hconv.
  cbn [read_slots]. unfold bind at 1, condline_extract.
  rewrite (extract_blank "" ss He Hf Hws).
  destruct optional_; [done|]. simpl. unfold bind, lift. by rewrite Hconv.
Qed.

Lemma convert_int_empty name_ section_name n optional_ :
  convert_int "" name_ section_name n optional_
  = Throw (if optional_ then invalid_value_error "" name_ section_name
           else missing_value_error name_ section_name n).
Proof. by destruct optional_. Qed.

Lemma convert_double_empty name_ section_name n optional_ :
  stod "" = invalid_argument ->
  convert_double "" name_ section_name n optional_
  = Throw (if optional_ then invalid_value_error "" name_ section_name
           else missing_value_error name_ section_name n).
Proof.
  intros H. unfold convert_double, convert_and_validate_string_to_number. rewrite H.
  by destruct optional_.
Qed.

(** X14. A vector in front of fewer tokens than its length resolves to,
    with nothing but white space after them.  The tokens there are read in
    order and leave the text; the extraction for the next slot finds no
    token and leaves the stream failed at the end of the text.  A
    mandatory vector then throws the missing-value error that says how
    many values the vector expects, and the container is as it was.  An
    optional vector leaves the loop and stores the values it has read
    followed by the declared default in every slot that is left. *)
Theorem X14_vector_with_too_few_tokens
    (name_ section_name : string) (optional_ : bool) (length_ : length_variant)
    (pre ws0 post : string) (items : list (string * string))
    (c : gmap string value) (n : Z) :
  Forall spaced_token items ->
  all_chars isspace ws0 = true ->
  all_chars isspace post = true ->
  post <> "" ->
  size (pre +:+ ws0 +:+ tokens_text items post) <= max_size ->
  resolves length_ c n ->
  Z.of_nat (length items) < n ->
  let before :=
    mk_stream (pre +:+ ws0 +:+ tokens_text items post) (String.length pre) false false in
  let failed :=
    mk_stream (pre +:+ ws0 +:+ gaps_text items post)
      (String.length (pre +:+ ws0 +:+ gaps_text items post)) true true in
  (forall (data_ : IntComponentData) (values : list Z),
     Forall2 (fun item v => stoi item.1 = Converted v (String.length item.1)) items values ->
     read section_name (IntVectorComponent name_ optional_ length_ data_) before c
     = if optional_
       then (Return (), failed,
             <[name_ := v_int_vector
                          (values ++ replicate (Z.to_nat n - length items)
                                       (int_default_value data_))]> c)
       else (Throw (missing_value_error name_ section_name n), failed, c))
  /\ (forall (data_ : RealComponentData) (values : list double),
        Forall2 (fun item v => stod item.1 = Converted v (String.length item.1))
          items values ->
        stod "" = invalid_argument ->
        read section_name (RealVectorComponent name_ optional_ length_ data_) before c
        = if optional_
          then (Return (), failed,
                <[name_ := v_real_vector
                             (values ++ replicate (Z.to_nat n - length items)
                                          (real_default_value data_))]> c)
          else (Throw (missing_value_error name_ section_name n), failed, c)).
Proof.
  intros Hitems Hws0 Hpost Hne Hsize Hres Hlen. cbv zeta.
  assert (Hrest : exists m, (Z.to_nat n - length items = S m)%nat).
  { exists (Z.to_nat n - length items - 1)%nat. lia. }
  destruct Hrest as [m Hm].
  assert (Hblank :
    all_chars isspace
      (drop (String.length pre) (pre +:+ ws0 +:+ gaps_text items post)) = true).
  { rewrite drop_append, all_chars_append, Hws0. by rewrite all_chars_gaps_text. }
  assert (Hne' : items <> [] \/ ws0 +:+ post <> "").
  { right. destruct ws0; [done|]. by rewrite append_cons. }
  split; intros data_ values Hvalues; simpl.
  - unfold IntVectorComponent_read.
    rewrite (vector_read_tokens name_ optional_ length_ pre ws0 post items c
               Hitems Hws0 Hsize
               (fun dl s => convert_int s name_ section_name dl optional_)
               v_int_vector (int_default_value data_) values n);
      [|done|lia|lia|done|].
    + rewrite Hm. cbn [replicate]. unfold bind at 1.
      rewrite (read_slots_white_space _ optional_ _ _ _
                 (mk_stream (pre +:+ ws0 +:+ gaps_text items post) (String.length pre)
                    false false) c _ eq_refl eq_refl Hblank
                 (convert_int_empty name_ section_name n optional_)).
      by destruct optional_.
    + eapply Forall2_impl; [exact Hvalues|]. intros item v Hv. simpl.
      by apply convert_whole.
  - intros Hstod. unfold RealVectorComponent_read.
    rewrite (vector_read_tokens name_ optional_ length_ pre ws0 post items c
               Hitems Hws0 Hsize
               (fun dl s => convert_double s name_ section_name dl optional_)
               v_real_vector (real_default_value data_) values n);
      [|done|lia|lia|done|].
    + rewrite Hm. cbn [replicate]. unfold bind at 1.
      rewrite (read_slots_white_space _ optional_ _ _ _
                 (mk_stream (pre +:+ ws0 +:+ gaps_text items post) (String.length pre)
                    false false) c _ eq_refl eq_refl Hblank
                 (convert_double_empty name_ section_name n optional_ Hstod)).
      by destruct optional_.
    + eapply Forall2_impl; [exact Hvalues|]. intros item v Hv. simpl.
      by apply convert_whole.
Qed.

Lemma vector_read_stores {T} (convert : Z -> string -> result T) (wrap : list T -> value)
    name_ optional_ length_ (d : T) ss c u ss' c' :
  (dynamic_length <- visit_length length_ ;;
   nnumbers <- new_vector dynamic_length d ;;
   position <- condline_tellg ;;
   s <- condline_str ;;
   nnumbers <-
     (if bool_decide (size_t position <> size s) then
        read_slots (convert dynamic_length) optional_ position nnumbers
      else ret nnumbers) ;;
   add name_ (wrap nnumbers)) ss c = (Return u, ss', c') ->
  exists n l,
    resolves length_ c n /\ 0 <= n /\ Z.of_nat (length l) = n
    /\ c' = <[name_ := wrap l]> c.
Proof.
  unfold bind at 1.
  destruct (visit_length length_ ss c) as [[[n|e] ss1] c1] eqn:Hvisit; [|done].
  apply visit_length_inv in Hvisit as (-> & -> & Hres). specialize (Hres n eq_refl).
  unfold bind at 1, new_vector. destruct (Z.ltb_spec n 0) as [|Hn]; [done|].
  unfold ret. unfold bind at 1, condline_tellg. destruct (tellg ss) as [position ss2].
  unfold bind at 1, condline_str. unfold bind.
  destruct (bool_decide (size_t position <> size (str ss2))).
  - destruct (read_slots (convert n) optional_ position _ ss2 c) as [[[l|e] ss3] c3] eqn:E;
      [|done].
    pose proof (read_slots_length _ _ _ _ _ _ _ _ _ E) as Hl.
    rewrite length_replicate in Hl.
    assert (c3 = c) as ->.
    { pose proof (untouched_read_slots (convert n) optional_ position
                    (replicate (Z.to_nat n) d) ss2 c) as Hu.
      by rewrite E in Hu. }
    intros [= _ _ <-]. exists n, l. split; [done|]. split; [done|]. split; [lia|done].
  - intros [= _ _ <-]. exists n, (replicate (Z.to_nat n) d).
    split; [done|]. split; [done|]. split; [rewrite length_replicate; lia|done].
Qed.

(** X15. A vector that returns has stored a sequence of exactly the length
    it resolved to, whatever the text held: each slot is filled from a
    token or keeps the declared default, and no slot is added or
    dropped.  Every other entry of the container is as it was. *)
Theorem X15_vector_stores_full_length
    (name_ section_name : string) (optional_ : bool) (length_ : length_variant)
    (ss ss' : stringstream) (c c' : gmap string value) :
  (forall data_ : IntComponentData,
     read section_name (IntVectorComponent name_ optional_ length_ data_) ss c
     = (Return (), ss', c') ->
     exists n l,
       resolves length_ c n /\ 0 <= n /\ Z.of_nat (length l) = n
       /\ c' = <[name_ := v_int_vector l]> c)
  /\ (forall data_ : RealComponentData,
        read section_name (RealVectorComponent name_ optional_ length_ data_) ss c
        = (Return (), ss', c') ->
        exists n l,
          resolves length_ c n /\ 0 <= n /\ Z.of_nat (length l) = n
          /\ c' = <[name_ := v_real_vector l]> c).
Proof.
  split; intros data_ H; simpl in H.
  - exact (vector_read_stores
             (fun dl s => convert_int s name_ section_name dl optional_) v_int_vector
             name_ optional_ length_ (int_default_value data_) ss c () ss' c' H).
  - exact (vector_read_stores
             (fun dl s => convert_double s name_ section_name dl optional_) v_real_vector
             name_ optional_ length_ (real_default_value data_) ss c () ss' c' H).
Qed.

(** X16. The length of a vector is resolved before anything is read.  A
    negative length throws [std::length_error] from the construction of
    the vector, and a length function that throws lets its exception
    through.  In either case the stream and the container are as they
    were. *)
Theorem X16_vector_length_errors
    (name_ section_name : string) (optional_ : bool)
    (ss : stringstream) (c : gmap string value) :
  (forall length_ n (data_ : IntComponentData) (rdata_ : RealComponentData),
     resolves length_ c n -> n < 0 ->
     read section_name (IntVectorComponent name_ optional_ length_ data_) ss c
     = (Throw std_length_error, ss, c)
     /\ read section_name (RealVectorComponent name_ optional_ length_ rdata_) ss c
        = (Throw std_length_error, ss, c))
  /\ (forall f e (data_ : IntComponentData) (rdata_ : RealComponentData),
        f c = Throw e ->
        read section_name (IntVectorComponent name_ optional_ (length_from f) data_) ss c
        = (Throw e, ss, c)
        /\ read section_name (RealVectorComponent name_ optional_ (length_from f) rdata_) ss c
           = (Throw e, ss, c)).
Proof.
  split.
  - intros length_ n data_ rdata_ Hres Hn. simpl.
    unfold IntVectorComponent_read, RealVectorComponent_read.
    rewrite !(bind_returns _ _ _ _ _ _ _ (visit_length_resolves _ _ _ _ Hres)).
    unfold bind, new_vector. by destruct (Z.ltb_spec n 0); [|lia].
  - intros f e data_ rdata_ Hf. simpl.
    unfold IntVectorComponent_read, RealVectorComponent_read.
    unfold bind, visit_length, bind, get_container, lift. by rewrite Hf.
Qed.

(** X17. At the end of the text a value field reads nothing and fails
    nothing, mandatory or not: an Int and a Real store their declared
    default, a vector stores its resolved length in copies of the default,
    and the stream is as it was. *)
Theorem X17_value_field_at_end_of_text
    (name_ section_name : string) (ss : stringstream) (c : gmap string value) :
  eofbit ss = false -> failbit ss = false ->
  gptr ss = String.length (buf ss) ->
  size (buf ss) <= max_size ->
  (forall data_ : IntComponentData,
     read section_name (IntComponent name_ data_) ss c
     = (Return (), ss, <[name_ := v_int (int_default_value data_)]> c))
  /\ (forall data_ : RealComponentData,
        read section_name (RealComponent name_ data_) ss c
        = (Return (), ss, <[name_ := v_real (real_default_value data_)]> c))
  /\ (forall optional_ length_ n (data_ : IntComponentData),
        resolves length_ c n -> 0 <= n ->
        read section_name (IntVectorComponent name_ optional_ length_ data_) ss c
        = (Return (), ss,
           <[name_ := v_int_vector (replicate (Z.to_nat n) (int_default_value data_))]> c))
  /\ (forall optional_ length_ n (data_ : RealComponentData),
        resolves length_ c n -> 0 <= n ->
        read section_name (RealVectorComponent name_ optional_ length_ data_) ss c
        = (Return (), ss,
           <[name_ := v_real_vector (replicate (Z.to_nat n) (real_default_value data_))]> c)).
Proof.
  intros He Hf Hpos Hsize. pose proof (position_at_end ss Hpos Hsize) as Hend.
  split; [|split; [|split]].
  - intros data_. simpl. unfold IntComponent_read, bind, condline_tellg, condline_str, str.
    rewrite (tellg_good _ He Hf). by rewrite bool_decide_eq_false_2 by tauto.
  - intros data_. simpl. unfold RealComponent_read, bind, condline_tellg, condline_str, str.
    rewrite (tellg_good _ He Hf). by rewrite bool_decide_eq_false_2 by tauto.
  - intros optional_ length_ n data_ Hres Hn. simpl. unfold IntVectorComponent_read.
    rewrite (bind_returns _ _ _ _ _ _ _ (visit_length_resolves _ _ _ _ Hres)).
    unfold bind, new_vector, condline_tellg, condline_str, str.
    destruct (Z.ltb_spec n 0); [lia|]. unfold ret.
    rewrite (tellg_good _ He Hf). by rewrite bool_decide_eq_false_2 by tauto.
  - intros optional_ length_ n data_ Hres Hn. simpl. unfold RealVectorComponent_read.
    rewrite (bind_returns _ _ _ _ _ _ _ (visit_length_resolves _ _ _ _ Hres)).
    unfold bind, new_vector, condline_tellg, condline_str, str.
    destruct (Z.ltb_spec n 0); [lia|]. unfold ret.
    rewrite (tellg_good _ He Hf). by rewrite bool_decide_eq_false_2 by tauto.
Qed.

(** *** Labels, once more *)

(** X18. A Selection one of whose labels occurs takes that label out of
    the text, as a Separator does: the label is the first in declaration
    order that occurs between blanks, taken at its first place, the rest
    of the text stays in place, and the payload at the label's index is
    stored.  On a stream that has not failed the get position is then
    where the label began, so that a field declared after the Selection
    reads what follows the label; on a stream that has failed [seekg] is
    refused and the get position is the 0 that replacing the text left. *)
Theorem X18_selection_takes_label_out
    (sel : Selection) (section_name : string)
    (ss : stringstream) (c : gmap string value)
    (i : nat) (label pre post : string) :
  constructed sel ->
  size (buf ss) <= max_size ->
  datfilevalues_ sel !! i = Some label ->
  first_occurrence (" " +:+ label +:+ " ") (buf ss) pre post ->
  (forall j label', (j < i)%nat -> datfilevalues_ sel !! j = Some label' ->
     ~ occurs (" " +:+ label' +:+ " ") (buf ss)) ->
  exists v,
    payload_at sel i = Some v /\
    read section_name (SelectionComponent sel) ss c
    = (Return (),
       if failbit ss
       then mk_stream (pre +:+ " " +:+ " " +:+ post) 0 false true
       else mk_stream (pre +:+ " " +:+ " " +:+ post) (String.length pre + 1) false false,
       <[sel_name sel := v]> c).
Proof.
  intros Hc Hsize Hi Hfirst Hmin.
  destruct (SelectionComponent_read_found sel section_name ss c i label pre post
              Hc Hsize Hi Hfirst Hmin) as (v & Hv & Hread).
  exists v. split; [done|]. simpl. by rewrite Hread, seekg_label.
Qed.

Lemma choice_at_lookup_inv choices key choice :
  choice_at choices key = Some choice -> exists i, choices !! i = Some (key, choice).
Proof.
  induction choices as [|[k ch] choices IH]; [done|]. rewrite choice_at_cons.
  destruct (bool_decide_reflect (k = key)) as [->|Hne].
  - intros [= ->]. by exists 0%nat.
  - intros H. destruct (IH H) as [i Hi]. by exists (S i).
Qed.

Lemma read_switch_key section_name name default_key choices sel ss c ss1 key label components :
  sel_name sel = name ->
  SelectionComponent_read sel section_name ss c
  = (Return (), ss1, <[name := v_int key]> c) ->
  choice_at choices key = Some (label, components) ->
  read section_name (SwitchComponent name default_key choices sel) ss c
  = read_all section_name components ss1 (<[name := v_int key]> c).
Proof.
  intros Hname Hread Hch. rewrite read_SwitchComponent.
  unfold SwitchComponent_read, bind at 1. rewrite Hread.
  unfold bind, get_container, lift, container_get_int.
  by rewrite Hname, lookup_insert_eq, Hch.
Qed.

(** X19. A Switch none of whose labels occurs in the text reads the
    components of its default key: with distinct labels, the embedded
    Selection stores the default key under the Switch's name, and the
    call goes on with the default key's components.  The Selection's
    erase for an absent label has by then removed as many characters as
    the default label has from the front of the text and rewound the get
    position. *)
Theorem X19_switch_without_label_reads_default
    (name : string) (default_key : Z)
    (choices : list (Z * (string * list LineComponent)))
    (label : string) (components : list LineComponent)
    (sw : LineComponent) (section_name : string)
    (ss : stringstream) (c : gmap string value) :
  SwitchComponent_new name default_key choices = Return sw ->
  is_map choices ->
  NoDup (map (fun kc => kc.2.1) choices) ->
  choice_at choices default_key = Some (label, components) ->
  (forall kc, kc ∈ choices -> ~ occurs (" " +:+ kc.2.1 +:+ " ") (buf ss)) ->
  read section_name sw ss c
  = read_all section_name components
      (mk_stream (drop (String.length label) (buf ss)) 0 false (failbit ss))
      (<[name := v_int default_key]> c).
Proof.
  intros Hnew Hmap Hnodup Hch Habs.
  rewrite (SwitchComponent_new_present _ _ _ _ _ Hmap Hch) in Hnew. injection Hnew as <-.
  set (sel := switch_selection name label choices).
  assert (Hc : constructed sel).
  { right. exists name, label, (map (fun kc => kc.2.1) choices), (map fst choices).
    by eapply switch_selection_constructed. }
  destruct (SelectionComponent_read_absent sel section_name ss c Hc) as (v & Hv & Hread).
  { intros l Hl. simpl in Hl. apply list_elem_of_fmap in Hl as (kc & -> & Hkc). by apply Habs. }
  destruct (choice_at_lookup_inv _ _ _ Hch) as [i Hi].
  assert (Hidx : index_of label (map (fun kc => kc.2.1) choices) = i).
  { assert (Hl : map (fun kc => kc.2.1) choices !! i = Some label)
      by (by rewrite list_lookup_fmap, Hi).
    destruct (index_of_le _ _ _ Hl) as [_ Hl']. by eapply NoDup_lookup. }
  simpl in Hv. unfold payload_at in Hv. simpl in Hv.
  rewrite Hidx, list_lookup_fmap, Hi in Hv. injection Hv as <-.
  by apply (read_switch_key section_name name default_key choices sel ss c _
              default_key label components).
Qed.

(** *** The default line of a Switch *)

Lemma default_line_SwitchComponent ostream_double n k choices sel :
  default_line ostream_double (SwitchComponent n k choices sel)
  = defaultvalue_ sel +:+ " " +:+
    match choice_at choices k with
    | Some (_, components) => render_fields ostream_double components
    | None => ""
    end.
Proof.
  cbn [default_line]. do 2 f_equal.
  induction choices as [|[k' [lbl comps]] choices IH]; [done|].
  rewrite choice_at_cons. destruct (bool_decide (k' = k)); [|exact IH].
  clear. induction comps as [|comp comps IH]; [done|].
  cbn [render_fields]. by rewrite IH.
Qed.

(** X20. The default line of a Switch reads back.  The line is the default
    key's label, a blank, and the default text of each component of the
    default key followed by a blank.  Put after a blank and read by the
    Switch, with a label that starts with a character other than a blank,
    no label of an earlier key in the line, and components of the kinds
    whose default text reads back, the call returns: the Switch's name
    holds the default key, every value field of the default key's list
    holds its declared default, and nothing but white space is left. *)
Theorem X20_switch_default_line_reads_back
    (ostream_double : double -> string)
    (name : string) (default_key : Z)
    (choices : list (Z * (string * list LineComponent)))
    (i : nat) (label : string) (components : list LineComponent)
    (sw : LineComponent) (section_name : string) (c : gmap string value) :
  SwitchComponent_new name default_key choices = Return sw ->
  is_map choices ->
  choices !! i = Some (default_key, (label, components)) ->
  head_not_blank label ->
  Forall reads_back components ->
  size (" " +:+ default_line ostream_double sw) <= max_size ->
  (forall j kc, (j < i)%nat -> choices !! j = Some kc ->
     ~ occurs (" " +:+ kc.2.1 +:+ " ") (" " +:+ default_line ostream_double sw)) ->
  exists ss',
    read section_name sw (mk_stream (" " +:+ default_line ostream_double sw) 0 false false) c
    = (Return (), ss', store_defaults components (<[name := v_int default_key]> c))
    /\ all_chars isspace (buf ss') = true.
Proof.
  intros Hnew Hmap Hi Hhead Hrb Hsize Hmin.
  pose proof (choice_at_lookup _ _ _ _ Hmap Hi) as Hch.
  rewrite (SwitchComponent_new_present _ _ _ _ _ Hmap Hch) in Hnew. injection Hnew as <-.
  rewrite default_line_SwitchComponent, Hch in *.
  change (defaultvalue_ (switch_selection name label choices)) with label in *.
  set (sel := switch_selection name label choices) in *.
  assert (Hc : constructed sel).
  { right. exists name, label, (map (fun kc => kc.2.1) choices), (map fst choices).
    by eapply switch_selection_constructed. }
  set (rest := render_fields ostream_double components) in *.
  pose proof (first_occurrence_after_blanks 0 label rest Hhead) as Hfirst.
  change (blank 1 +:+ label +:+ " " +:+ rest) with (" " +:+ label +:+ " " +:+ rest) in Hfirst.
  destruct (SelectionComponent_read_found sel section_name
              (mk_stream (" " +:+ label +:+ " " +:+ rest) 0 false false) c
              i label (blank 0) rest Hc) as (v & Hv & Hread).
  { exact Hsize. }
  { simpl. by rewrite list_lookup_fmap, Hi. }
  { exact Hfirst. }
  { intros j l Hj Hl. simpl in Hl. rewrite list_lookup_fmap in Hl.
    destruct (choices !! j) as [kc|] eqn:Hkc; [|done]. injection Hl as <-.
    by apply (Hmin j kc). }
  unfold payload_at in Hv. simpl in Hv. rewrite list_lookup_fmap, Hi in Hv.
  injection Hv as <-.
  assert (Hstream :
    seekg (size (blank 0) + 1)
      (set_str (blank 0 +:+ " " +:+ " " +:+ rest)
         (mk_stream (" " +:+ label +:+ " " +:+ rest) 0 false false))
    = line 1 1 rest).
  { assert (Hle : (1 <=? size (blank 0 +:+ " " +:+ " " +:+ rest)) = true).
    { apply Z.leb_le. unfold size. simpl. lia. }
    unfold seekg, set_str, clear_eof, line. cbn [failbit buf gptr eofbit].
    change (size (blank 0) + 1) with 1. by rewrite Hle. }
  rewrite Hstream in Hread.
  destruct (read_all_rendered ostream_double section_name components Hrb 1%nat 1%nat
              (<[name := v_int default_key]> c) ltac:(lia)) as (k' & g' & Hall).
  { fold rest. clear -Hsize. unfold size in *. rewrite ?length_append in *.
    simpl in *. rewrite ?length_append in *. simpl in *. lia. }
  exists (line k' g' ""). split.
  - rewrite (read_switch_key section_name name default_key choices sel _ c _
               default_key label components eq_refl Hread Hch).
    exact Hall.
  - unfold line. cbn [buf]. rewrite append_nil_r. apply blank_is_space.
Qed.

(** *** [describe] *)

Lemma length_fill n a : String.length (fill n a) = n.
Proof. induction n as [|n IH]; simpl; auto. Qed.

Lemma length_setw_left w s :
  String.length (setw_left w s) = Nat.max w (String.length s).
Proof. unfold setw_left. rewrite length_append, length_fill. lia. Qed.

Lemma drop_length_append s t n :
  n = String.length s -> drop n (s +:+ t) = t.
Proof. intros ->. apply drop_append. Qed.

(** X21. The columns of a Separator's description: four blanks, the label
    in a column of fifteen characters, the marker "(optional)" or nothing
    in a second column of fifteen, then the description.  A label of up
    to fifteen characters leaves the description at offset 34; a longer
    label is written whole and moves the two columns after it by its
    excess. *)
Theorem X21_describe_columns (optional_ : bool) (separator_ description_ : string) :
  let text := SeparatorComponent_describe optional_ separator_ description_ in
  let width := Nat.max 15 (String.length separator_) in
  take 4 text = "    "
  /\ take (String.length separator_) (drop 4 text) = separator_
  /\ all_chars isspace
       (take (width - String.length separator_) (drop (4 + String.length separator_) text))
     = true
  /\ take 15 (drop (4 + width) text)
     = (if optional_ then "(optional)     " else "               ")
  /\ drop (4 + width + 15) text = description_
  /\ String.length text = (4 + width + 15 + String.length description_)%nat.
Proof.
  cbv zeta. unfold SeparatorComponent_describe.
  set (marker := setw_left 15 (if optional_ then "(optional)" else "")).
  assert (Hmarker : marker = if optional_ then "(optional)     " else "               ")
    by (by destruct optional_).
  assert (Hlen : String.length marker = 15%nat) by (by destruct optional_).
  split; [done|]. split.
  { change (drop 4 ("    " +:+ ?t)) with t. unfold setw_left.
    rewrite append_assoc. apply take_append. }
  split.
  { rewrite <- drop_drop. change (drop 4 ("    " +:+ ?t)) with t. unfold setw_left.
    rewrite append_assoc, drop_append.
    replace (Nat.max 15 (String.length separator_) - String.length separator_)%nat
      with (String.length (fill (15 - String.length separator_) " "))
      by (rewrite length_fill; lia).
    rewrite take_append.
    generalize (15 - String.length separator_)%nat. intros n.
    induction n as [|n IH]; [done|exact IH]. }
  split.
  { rewrite <- drop_drop. change (drop 4 ("    " +:+ ?t)) with t.
    rewrite (drop_length_append (setw_left 15 separator_))
      by (by rewrite length_setw_left).
    rewrite <- Hlen at 1. rewrite take_append. exact Hmarker. }
  split.
  { rewrite <- !drop_drop. change (drop 4 ("    " +:+ ?t)) with t.
    rewrite (drop_length_append (setw_left 15 separator_))
      by (by rewrite length_setw_left).
    by rewrite (drop_length_append marker). }
  rewrite !length_append, length_setw_left, Hlen. simpl. lia.
Qed.

(** *** The default line of a real vector *)

Lemma bind_throws {A B} (m : M A) (k : A -> M B) ss c e ss' c' :
  m ss c = (Throw e, ss', c') -> bind m k ss c = (Throw e, ss', c').
Proof. intros H. unfold bind. by rewrite H. Qed.

Lemma read_slots_cons {T} (convert : string -> result T) optional_ position d slots :
  read_slots convert optional_ position (d :: slots)
  = (snumber <- condline_extract "" ;;
     if (optional_ && bool_decide (snumber = ""))%bool
     then ret (d :: slots)
     else
       number <- lift (convert snumber) ;;
       erase_extracted snumber ;;;
       condline_seekg position ;;;
       rest <- read_slots convert optional_ position slots ;;
       ret (number :: rest)).
Proof. reflexivity. Qed.

Lemma stream_times_token m tok :
  is_token tok -> is_token (String.concat "" (replicate (S m) tok)).
Proof.
  intros [Hne Hall]. induction m as [|m IH].
  { simpl. by split. }
  rewrite stream_times_S. destruct IH as [IH1 IH2]. split.
  - destruct tok; [done|]. by rewrite append_cons.
  - by rewrite all_chars_append, Hall, IH2.
Qed.

(** X22. The default line of a real vector does not read back.  The line
    of a vector of constant length writes the default once per slot with
    nothing in between (the int vector puts a blank after each), so the
    slots' texts run into one token.  A mandatory real vector of two or
    more slots that reads its own default line, put between two blanks,
    throws, whatever the library prints and converts, as long as the
    printed default is a token and [stod] rejects the empty string:
    either the run-together token does not convert, or it fills the first
    slot and the second finds no token. *)
Theorem X22_real_vector_default_line_does_not_read_back
    (ostream_double : double -> string)
    (name_ section_name : string) (n : Z) (data_ : RealComponentData)
    (c : gmap string value) :
  2 <= n ->
  is_token (ostream_double (real_default_value data_)) ->
  stod "" = invalid_argument ->
  let component := RealVectorComponent name_ false (length_int n) data_ in
  size (" " +:+ default_line ostream_double component +:+ " ") <= max_size ->
  exists e ss',
    read section_name component
      (mk_stream (" " +:+ default_line ostream_double component +:+ " ") 0 false false) c
    = (Throw e, ss', c).
Proof.
  intros Hn Htok Hstod. cbv zeta. cbn [default_line DefaultLengthVisitor].
  unfold stream_times.
  destruct (Z.to_nat n) as [|[|m]] eqn:Hm; [lia|lia|].
  set (tok := ostream_double (real_default_value data_)) in *.
  set (T := String.concat "" (replicate (S (S m)) tok)).
  intros Hsize.
  pose proof (stream_times_token (S m) tok Htok) as HT. fold T in HT.
  destruct (token_protocol "" "" " " T " "%char "" c eq_refl HT eq_refl Hsize)
    as (Htell & Hremains & Hextract & Herase & Hseek).
  cbn [read]. unfold RealVectorComponent_read.
  rewrite (bind_returns (visit_length (length_int n)) _ _ _ _ _ _ eq_refl).
  unfold new_vector. destruct (Z.ltb_spec n 0); [lia|].
  rewrite (bind_returns (ret _) _ _ _ _ _ _ eq_refl).
  rewrite Hm. cbn [replicate].
  change (" " +:+ T +:+ " ") with ("" +:+ " " +:+ T +:+ String " " "").
  returns Htell.
  rewrite (bind_returns condline_str _ _ _ _ _ _ eq_refl).
  rewrite bool_decide_eq_true_2 by exact Hremains.
  rewrite read_slots_cons. unfold bind at 1. returns Hextract.
  rewrite (bool_decide_eq_false_2 (T = "")) by (by destruct HT).
  cbn [andb].
  destruct (convert_double T name_ section_name n false) as [number|e] eqn:Hconv.
  - rewrite (bind_returns (lift (Return number)) _ _ _ _ _ _ eq_refl).
    returns Herase. returns Hseek.
    pose proof (read_slots_white_space
                  (fun snumber => convert_double snumber name_ section_name n false)
                  false (Z.of_nat (String.length "")) (real_default_value data_)
                  (replicate m (real_default_value data_))
                  (mk_stream ("" +:+ " " +:+ String " " "") (String.length "") false false) c
                  _ eq_refl eq_refl eq_refl
                  (convert_double_empty name_ section_name n false Hstod)) as Hrest.
    cbv iota in Hrest.
    rewrite (bind_throws _ _ _ _ _ _ _ Hrest).
    by eexists _, _.
  - by eexists _, _.
Qed.

(** *** The last token of the text *)

Lemma extract_token_at_end old pre ws tok :
  all_chars isspace ws = true -> is_token tok ->
  extract old (mk_stream (pre +:+ ws +:+ tok) (String.length pre) false false)
  = (tok,
     mk_stream (pre +:+ ws +:+ tok) (String.length (pre +:+ ws +:+ tok)) true false).
Proof.
  intros Hws Htok. unfold extract, good. cbn [eofbit failbit buf gptr negb andb].
  rewrite drop_append.
  pose proof (span_length_space_token ws tok "" Hws Htok) as Hspan.
  rewrite append_nil_r in Hspan. rewrite Hspan, drop_append.
  pose proof (span_length_whole _ _ (proj2 Htok)) as Hn.
  assert (Htake : take (String.length tok) tok = tok).
  { rewrite <- (append_nil_r tok) at 2. apply take_append. }
  assert (Hlen : (String.length pre + String.length ws + String.length tok
                  = String.length (pre +:+ ws +:+ tok))%nat)
    by (rewrite !length_append; lia).
  destruct Htok as [Hne _].
  destruct tok as [|a r]; [done|].
  by rewrite Hn, Htake, Hlen, Nat.eqb_refl.
Qed.

Lemma erase_extracted_at_end token b g (c : gmap string value) :
  size b <= max_size -> size token <= max_size ->
  erase_extracted token (mk_stream b g true false) c
  = (Throw std_out_of_range, mk_stream b g true true, c).
Proof.
  intros Hb Htok. unfold max_size in *.
  assert (0 <= size b /\ 0 <= size token) as [? ?] by (unfold size; lia).
  unfold erase_extracted, bind, condline_tellg, tellg, good, condline_str, str.
  cbn [eofbit failbit buf negb andb].
  unfold setstate_fail. cbn [buf gptr eofbit].
  change (size_t (-1)) with (2 ^ 64 - 1).
  rewrite size_t_small by (unfold size_max; lia).
  unfold string_erase, erase.
  destruct (Z.ltb_spec (size b) (2 ^ 64 - 1 - size token)); [done|lia].
Qed.

Lemma token_at_end old pre ws tok (c : gmap string value) :
  all_chars isspace ws = true -> is_token tok ->
  size (pre +:+ ws +:+ tok) <= max_size ->
  let text := pre +:+ ws +:+ tok in
  let ss := mk_stream text (String.length pre) false false in
  condline_tellg ss c = (Return (Z.of_nat (String.length pre)), ss, c)
  /\ size_t (Z.of_nat (String.length pre)) <> size text
  /\ condline_extract old ss c
     = (Return tok, mk_stream text (String.length text) true false, c)
  /\ erase_extracted tok (mk_stream text (String.length text) true false) c
     = (Throw std_out_of_range, mk_stream text (String.length text) true true, c).
Proof.
  intros Hws Htok Hsize. cbv zeta. split; [done|]. split.
  { rewrite <- (append_nil_r tok). apply token_remains; [done|].
    by rewrite append_nil_r. }
  split.
  { unfold condline_extract. by rewrite extract_token_at_end. }
  apply erase_extracted_at_end; [done|].
  unfold size in *. rewrite !length_append in Hsize. lia.
Qed.

(** X23. A token that ends the text, with no white-space character after
    it, cannot be taken: the extraction reads it and sets [eofbit], the
    [tellg] that is to locate it in the text then fails and reports -1,
    and the [erase] at that position throws [std::out_of_range].  So an
    Int, a Real or a String in front of such a token throws, although the
    token converts, with the stream failed at the end of an unchanged text
    and the container as it was: the last value of a line is read only
    when white space follows it. *)
Theorem X23_last_token_needs_white_space
    (name_ section_name pre ws tok : string) (c : gmap string value) :
  all_chars isspace ws = true -> is_token tok ->
  size (pre +:+ ws +:+ tok) <= max_size ->
  let before := mk_stream (pre +:+ ws +:+ tok) (String.length pre) false false in
  let failed :=
    mk_stream (pre +:+ ws +:+ tok) (String.length (pre +:+ ws +:+ tok)) true true in
  (forall (data_ : IntComponentData) (number : Z),
     stoi tok = Converted number (String.length tok) ->
     read section_name (IntComponent name_ data_) before c
     = (Throw std_out_of_range, failed, c))
  /\ (forall (data_ : RealComponentData) (number : double),
        stod tok = Converted number (String.length tok) ->
        read section_name (RealComponent name_ data_) before c
        = (Throw std_out_of_range, failed, c))
  /\ (forall optional_ defaultvalue,
        read section_name (StringComponent name_ optional_ defaultvalue) before c
        = (Throw std_out_of_range, failed, c)).
Proof.
  intros Hws Htok Hsize. cbv zeta. split; [|split].
  - intros data_ number Hconv.
    destruct (token_at_end "" pre ws tok c Hws Htok Hsize)
      as (Htell & Hremains & Hextract & Herase).
    simpl. unfold IntComponent_read. returns Htell.
    rewrite (bind_returns condline_str _ _ _ _ _ _ eq_refl).
    rewrite bool_decide_eq_true_2 by exact Hremains.
    returns Hextract.
    rewrite (bool_decide_eq_false_2 (tok = "")) by (by destruct Htok).
    rewrite orb_true_r. unfold convert_int. rewrite (convert_whole _ _ _ _ _ _ _ _ Hconv).
    rewrite (bind_returns (lift (Return number)) _ _ _ _ _ _ eq_refl).
    by rewrite (bind_throws _ _ _ _ _ _ _ Herase).
  - intros data_ number Hconv.
    destruct (token_at_end "" pre ws tok c Hws Htok Hsize)
      as (Htell & Hremains & Hextract & Herase).
    simpl. unfold RealComponent_read. returns Htell.
    rewrite (bind_returns condline_str _ _ _ _ _ _ eq_refl).
    rewrite bool_decide_eq_true_2 by exact Hremains.
    returns Hextract.
    rewrite (bool_decide_eq_false_2 (tok = "")) by (by destruct Htok).
    rewrite andb_false_r. cbn [negb].
    unfold convert_double. rewrite (convert_whole _ _ _ _ _ _ _ _ Hconv).
    rewrite (bind_returns (lift (Return number)) _ _ _ _ _ _ eq_refl).
    by rewrite (bind_throws _ _ _ _ _ _ _ Herase).
  - intros optional_ defaultvalue.
    destruct (token_at_end defaultvalue pre ws tok c Hws Htok Hsize)
      as (Htell & Hremains & Hextract & Herase).
    simpl. unfold StringComponent_read. returns Htell.
    rewrite (bind_returns condline_str _ _ _ _ _ _ eq_refl).
    rewrite bool_decide_eq_true_2 by exact Hremains.
    returns Hextract. rewrite bool_decide_eq_false_2 by (by destruct Htok).
    by rewrite (bind_throws _ _ _ _ _ _ _ Herase).
Qed.

(** ** The get position after a token is taken out

    [at_position p ss]: the stream [ss], if it is good, stands at [p].
    [lands p m]: the call [m], when it returns, leaves such a stream,
    whatever stream it started from; [restores p m]: it does when it
    started from one; [passes m]: it returns the stream it was given. *)
Definition at_position (p : nat) (ss : stringstream) : Prop :=
  good ss = true -> gptr ss = p.

Definition lands (p : nat) {A} (m : M A) : Prop :=
  forall ss c a ss' c', m ss c = (Return a, ss', c') -> at_position p ss'.

Definition restores (p : nat) {A} (m : M A) : Prop :=
  forall ss c a ss' c', at_position p ss -> m ss c = (Return a, ss', c') -> at_position p ss'.

Definition passes {A} (m : M A) : Prop :=
  forall ss c a ss' c', m ss c = (Return a, ss', c') -> ss' = ss.

(** The fields that read tokens from the get position. *)
Definition reads_tokens (component : LineComponent) : Prop :=
  match component with
  | StringComponent _ _ _ | IntComponent _ _ | IntVectorComponent _ _ _ _
  | RealComponent _ _ | RealVectorComponent _ _ _ _ | BoolComponent _ _ _
  | ProcessedComponent _ _ _ => True
  | SeparatorComponent _ _ _ | SelectionComponent _ | SwitchComponent _ _ _ _ => False
  end.

Create HintDb position.

Lemma lands_restores p {A} (m : M A) : lands p m -> restores p m.
Proof. intros H ss c a ss' c' _ E. by eapply H. Qed.

Lemma passes_restores p {A} (m : M A) : passes m -> restores p m.
Proof. intros H ss c a ss' c' Hp E. by rewrite (H _ _ _ _ _ E). Qed.

Lemma restores_bind p {A B} (m : M A) (k : A -> M B) :
  restores p m -> (forall a, restores p (k a)) -> restores p (bind m k).
Proof.
  intros Hm Hk ss c b ss' c' Hp E. unfold bind in E.
  destruct (m ss c) as [[[a|e] ss1] c1] eqn:E1; [|done].
  eapply Hk; [|exact E]. by eapply Hm.
Qed.

Lemma lands_bind_r p {A B} (m : M A) (k : A -> M B) :
  (forall a, lands p (k a)) -> lands p (bind m k).
Proof.
  intros Hk ss c b ss' c' E. unfold bind in E.
  destruct (m ss c) as [[[a|e] ss1] c1] eqn:E1; [|done]. by eapply Hk.
Qed.

Lemma lands_bind_l p {A B} (m : M A) (k : A -> M B) :
  lands p m -> (forall a, restores p (k a)) -> lands p (bind m k).
Proof.
  intros Hm Hk ss c b ss' c' E. unfold bind in E.
  destruct (m ss c) as [[[a|e] ss1] c1] eqn:E1; [|done].
  eapply Hk; [|exact E]. by eapply Hm.
Qed.

Lemma lands_throw p {A} e : lands p (@throw _ A e).
Proof. by intros ss c a ss' c' E. Qed.

Lemma lands_seekg pos : lands (Z.to_nat pos) (condline_seekg pos).
Proof.
  intros ss c a ss' c' [= _ <- _]. unfold at_position, seekg, clear_eof, good.
  cbn [failbit buf gptr eofbit]. destruct (failbit ss) eqn:Hfail.
  { by cbn [failbit eofbit negb andb]. }
  destruct ((0 <=? pos) && (pos <=? size (buf ss)))%bool; [done|].
  unfold setstate_fail. by cbn [failbit eofbit negb andb].
Qed.

Lemma passes_ret {A} (a : A) : passes (ret a).
Proof. by intros ss c a' ss' c' [= _ <- _]. Qed.

Lemma passes_lift {A} (r : result A) : passes (lift r).
Proof. by intros ss c a' ss' c' [= _ <- _]. Qed.

Lemma passes_add name v : passes (add name v).
Proof. by intros ss c a' ss' c' [= _ <- _]. Qed.

Lemma passes_str : passes condline_str.
Proof. by intros ss c a' ss' c' [= _ <- _]. Qed.

Lemma passes_get_container : passes get_container.
Proof. by intros ss c a' ss' c' [= _ <- _]. Qed.

Lemma passes_new_vector {T} n (x : T) : passes (new_vector n x).
Proof. unfold new_vector. destruct (n <? 0); [done|apply passes_ret]. Qed.

Lemma passes_visit_length length_ : passes (visit_length length_).
Proof.
  destruct length_ as [n|f]; simpl; [apply passes_ret|].
  intros ss c a ss' c'. unfold bind, get_container, lift. by intros [= _ <- _].
Qed.

#[local] Hint Resolve lands_throw lands_seekg passes_ret passes_lift passes_add passes_str
  passes_get_container passes_new_vector passes_visit_length : position.

(** The first character after the white space that [>>] skips is not
    white space, so the token it extracts on a good stream is not empty:
    an empty token means that the extraction has failed. *)
Lemma drop_span_head p s a s' : drop (span_length p s) s = String a s' -> p a = false.
Proof.
  induction s as [|b s IH]; [done|]. simpl.
  destruct (p b) eqn:Hb; simpl; [exact IH|]. by intros [= <- _].
Qed.

Lemma extract_empty old ss tok ss' :
  extract old ss = (tok, ss') -> good ss' = true -> tok <> "".
Proof.
  unfold extract. destruct (good ss) eqn:Hgood.
  - destruct (drop (span_length isspace (drop (gptr ss) (buf ss))) (drop (gptr ss) (buf ss)))
      as [|a rest'] eqn:Hrest.
    + by intros [= _ <-].
    + intros [= <- _] _. apply drop_span_head in Hrest. simpl. by rewrite Hrest.
  - intros [= _ <-]. unfold good, setstate_fail. simpl. by rewrite andb_false_r.
Qed.

Lemma lands_extract p {A} (k : string -> M A) old :
  (forall tok, tok <> "" -> lands p (k tok)) -> (forall tok, restores p (k tok)) ->
  lands p (bind (condline_extract old) k).
Proof.
  intros Htok Hfail ss c a ss' c' E. unfold bind, condline_extract in E.
  destruct (extract old ss) as [tok ss1] eqn:Hextract.
  destruct (good ss1) eqn:Hgood.
  - eapply Htok; [|exact E]. by eapply extract_empty.
  - eapply Hfail; [|exact E]. intros H. congruence.
Qed.

Ltac lands_step :=
  match goal with
  | |- lands _ (if ?b then _ else _) => destruct b
  | |- lands _ (bind (condline_seekg _) _) => apply lands_bind_l; [apply lands_seekg|intros ?]
  | |- lands _ (bind _ _) => apply lands_bind_r; intros ?
  | |- lands _ _ => solve [auto with position]
  end.

Ltac restores_step :=
  match goal with
  | |- restores _ (if ?b then _ else _) => destruct b
  | |- restores _ (bind _ _) =>
      apply restores_bind; [solve [apply passes_restores; auto with position]|intros ?]
  | |- restores _ _ => solve [apply passes_restores; auto with position]
  end.

Lemma restores_read_slots {T} (convert : string -> result T) optional_ position slots :
  restores (Z.to_nat position) (read_slots convert optional_ position slots).
Proof.
  induction slots as [|x slots IH]; simpl; [restores_step|].
  apply lands_restores, lands_extract.
  - intros tok Htok. rewrite bool_decide_eq_false_2, andb_false_r by done.
    do 3 lands_step. apply restores_bind; [exact IH|intros rest]. restores_step.
  - intros tok. destruct (optional_ && bool_decide (tok = ""))%bool; [restores_step|].
    apply lands_restores. do 3 lands_step.
    apply restores_bind; [exact IH|intros rest]. restores_step.
Qed.

(** What a token field does once it has asked for the position. *)
Lemma restores_after_tellg {A} (body : Z -> M A) ss c a ss' c' :
  (forall position, restores (Z.to_nat position) (body position)) ->
  good ss = true ->
  (position <- condline_tellg ;; body position) ss c = (Return a, ss', c') ->
  good ss' = true -> gptr ss' = gptr ss.
Proof.
  intros Hbody Hgood E Hgood'. unfold bind at 1, condline_tellg, tellg in E.
  rewrite Hgood in E.
  apply (Hbody _ ss c a ss' c') in E; [|by intros _; rewrite Nat2Z.id].
  rewrite (E Hgood'). apply Nat2Z.id.
Qed.

(** A field that reads tokens, called on a good stream: when it returns
    and the stream is still good, the get position is where it was. *)
Lemma read_restores_position section_name component ss c ss' c' :
  reads_tokens component -> good ss = true ->
  read section_name component ss c = (Return (), ss', c') ->
  good ss' = true -> gptr ss' = gptr ss.
Proof.
  intros Hcomp Hgood E Hgood'. destruct component; try done; simpl in E.
  - unfold StringComponent_read in E.
    apply (restores_after_tellg _ _ _ _ _ _) in E; [done| |done|done].
    intros position. do 2 restores_step; [|restores_step].
    apply lands_restores. repeat lands_step. restores_step.
  - unfold IntComponent_read in E.
    apply (restores_after_tellg _ _ _ _ _ _) in E; [done| |done|done].
    intros position. do 2 restores_step; [|restores_step].
    apply lands_restores. repeat lands_step. restores_step.
  - unfold IntVectorComponent_read, bind at 1 2 in E.
    destruct (visit_length length_ ss c) as [[[n|e] ss1] c1] eqn:E1; [|done].
    apply passes_visit_length in E1 as ->.
    destruct (new_vector n (int_default_value data_) ss c1) as [[[v|e] ss1] c2] eqn:E2;
      [|done].
    apply passes_new_vector in E2 as ->.
    apply (restores_after_tellg _ _ _ _ _ _) in E; [done| |done|done].
    intros position. restores_step. apply restores_bind; [|intros ?; restores_step].
    destruct (bool_decide _); [apply restores_read_slots|restores_step].
  - unfold RealComponent_read in E.
    apply (restores_after_tellg _ _ _ _ _ _) in E; [done| |done|done].
    intros position. do 2 restores_step; [|restores_step].
    apply lands_restores, lands_extract.
    + intros tok Htok. rewrite bool_decide_eq_false_2, andb_false_r by done.
      cbn [negb]. repeat lands_step. restores_step.
    + intros tok. destruct (negb _); [|restores_step].
      apply lands_restores. repeat lands_step. restores_step.
  - unfold RealVectorComponent_read, bind at 1 2 in E.
    destruct (visit_length length_ ss c) as [[[n|e] ss1] c1] eqn:E1; [|done].
    apply passes_visit_length in E1 as ->.
    destruct (new_vector n (real_default_value data_) ss c1) as [[[v|e] ss1] c2] eqn:E2;
      [|done].
    apply passes_new_vector in E2 as ->.
    apply (restores_after_tellg _ _ _ _ _ _) in E; [done| |done|done].
    intros position. restores_step. apply restores_bind; [|intros ?; restores_step].
    destruct (bool_decide _); [apply restores_read_slots|restores_step].
  - unfold BoolComponent_read in E.
    apply (restores_after_tellg _ _ _ _ _ _) in E; [done| |done|done].
    intros position. do 2 restores_step; [|restores_step].
    apply lands_restores. repeat lands_step. restores_step.
  - unfold ProcessedComponent_read in E.
    apply (restores_after_tellg _ _ _ _ _ _) in E; [done| |done|done].
    intros position. do 2 restores_step; [|restores_step].
    apply lands_restores. repeat lands_step.
    by intros ? ? ? ? ? ? [= _ <- _].
Qed.

(** ** The get position that [tellg] reports *)

Lemma tellg_not_good ss : good ss = false -> tellg ss = (-1, setstate_fail ss).
Proof. intros H. unfold tellg. by rewrite H. Qed.

(** C2. Whatever component reads and whatever stream it starts from, the
    call leaves the stream's get position within [0, length] of the text
    the stream then holds, whether the call returns or throws: every
    replacement of the text rewinds the position, and a seek beyond the
    text is refused.  That position is what [tellg] reports as long as the
    stream is good.  A call that leaves the stream not good, which a call
    that returns can do, makes [tellg] report -1 instead.  A field that
    reads tokens (String, Int, Real, Bool, a vector of numbers, Processed),
    called on a good stream, that returns and leaves the stream good
    leaves [tellg] reporting what it reported before the call: after each
    token is erased the position is set back.  A Selection none of whose
    labels occurs in the text, on a stream that has not failed, returns
    and leaves the stream good with [tellg] reporting 0. *)
Theorem C2_read_keeps_position_in_text
    (section_name : string) (ss : stringstream) (c : gmap string value) :
  (gptr ss <= String.length (buf ss))%nat ->
  (forall component,
     let '(outcome, ss', c') := read section_name component ss c in
     (0 <= gptr ss' <= String.length (buf ss'))%nat
     /\ (good ss' = true -> 0 <= (tellg ss').1 <= size (buf ss'))
     /\ (good ss' = false -> (tellg ss').1 = -1))
  /\ (forall component ss' c',
        reads_tokens component ->
        good ss = true ->
        read section_name component ss c = (Return (), ss', c') ->
        good ss' = true ->
        (tellg ss').1 = (tellg ss).1)
  /\ (forall sel,
        constructed sel ->
        failbit ss = false ->
        (forall label, label ∈ datfilevalues_ sel ->
           ~ occurs (" " +:+ label +:+ " ") (buf ss)) ->
        exists v ss',
          read section_name (SelectionComponent sel) ss c
          = (Return (), ss', <[sel_name sel := v]> c)
          /\ good ss' = true
          /\ tellg ss' = (0, ss')).
Proof.
  intros H. split; [|split].
  - intros component.
    pose proof (wf_keeps_read section_name component ss c H) as H'.
    destruct (read section_name component ss c) as [[outcome ss'] c'].
    unfold wf in H'. simpl in H'. split; [lia|]. split.
    + intros Hgood. unfold tellg. rewrite Hgood. unfold size. simpl. lia.
    + intros Hgood. by rewrite tellg_not_good.
  - intros component ss' c' Hcomp Hgood E Hgood'. unfold tellg.
    rewrite Hgood, Hgood'. cbn [fst]. f_equal.
    by apply (read_restores_position section_name component ss c ss' c').
  - intros sel Hc Hfail Habs.
    destruct (SelectionComponent_read_absent sel section_name ss c Hc Habs)
      as (v & _ & Hread).
    exists v. eexists. split; [exact Hread|]. by rewrite Hfail.
Qed.

(** ** Separator, on any stream *)

(** C4. A Separator reads as follows.  When its label occurs in the text
    between two blanks, the label (of the first such place) is taken out
    of the text; on a stream that has not failed the get position is then
    where the label began, and on a stream that has failed [seekg] is
    refused and the get position is the 0 that replacing the text left.
    When the label does not occur, a mandatory Separator throws the error
    that names the separator and the section; an optional one moves the
    get position to the end of the text on a stream that has not failed
    and leaves it where it is on a stream that has. *)
Theorem C4_separator_read
    (optional_ : bool) (separator_ description_ section_name : string)
    (ss : stringstream) (c : gmap string value) :
  size (buf ss) <= max_size ->
  (forall pre post,
     first_occurrence (" " +:+ separator_ +:+ " ") (buf ss) pre post ->
     read section_name (SeparatorComponent optional_ separator_ description_) ss c
     = (Return (),
        if failbit ss
        then mk_stream (pre +:+ " " +:+ " " +:+ post) 0 false true
        else mk_stream (pre +:+ " " +:+ " " +:+ post) (String.length pre + 1) false false,
        c))
  /\ (~ occurs (" " +:+ separator_ +:+ " ") (buf ss) ->
      read section_name (SeparatorComponent optional_ separator_ description_) ss c
      = if optional_
        then (Return (),
              if failbit ss
              then mk_stream (buf ss) (gptr ss) false true
              else mk_stream (buf ss) (String.length (buf ss)) false false,
              c)
        else (Throw
                (four_c_throw
                   "Required parameter '%s' for section '%s' not specified in input file!"
                   [arg_s separator_; arg_s section_name]),
              ss, c)).
Proof.
  intros Hsize. split.
  - intros pre post Hfirst. simpl.
    by rewrite (SeparatorComponent_read_label _ _ _ _ _ _ _ Hsize Hfirst), seekg_label.
  - intros Habsent. simpl.
    unfold SeparatorComponent_read, bind, condline_str, str, label_pattern.
    rewrite (find_pos_absent _ _ Habsent). rewrite bool_decide_eq_true_2 by done.
    destruct optional_; [|done].
    unfold condline_seekg_end, seekg_end, clear_eof. cbn [failbit buf gptr eofbit].
    by destruct (failbit ss) eqn:Hfail.
Qed.

(** ** A label needs its blanks *)


(** ** An optional scalar without a token *)

(** C7. An optional Int or Real field that is read on a good stream with
    no token left.  With the get position at the end of the text, the call
    returns, stores the declared default under the field's name, and
    leaves the position and the text as they were.  With nothing but white
    space between the get position and the end of the text, an optional
    Real returns and stores its declared default, the text is as it was,
    and the attempt to extract a token has left the stream at the end of
    the text with [eofbit] and [failbit] set. *)
Theorem C7_optional_scalar_without_token
    (name_ section_name : string) (ss : stringstream) (c : gmap string value) :
  eofbit ss = false -> failbit ss = false ->
  size (buf ss) <= max_size ->
  (gptr ss = String.length (buf ss) ->
   (forall data_ : IntComponentData,
      int_optional data_ = true ->
      read section_name (IntComponent name_ data_) ss c
      = (Return (), ss, <[name_ := v_int (int_default_value data_)]> c))
   /\ (forall data_ : RealComponentData,
         real_optional data_ = true ->
         read section_name (RealComponent name_ data_) ss c
         = (Return (), ss, <[name_ := v_real (real_default_value data_)]> c)))
  /\ ((gptr ss < String.length (buf ss))%nat ->
      all_chars isspace (drop (gptr ss) (buf ss)) = true ->
      forall data_ : RealComponentData,
        real_optional data_ = true ->
        read section_name (RealComponent name_ data_) ss c
        = (Return (), mk_stream (buf ss) (String.length (buf ss)) true true,
           <[name_ := v_real (real_default_value data_)]> c)).
Proof.
  intros He Hf Hsize. split.
  - intros Hpos. pose proof (position_at_end ss Hpos Hsize) as Hend.
    split; intros data_ _; simpl.
    + unfold IntComponent_read, bind, condline_tellg, condline_str, str.
      rewrite (tellg_good _ He Hf). by rewrite bool_decide_eq_false_2 by tauto.
    + unfold RealComponent_read, bind, condline_tellg, condline_str, str.
      rewrite (tellg_good _ He Hf). by rewrite bool_decide_eq_false_2 by tauto.
  - intros Hpos Hws data_ Hopt. simpl.
    unfold RealComponent_read, bind, condline_tellg, condline_str, str.
    rewrite (tellg_good _ He Hf).
    rewrite bool_decide_eq_true_2 by (by apply position_inside).
    unfold condline_extract. by rewrite (extract_blank "" ss He Hf Hws), Hopt.
Qed.

(** ** A line that fills the fields of a list *)

(** [fills c component text rest c']: [text] is what [component] takes
    from the front of a line on which [rest] follows, when the container
    is [c], and [c'] is the container it leaves.  Every text ends with the
    blank that closes it.  A Separator's text is its label; a String or a
    Processed component takes any token; an Int or a Real a token that the
    library converts as a whole; a Bool one of the twelve spellings; a
    vector as many such tokens as its length resolves to, one blank
    between them; a Selection one of its labels, where the labels declared
    before it do not stand between blanks further on; a Switch that its
    constructor has built the label of one of its keys and then the texts
    of that key's components.  A label starts with a character other than
    a blank, so that it is found behind the blanks that open the line and
    not among them.  [fills_all] is the same for a list of components:
    their texts in order. *)
Inductive fills
    : gmap string value -> LineComponent -> string -> string -> gmap string value -> Prop :=
| fills_Separator c optional_ separator_ description_ rest :
    head_not_blank separator_ ->
    fills c (SeparatorComponent optional_ separator_ description_)
      (separator_ +:+ " ") rest c
| fills_String c name_ optional_ defaultvalue tok rest :
    is_token tok ->
    fills c (StringComponent name_ optional_ defaultvalue)
      (tok +:+ " ") rest (<[name_ := v_string tok]> c)
| fills_Int c name_ data_ tok number rest :
    is_token tok -> stoi tok = Converted number (String.length tok) ->
    fills c (IntComponent name_ data_) (tok +:+ " ") rest (<[name_ := v_int number]> c)
| fills_Real c name_ data_ tok number rest :
    is_token tok -> stod tok = Converted number (String.length tok) ->
    fills c (RealComponent name_ data_) (tok +:+ " ") rest (<[name_ := v_real number]> c)
| fills_Bool c name_ optional_ defaultvalue tok rest :
    tok ∈ true_literals ++ false_literals ->
    fills c (BoolComponent name_ optional_ defaultvalue) (tok +:+ " ") rest
      (<[name_ := v_bool (bool_decide (tok ∈ true_literals))]> c)
| fills_IntVector c name_ optional_ length_ data_ toks values rest :
    toks <> [] -> Forall is_token toks ->
    resolves length_ c (Z.of_nat (length toks)) ->
    Forall2 (fun tok v => stoi tok = Converted v (String.length tok)) toks values ->
    fills c (IntVectorComponent name_ optional_ length_ data_)
      (String.concat " " toks +:+ " ") rest (<[name_ := v_int_vector values]> c)
| fills_RealVector c name_ optional_ length_ data_ toks values rest :
    toks <> [] -> Forall is_token toks ->
    resolves length_ c (Z.of_nat (length toks)) ->
    Forall2 (fun tok v => stod tok = Converted v (String.length tok)) toks values ->
    fills c (RealVectorComponent name_ optional_ length_ data_)
      (String.concat " " toks +:+ " ") rest (<[name_ := v_real_vector values]> c)
| fills_Processed c name_ optional_ insert_operation_ tok rest :
    is_token tok ->
    fills c (ProcessedComponent name_ optional_ insert_operation_) (tok +:+ " ") rest
      (insert_operation_ tok c)
| fills_Selection c sel i label v rest :
    constructed sel ->
    datfilevalues_ sel !! i = Some label ->
    head_not_blank label ->
    (forall j label', (j < i)%nat -> datfilevalues_ sel !! j = Some label' ->
       head_not_blank label'
       /\ ~ occurs (" " +:+ label' +:+ " ") (" " +:+ label +:+ " " +:+ rest)) ->
    payload_at sel i = Some v ->
    fills c (SelectionComponent sel) (label +:+ " ") rest (<[sel_name sel := v]> c)
| fills_Switch c name default_key choices choices_ sel i k label components text rest c' :
    SwitchComponent_new name default_key choices
    = Return (SwitchComponent name default_key choices_ sel) ->
    is_map choices ->
    choices !! i = Some (k, (label, components)) ->
    head_not_blank label ->
    (forall j kc, (j < i)%nat -> choices !! j = Some kc ->
       head_not_blank kc.2.1
       /\ ~ occurs (" " +:+ kc.2.1 +:+ " ") (" " +:+ label +:+ " " +:+ text +:+ rest)) ->
    fills_all (<[name := v_int k]> c) components text rest c' ->
    fills c (SwitchComponent name default_key choices_ sel)
      (label +:+ " " +:+ text) rest c'
with fills_all
    : gmap string value -> list LineComponent -> string -> string -> gmap string value
      -> Prop :=
| fills_nil c rest : fills_all c [] "" rest c
| fills_cons c component components text texts rest c1 c2 :
    fills c component text (texts +:+ rest) c1 ->
    fills_all c1 components texts rest c2 ->
    fills_all c (component :: components) (text +:+ texts) rest c2.

Scheme fills_mut := Minimality for fills Sort Prop
  with fills_all_mut := Minimality for fills_all Sort Prop.

Combined Scheme fills_fills_all_mut from fills_mut, fills_all_mut.

Lemma concat_tokens toks rest :
  toks <> [] ->
  String.concat " " toks +:+ " " +:+ rest
  = tokens_text (map (fun tok => (tok, " ")) toks) rest.
Proof.
  induction toks as [|tok toks IH]; [done|]. intros _.
  destruct toks as [|tok' toks]; [done|].
  change (String.concat " " (tok :: tok' :: toks))
    with (tok +:+ " " +:+ String.concat " " (tok' :: toks)).
  rewrite !append_assoc, IH by done. done.
Qed.

Lemma gaps_blank toks rest :
  gaps_text (map (fun tok => (tok, " ")) toks) rest = blank (length toks) +:+ rest.
Proof. induction toks as [|tok toks IH]; [done|]. simpl. by rewrite IH. Qed.

Lemma spaced_tokens toks :
  Forall is_token toks -> Forall spaced_token (map (fun tok => (tok, " ")) toks).
Proof. induction 1; constructor; [by split|done]. Qed.

Lemma length_concat_tokens toks :
  Forall is_token toks -> (length toks <= String.length (String.concat " " toks) + 1)%nat.
Proof.
  induction 1 as [|tok toks [Htok _] _ IH]; [simpl; lia|].
  destruct toks as [|tok' toks].
  - simpl. destruct tok; [done|simpl; lia].
  - change (String.concat " " (tok :: tok' :: toks))
      with (tok +:+ " " +:+ String.concat " " (tok' :: toks)).
    rewrite !length_append. destruct tok; [done|]. simpl in *. lia.
Qed.

(** A label whose first character is not a blank does not start among the
    blanks that open a line. *)
Lemma occurs_after_blanks k label text :
  head_not_blank label ->
  occurs (" " +:+ label +:+ " ") (blank (S k) +:+ text) ->
  occurs (" " +:+ label +:+ " ") (" " +:+ text).
Proof.
  intros Hhead. induction k as [|k IH]; [done|].
  intros (pre & post & Hs). destruct pre as [|a pre].
  - exfalso. destruct label as [|b label]; [done|].
    simpl in Hs, Hhead. by injection Hs as <-.
  - apply IH. exists pre, post. simpl in Hs. by injection Hs as _ Hs.
Qed.

Section Line.
Variable section_name : string.

Lemma token_step (m : M unit) (c c1 : gmap string value) old tok k g rest :
  is_token tok -> (g <= k)%nat ->
  size (blank (S k) +:+ tok +:+ " " +:+ rest) <= max_size ->
  (forall ss1 ss2 ss3,
     let ss := line k g (tok +:+ " " +:+ rest) in
     condline_tellg ss c = (Return (Z.of_nat g), ss, c) ->
     size_t (Z.of_nat g) <> size (buf ss) ->
     condline_extract old ss c = (Return tok, ss1, c) ->
     erase_extracted tok ss1 c = (Return (), ss2, c) ->
     condline_seekg (Z.of_nat g) ss2 c = (Return (), ss3, c) ->
     m ss c = (Return (), ss3, c1)) ->
  m (line k g (tok +:+ " " +:+ rest)) c = (Return (), line (S k) g rest, c1).
Proof.
  intros Htok Hg Hsize Hm.
  destruct (take_token old g k tok rest c Hg Htok Hsize)
    as (Htell & Hremains & Hextract & Herase & Hseek).
  by apply (Hm _ _ _ Htell Hremains Hextract Herase Hseek).
Qed.

Lemma vector_step {T} (convert : Z -> string -> result T) (wrap : list T -> value)
    name_ optional_ length_ (d : T) toks (values : list T) k g rest
    (c : gmap string value) :
  toks <> [] -> Forall is_token toks ->
  resolves length_ c (Z.of_nat (length toks)) ->
  Forall2 (fun tok v => convert (Z.of_nat (length toks)) tok = Return v) toks values ->
  (g <= k)%nat ->
  size (blank (S k) +:+ String.concat " " toks +:+ " " +:+ rest) <= max_size ->
  (dynamic_length <- visit_length length_ ;;
   nnumbers <- new_vector dynamic_length d ;;
   position <- condline_tellg ;;
   s <- condline_str ;;
   nnumbers <-
     (if bool_decide (size_t position <> size s) then
        read_slots (convert dynamic_length) optional_ position nnumbers
      else ret nnumbers) ;;
   add name_ (wrap nnumbers))
    (line k g (String.concat " " toks +:+ " " +:+ rest)) c
  = (Return (), line (k + length toks) g rest, <[name_ := wrap values]> c).
Proof.
  intros Hne Htoks Hres Hvalues Hg Hsize.
  set (items := map (fun tok => (tok, " ")) toks).
  assert (Hlen : length items = length toks) by apply length_map.
  assert (Htext :
    blank (S k) +:+ String.concat " " toks +:+ " " +:+ rest
    = blank g +:+ blank (S k - g) +:+ tokens_text items rest).
  { rewrite (concat_tokens _ _ Hne), (blank_split g k Hg). by rewrite !append_assoc. }
  assert (Hafter :
    mk_stream (blank g +:+ blank (S k - g) +:+ gaps_text items rest)
      (String.length (blank g)) false false
    = line (k + length toks) g rest).
  { unfold line, items. rewrite gaps_blank, length_blank.
    rewrite <- !append_assoc, <- !blank_add. do 3 f_equal. lia. }
  rewrite Htext in Hsize. unfold line. rewrite Htext.
  rewrite <- (length_blank g) at 3.
  rewrite (vector_read_tokens name_ optional_ length_ (blank g) (blank (S k - g)) rest
             items c (spaced_tokens _ Htoks) (blank_is_space _) Hsize
             convert wrap d values (Z.of_nat (length toks)));
    [|done|lia|lia|left; by destruct toks|].
  - rewrite Hlen, Nat2Z.id, Nat.sub_diag. simpl. unfold bind, ret, add, container_add.
    by rewrite app_nil_r, Hafter.
  - unfold items. by apply Forall2_fmap_l.
Qed.

(** A Selection in front of one of its labels. *)
Lemma SelectionComponent_step sel i label k g rest (c : gmap string value) :
  constructed sel ->
  datfilevalues_ sel !! i = Some label ->
  head_not_blank label ->
  (forall j label', (j < i)%nat -> datfilevalues_ sel !! j = Some label' ->
     ~ occurs (" " +:+ label' +:+ " ") (blank (S k) +:+ label +:+ " " +:+ rest)) ->
  size (blank (S k) +:+ label +:+ " " +:+ rest) <= max_size ->
  exists v,
    payload_at sel i = Some v /\
    SelectionComponent_read sel section_name (line k g (label +:+ " " +:+ rest)) c
    = (Return (), line (S k) (S k) rest, <[sel_name sel := v]> c).
Proof.
  intros Hc Hi Hhead Hmin Hsize.
  destruct (SelectionComponent_read_found sel section_name
              (line k g (label +:+ " " +:+ rest)) c i label (blank k) rest
              Hc Hsize Hi (first_occurrence_after_blanks k label rest Hhead) Hmin)
    as (v & Hv & Hread).
  exists v. split; [done|]. rewrite Hread, seekg_label. cbn [line failbit].
  unfold line. rewrite length_blank, !(blank_S_r (S k)), (blank_S_r k), !append_assoc.
  do 3 f_equal. lia.
Qed.

(** A Switch in front of the label of one of its keys: the rest of the
    call is the read of that key's components behind the label. *)
Lemma SwitchComponent_step name default_key choices choices_ sel i key label components
    k g rest (c : gmap string value) :
  SwitchComponent_new name default_key choices
  = Return (SwitchComponent name default_key choices_ sel) ->
  is_map choices ->
  choices !! i = Some (key, (label, components)) ->
  head_not_blank label ->
  (forall j kc, (j < i)%nat -> choices !! j = Some kc ->
     ~ occurs (" " +:+ kc.2.1 +:+ " ") (blank (S k) +:+ label +:+ " " +:+ rest)) ->
  size (blank (S k) +:+ label +:+ " " +:+ rest) <= max_size ->
  read section_name (SwitchComponent name default_key choices_ sel)
    (line k g (label +:+ " " +:+ rest)) c
  = read_all section_name components (line (S k) (S k) rest) (<[name := v_int key]> c).
Proof.
  intros Hnew Hmap Hi Hhead Hmin Hsize.
  destruct (SwitchComponent_new_inv _ _ _ _ Hnew)
    as (sel' & [= -> <-] & Hc & Hname & Hlabels & Hkeys & Hint).
  assert (Hk : key ∈ map fst choices).
  { apply list_elem_of_fmap. exists (key, (label, components)). split; [done|].
    by eapply list_elem_of_lookup_2. }
  destruct (choice_at_map_subscript choices default_key key Hk) as [_ Hsame].
  pose proof (choice_at_lookup _ _ _ _ Hmap Hi) as Hch.
  rewrite <- (Hsame Hmap) in Hch.
  destruct (SelectionComponent_step sel i label k g rest c Hc) as (v & Hv & Hread);
    [by rewrite Hlabels, list_lookup_fmap, Hi|done| |done|].
  { intros j l Hj Hl. rewrite Hlabels, list_lookup_fmap in Hl.
    destruct (choices !! j) as [kc|] eqn:Hkc; [|done]. injection Hl as <-.
    by apply (Hmin j kc). }
  unfold payload_at in Hv. rewrite Hint, Hkeys, list_lookup_fmap, Hi in Hv.
  injection Hv as <-. rewrite Hname in Hread.
  by apply (read_switch_key section_name name default_key _ sel _ c _ key label components).
Qed.

(** Each component that is filled takes its text off the front of the
    line and leaves the container that [fills] says; so does a list. *)
Lemma fills_steps :
  (forall c component text rest c1,
     fills c component text rest c1 ->
     forall k g,
       (g <= k)%nat -> size (blank (S k) +:+ text +:+ rest) <= max_size ->
       exists k' g',
         (g' <= k')%nat
         /\ size (blank (S k') +:+ rest) <= size (blank (S k) +:+ text +:+ rest)
         /\ read section_name component (line k g (text +:+ rest)) c
            = (Return (), line k' g' rest, c1))
  /\ (forall c components text rest c',
        fills_all c components text rest c' ->
        forall k g,
          (g <= k)%nat -> size (blank (S k) +:+ text +:+ rest) <= max_size ->
          exists k' g',
            (g' <= k')%nat
            /\ size (blank (S k') +:+ rest) <= size (blank (S k) +:+ text +:+ rest)
            /\ read_all section_name components (line k g (text +:+ rest)) c
               = (Return (), line k' g' rest, c')).
Proof.
  apply fills_fills_all_mut.
  - intros c o s d rest Hhead k g Hg Hsize. rewrite append_assoc in *.
    exists (S k), (S k). split; [lia|]. split; [apply size_line_shorter|].
    by apply SeparatorComponent_step.
  - intros c n o d tok rest Htok k g Hg Hsize. rewrite append_assoc in *.
    exists (S k), g. split; [lia|]. split; [apply size_line_shorter|].
    apply (token_step _ c _ d tok); [done..|].
    intros ss1 ss2 ss3 ss Htell Hremains Hextract Herase Hseek.
    simpl. unfold StringComponent_read. returns Htell.
    rewrite (bind_returns condline_str _ _ _ _ _ _ eq_refl).
    rewrite bool_decide_eq_true_2 by exact Hremains.
    returns Hextract. rewrite bool_decide_eq_false_2 by (by destruct Htok).
    returns Herase. returns Hseek. done.
  - intros c n d tok v rest Htok Hconv k g Hg Hsize. rewrite append_assoc in *.
    exists (S k), g. split; [lia|]. split; [apply size_line_shorter|].
    apply (token_step _ c _ "" tok); [done..|].
    intros ss1 ss2 ss3 ss Htell Hremains Hextract Herase Hseek.
    simpl. unfold IntComponent_read. returns Htell.
    rewrite (bind_returns condline_str _ _ _ _ _ _ eq_refl).
    rewrite bool_decide_eq_true_2 by exact Hremains.
    returns Hextract.
    rewrite (bool_decide_eq_false_2 (tok = "")) by (by destruct Htok).
    rewrite orb_true_r. unfold convert_int. rewrite (convert_whole _ _ _ _ _ _ _ _ Hconv).
    rewrite (bind_returns (lift (Return v)) _ _ _ _ _ _ eq_refl).
    returns Herase. returns Hseek. done.
  - intros c n d tok v rest Htok Hconv k g Hg Hsize. rewrite append_assoc in *.
    exists (S k), g. split; [lia|]. split; [apply size_line_shorter|].
    apply (token_step _ c _ "" tok); [done..|].
    intros ss1 ss2 ss3 ss Htell Hremains Hextract Herase Hseek.
    simpl. unfold RealComponent_read. returns Htell.
    rewrite (bind_returns condline_str _ _ _ _ _ _ eq_refl).
    rewrite bool_decide_eq_true_2 by exact Hremains.
    returns Hextract.
    rewrite (bool_decide_eq_false_2 (tok = "")) by (by destruct Htok).
    rewrite andb_false_r. cbn [negb].
    unfold convert_double. rewrite (convert_whole _ _ _ _ _ _ _ _ Hconv).
    rewrite (bind_returns (lift (Return v)) _ _ _ _ _ _ eq_refl).
    returns Herase. returns Hseek. done.
  - intros c n o d tok rest Hlit k g Hg Hsize. rewrite append_assoc in *.
    exists (S k), g. split; [lia|]. split; [apply size_line_shorter|].
    apply (token_step _ c _ "" tok); [by apply bool_literal_is_token|done..|].
    intros ss1 ss2 ss3 ss Htell Hremains Hextract Herase Hseek.
    simpl. unfold BoolComponent_read. returns Htell.
    rewrite (bind_returns condline_str _ _ _ _ _ _ eq_refl).
    rewrite bool_decide_eq_true_2 by exact Hremains.
    returns Hextract.
    assert (Hval :
      (if bool_decide (tok ∈ true_literals) then ret true
       else if bool_decide (tok ∈ false_literals) then ret false
            else throw (value_not_properly_specified n section_name))
      = (ret (bool_decide (tok ∈ true_literals)) : M bool)).
    { apply elem_of_app in Hlit.
      destruct (bool_decide_reflect (tok ∈ true_literals)); [done|].
      rewrite bool_decide_eq_true_2 by tauto. done. }
    rewrite Hval. rewrite (bind_returns (ret _) _ _ _ _ _ _ eq_refl).
    returns Herase. returns Hseek. done.
  - intros c n o len d toks vs rest Hne Htoks Hres Hvs k g Hg Hsize.
    rewrite append_assoc in *.
    exists (k + length toks)%nat, g. split; [lia|]. split.
    + pose proof (length_concat_tokens toks Htoks).
      unfold size. rewrite !length_append, !length_blank. simpl. lia.
    + simpl. unfold IntVectorComponent_read.
      apply (vector_step (fun dl s => convert_int s n section_name dl o) v_int_vector);
        [done..| |done|done].
      eapply Forall2_impl; [exact Hvs|]. intros tok v Hv. by apply convert_whole.
  - intros c n o len d toks vs rest Hne Htoks Hres Hvs k g Hg Hsize.
    rewrite append_assoc in *.
    exists (k + length toks)%nat, g. split; [lia|]. split.
    + pose proof (length_concat_tokens toks Htoks).
      unfold size. rewrite !length_append, !length_blank. simpl. lia.
    + simpl. unfold RealVectorComponent_read.
      apply (vector_step (fun dl s => convert_double s n section_name dl o) v_real_vector);
        [done..| |done|done].
      eapply Forall2_impl; [exact Hvs|]. intros tok v Hv. by apply convert_whole.
  - intros c n o f tok rest Htok k g Hg Hsize. rewrite append_assoc in *.
    exists (S k), g. split; [lia|]. split; [apply size_line_shorter|].
    apply (token_step _ c _ "" tok); [done..|].
    intros ss1 ss2 ss3 ss Htell Hremains Hextract Herase Hseek.
    simpl. unfold ProcessedComponent_read. returns Htell.
    rewrite (bind_returns condline_str _ _ _ _ _ _ eq_refl).
    rewrite bool_decide_eq_true_2 by exact Hremains.
    returns Hextract. rewrite bool_decide_eq_false_2 by (by destruct Htok).
    returns Herase. returns Hseek. done.
  - intros c sel i label v rest Hc Hi Hhead Hmin Hv k g Hg Hsize.
    rewrite append_assoc in *.
    exists (S k), (S k). split; [lia|]. split; [apply size_line_shorter|].
    destruct (SelectionComponent_step sel i label k g rest c Hc Hi Hhead) as (v' & Hv' & Hread);
      [|done|].
    { intros j label' Hj Hl Hocc. destruct (Hmin j label' Hj Hl) as [Hhead' Habs].
      by apply Habs, (occurs_after_blanks k). }
    rewrite Hv in Hv'. injection Hv' as <-. exact Hread.
  - intros c name default_key choices choices_ sel i key label components text rest c'
      Hnew Hmap Hi Hhead Hmin _ IH k g Hg Hsize.
    rewrite !append_assoc in *.
    destruct (IH (S k) (S k) ltac:(lia)) as (k' & g' & Hg' & Hsize' & Hread).
    { pose proof (size_line_shorter k label (text +:+ rest)). lia. }
    exists k', g'. split; [done|]. split.
    { pose proof (size_line_shorter k label (text +:+ rest)). lia. }
    rewrite (SwitchComponent_step name default_key choices choices_ sel i key label
               components k g (text +:+ rest) c Hnew Hmap Hi Hhead); [done| |done].
    intros j kc Hj Hkc Hocc. destruct (Hmin j kc Hj Hkc) as [Hhead' Habs].
    by apply Habs, (occurs_after_blanks k).
  - intros c rest k g Hg Hsize. exists k, g. split; [done|]. split; [done|]. done.
  - intros c component components text texts rest c1 c2 _ IH1 _ IH2 k g Hg Hsize.
    rewrite append_assoc in *.
    destruct (IH1 k g Hg Hsize) as (k1 & g1 & Hg1 & Hsize1 & Hread1).
    destruct (IH2 k1 g1 Hg1 ltac:(lia)) as (k2 & g2 & Hg2 & Hsize2 & Hread2).
    exists k2, g2. split; [done|]. split; [lia|].
    cbn [read_all]. returns Hread1. exact Hread2.
Qed.

End Line.

(** ** Switch *)

(** C8. A Switch that its constructor has built reads as follows.  On any
    stream, its embedded Selection runs first and stores, under the
    Switch's own name, a key [k] of the choices map; the key is one the
    map holds, so the assertion on it passes, and the rest of the call is
    the [read] of each component of [k]'s list, in order, on the stream
    and the container the Selection left.  For every key [k] of the map:
    on a line that, behind the blanks that open it, holds [k]'s label, a
    blank and then, for each component of [k]'s list in order, a text that
    fills it, each closed by a blank, where the label starts with a
    character other than a blank and no label of an earlier key stands in
    the line between blanks, the call returns; the container then holds
    [k] under the Switch's name and what each component of the list
    stores, in the order of the list; the label and the texts are out of
    the line, and what followed them is still there. *)
Theorem C8_switch_read
    (name : string) (default_key : Z)
    (choices choices_ : list (Z * (string * list LineComponent)))
    (sel : Selection) (section_name : string) (c : gmap string value) :
  SwitchComponent_new name default_key choices
  = Return (SwitchComponent name default_key choices_ sel) ->
  (forall ss,
     exists k label components ss1,
       sel_name sel = name
       /\ read section_name (SelectionComponent sel) ss c
          = (Return (), ss1, <[name := v_int k]> c)
       /\ k ∈ map fst choices
       /\ choice_at choices_ k = Some (label, components)
       /\ read section_name (SwitchComponent name default_key choices_ sel) ss c
          = read_all section_name components ss1 (<[name := v_int k]> c))
  /\ (forall i k label components text rest c' k0 g0,
        is_map choices ->
        choices !! i = Some (k, (label, components)) ->
        head_not_blank label ->
        (forall j kc, (j < i)%nat -> choices !! j = Some kc ->
           ~ occurs (" " +:+ kc.2.1 +:+ " ")
               (blank (S k0) +:+ label +:+ " " +:+ text +:+ rest)) ->
        fills_all (<[name := v_int k]> c) components text rest c' ->
        (g0 <= k0)%nat ->
        size (blank (S k0) +:+ label +:+ " " +:+ text +:+ rest) <= max_size ->
        exists k' g',
          (g' <= k')%nat
          /\ read section_name (SwitchComponent name default_key choices_ sel)
               (mk_stream (blank (S k0) +:+ label +:+ " " +:+ text +:+ rest) g0 false false)
               c
             = (Return (), mk_stream (blank (S k') +:+ rest) g' false false, c')).
Proof.
  intros Hnew. split.
  - destruct (SwitchComponent_new_inv _ _ _ _ Hnew)
      as (sel' & [= -> <-] & Hc & Hname & Hlabels & Hkeys & Hint).
    intros ss.
    destruct (SelectionComponent_read_returns sel section_name ss c Hc)
      as (i & v & ss1 & _ & Hv & Hread).
    unfold payload_at in Hv. rewrite Hint, Hkeys in Hv.
    destruct (map fst choices !! i) as [k|] eqn:Hi; [|done]. injection Hv as <-.
    assert (Hk : k ∈ map fst choices) by (by eapply list_elem_of_lookup_2).
    destruct (choice_at_map_subscript choices default_key k Hk)
      as [[[label components] Hch] _].
    rewrite Hname in Hread.
    exists k, label, components, ss1.
    split; [done|]. split; [exact Hread|]. split; [done|]. split; [done|].
    by apply (read_switch_key section_name name default_key _ sel ss c ss1 k label
                components).
  - intros i k label components text rest c' k0 g0 Hmap Hi Hhead Hmin Hfills Hg Hsize.
    destruct (proj2 (fills_steps section_name) _ _ _ _ _ Hfills (S k0) (S k0) ltac:(lia))
      as (k' & g' & Hg' & _ & Hread).
    { pose proof (size_line_shorter k0 label (text +:+ rest)). lia. }
    exists k', g'. split; [done|].
    change (mk_stream (blank (S k0) +:+ label +:+ " " +:+ text +:+ rest) g0 false false)
      with (line k0 g0 (label +:+ " " +:+ text +:+ rest)).
    by rewrite (SwitchComponent_step section_name name default_key choices choices_ sel i k
                  label components k0 g0 (text +:+ rest) c Hnew Hmap Hi Hhead Hmin Hsize).
Qed.

End Facts.

(** ** The statements at concrete lines

    Evaluated with [decimal_literals] for the library's floating point. *)

(** The scenario's line as it is written, without a blank before the first
    label: the first Separator does not find its label.  Mandatory fields
    throw; optional ones store NUMSCAL = 0 and an empty vector. *)
Lemma C1_counterexample :
  read_all "SEC"
    [SeparatorComponent false "NUMSCAL" "";
     IntComponent "NUMSCAL" {| int_default_value := 0; int_optional := false |};
     SeparatorComponent false "STOICHIOMETRIES" "";
     IntVectorComponent "STOICHIOMETRIES" false (length_from (LengthFromInt "NUMSCAL"))
       {| int_default_value := 0; int_optional := false |}]
    (mk_stream "NUMSCAL 3 STOICHIOMETRIES 1 -1 0" 0 false false) ∅
  = (Throw
       (four_c_throw
          "Required parameter '%s' for section '%s' not specified in input file!"
          [arg_s "NUMSCAL"; arg_s "SEC"]),
     mk_stream "NUMSCAL 3 STOICHIOMETRIES 1 -1 0" 0 false false, ∅)
  /\ read_all "SEC"
       [SeparatorComponent true "NUMSCAL" "";
        IntComponent "NUMSCAL" {| int_default_value := 0; int_optional := true |};
        SeparatorComponent true "STOICHIOMETRIES" "";
        IntVectorComponent "STOICHIOMETRIES" true (length_from (LengthFromInt "NUMSCAL"))
          {| int_default_value := 0; int_optional := true |}]
       (mk_stream "NUMSCAL 3 STOICHIOMETRIES 1 -1 0" 0 false false) ∅
     = (Return (),
        mk_stream "NUMSCAL 3  1 -1 0" 10 false false,
        <["STOICHIOMETRIES" := v_int_vector []]> (<["NUMSCAL" := v_int 0]> ∅)).
Proof. split; by_evaluation. Qed.

Definition interface_side : Selection :=
  {| sel_name := "interface_side"; defaultvalue_ := "Undefined";
     datfilevalues_ := ["Undefined"; "Slave"; "Master"];
     stringcondvalues_ := ["notdefined"]; intcondvalues_ := [0; 1; 2];
     stringtostring_ := false |}.

Lemma interface_side_constructed : constructed interface_side.
Proof. right. by exists "interface_side", "Undefined", ["Undefined"; "Slave"; "Master"], [0; 1; 2]. Qed.

Lemma first_occurrence_by_find pat s p :
  find s pat = Some p ->
  first_occurrence pat s (take p s) (drop (p + String.length pat) s).
Proof.
  intros E. destruct (find_occurs _ _ _ E) as (pre & post & Hs & <-).
  assert (take (String.length pre) s = pre) as -> by (rewrite Hs; apply take_append).
  assert (drop (String.length pre + String.length pat) s = post) as ->.
  { rewrite Hs, <- drop_drop, drop_append. apply drop_append. }
  split; [done|]. intros pre' post' Hs'. by eapply find_first.
Qed.

Lemma absent_by_find pat s : find s pat = None -> ~ occurs pat s.
Proof. intros E (pre & post & Hs). by apply (find_None _ _ pre post) in E. Qed.

Lemma C3_witness :
  constructed interface_side
  /\ size (buf (mk_stream " 7 INTERFACE_SIDE Slave S2I_KINETICS_ID 3 " 0 false false))
     <= max_size
  /\ (exists v ss',
        payload_at interface_side 1 = Some v /\
        read "SEC" (SelectionComponent interface_side)
          (mk_stream " 7 INTERFACE_SIDE Slave S2I_KINETICS_ID 3 " 0 false false) ∅
        = (Return (), ss', <["interface_side" := v]> ∅))
  /\ (exists i v ss',
        datfilevalues_ interface_side !! i = Some "Undefined" /\
        (forall j, (j < i)%nat -> datfilevalues_ interface_side !! j <> Some "Undefined") /\
        payload_at interface_side i = Some v /\
        read "SEC" (SelectionComponent interface_side)
          (mk_stream " 7 S2I_KINETICS_ID 3 " 0 false false) ∅
        = (Return (), ss', <["interface_side" := v]> ∅)).
Proof.
  split; [exact interface_side_constructed|]. split; [by vm_compute|]. split.
  - apply (proj1 (C3_selection_stores_payload interface_side "SEC"
                    (mk_stream " 7 INTERFACE_SIDE Slave S2I_KINETICS_ID 3 " 0 false false) ∅
                    interface_side_constructed ltac:(by vm_compute)) 1%nat "Slave").
    + done.
    + by exists " 7 INTERFACE_SIDE", "S2I_KINETICS_ID 3 ".
    + intros [|j] label' Hj Hl; [|lia]. vm_compute in Hl. injection Hl as <-.
      by apply absent_by_find.
  - apply (proj2 (C3_selection_stores_payload interface_side "SEC"
                    (mk_stream " 7 S2I_KINETICS_ID 3 " 0 false false) ∅
                    interface_side_constructed ltac:(by vm_compute))).
    intros label Hl. apply absent_by_find.
    repeat (apply elem_of_cons in Hl as [->|Hl]; [done|]). by apply elem_of_nil in Hl.
Defined.

Lemma C5_witness :
  stoi "12abc" = Converted 12 2
  /\ (2 < String.length "12abc")%nat
  /\ stod "3.14abc" = Converted {| negative := false; mantissa := 314; exponent := -2 |} 4
  /\ (4 < String.length "3.14abc")%nat
  /\ convert_and_validate_string_to_number stoi throw_error_wrong_data_type_int
       "12abc" "NUMSCAL" "SEC" 1 false
     = Throw
         (four_c_throw
            "Failed to read value '%s' while reading variable '%s' in '%s'. 4C could only read '%d', so the specified number format is probably not supported. The variable '%s' has to be an integer."
            [arg_s "abc"; arg_s "NUMSCAL"; arg_s "SEC"; arg_d 12; arg_s "NUMSCAL"])
  /\ convert_and_validate_string_to_number stod throw_error_wrong_data_type_double
       "3.14abc" "K_R" "SEC" 1 false
     = Throw
         (four_c_throw
            "Failed to read value '%s' while reading variable '%s' in '%s'. 4C could only read '%f', so the specified number format is probably not supported. The variable '%s' has to be a floating point."
            [arg_s "abc"; arg_s "K_R"; arg_s "SEC";
             arg_f {| negative := false; mantissa := 314; exponent := -2 |}; arg_s "K_R"]).
Proof.
  split; [done|]. split; [simpl; lia|]. split; [done|]. split; [simpl; lia|]. split.
  - apply (proj1 (C5_trailing_garbage (FP := decimal_literals) "12abc" "NUMSCAL" "SEC" 1 false)
             12 2%nat eq_refl).
    simpl; lia.
  - apply (proj2 (C5_trailing_garbage (FP := decimal_literals) "3.14abc" "K_R" "SEC" 1 false)
             {| negative := false; mantissa := 314; exponent := -2 |} 4%nat eq_refl).
    simpl; lia.
Defined.

(** A Bool given [yEs ], a mix of cases of [Yes] that is not among the
    twelve spellings, throws. *)
Lemma C6_counterexample :
  read "SEC" (BoolComponent "ADD_MANIFOLD" false false)
    (mk_stream " yEs " 0 false false) ∅
  = (Throw
       (four_c_throw
          "Value of parameter '%s' for section '%s' not properly specified in input file!"
          [arg_s "ADD_MANIFOLD"; arg_s "SEC"]),
     mk_stream " yEs " 4 false false, ∅).
Proof. by_evaluation. Qed.

Lemma C6_witness :
  all_chars isspace " " = true
  /\ isspace " " = true
  /\ size ("" +:+ " " +:+ "YES" +:+ " ") <= max_size
  /\ "YES" ∈ true_literals ++ false_literals
  /\ read "SEC" (BoolComponent "ADD_MANIFOLD" false false)
       (mk_stream " YES " 0 false false) ∅
     = (Return (), mk_stream "  " 0 false false, <["ADD_MANIFOLD" := v_bool true]> ∅)
  /\ read "SEC" (BoolComponent "ADD_MANIFOLD" false false)
       (mk_stream " maybe " 0 false false) ∅
     = (Throw
          (four_c_throw
             "Value of parameter '%s' for section '%s' not properly specified in input file!"
             [arg_s "ADD_MANIFOLD"; arg_s "SEC"]),
        mk_stream " maybe " 6 false false, ∅)
  /\ read "SEC" (BoolComponent "ADD_MANIFOLD" false false)
       (mk_stream " " 1 false false) ∅
     = (Return (), mk_stream " " 1 false false, <["ADD_MANIFOLD" := v_bool false]> ∅).
Proof.
  split; [done|]. split; [done|]. split; [by vm_compute|].
  assert (Hyes : "YES" ∈ true_literals ++ false_literals).
  { unfold true_literals. simpl. apply elem_of_cons. right. apply elem_of_cons. by left. }
  split; [exact Hyes|].
  destruct (C6_bool_read "ADD_MANIFOLD" "SEC" false false ∅) as (Hlit & Hother & Hend).
  split; [|split].
  - apply (Hlit "" " " "YES" " "%char ""); [done|done|by vm_compute|exact Hyes].
  - apply (Hother (mk_stream " maybe " 0 false false) "maybe"
             (mk_stream " maybe " 6 false false)).
    + done.
    + done.
    + simpl; lia.
    + by vm_compute.
    + by vm_compute.
    + unfold true_literals, false_literals. simpl. intros H.
      repeat (apply elem_of_cons in H as [?|H]; [done|]). by apply elem_of_nil in H.
  - by apply (Hend (mk_stream " " 1 false false)).
Defined.

Definition kinetic_model_choices : list (Z * (string * list LineComponent)) :=
  [(0, ("NoInterfaceFlux", []));
   (1, ("ConstantInterfaceResistance",
        [SeparatorComponent false "ONOFF" "";
         IntVectorComponent "ONOFF" false (length_int 2)
           {| int_default_value := 0; int_optional := false |};
         SeparatorComponent false "E-" "";
         IntComponent "E-" {| int_default_value := 0; int_optional := false |}]))].

Definition kinetic_model_selection : Selection :=
  {| sel_name := "KINETIC_MODEL"; defaultvalue_ := "ConstantInterfaceResistance";
     datfilevalues_ := ["NoInterfaceFlux"; "ConstantInterfaceResistance"];
     stringcondvalues_ := ["notdefined"]; intcondvalues_ := [0; 1];
     stringtostring_ := false |}.

(** The default texts of a Separator and an Int, joined by a blank: the
    label opens the line with no blank before it, and the Separator does
    not find it. *)
Lemma C9_counterexample :
  render_joined (fun _ => "0")
    [SeparatorComponent false "NUMSCAL" "";
     IntComponent "NUMSCAL" {| int_default_value := 0; int_optional := false |}]
  = "NUMSCAL 0"
  /\ read_all "SEC"
       [SeparatorComponent false "NUMSCAL" "";
        IntComponent "NUMSCAL" {| int_default_value := 0; int_optional := false |}]
       (mk_stream "NUMSCAL 0" 0 false false) ∅
     = (Throw
          (four_c_throw
             "Required parameter '%s' for section '%s' not specified in input file!"
             [arg_s "NUMSCAL"; arg_s "SEC"]),
        mk_stream "NUMSCAL 0" 0 false false, ∅).
Proof. split; by_evaluation. Qed.

Definition rendered_example : list LineComponent :=
  [SeparatorComponent false "NUMSCAL" "";
   IntComponent "NUMSCAL" {| int_default_value := 3; int_optional := false |};
   SeparatorComponent false "ONOFF" "";
   IntVectorComponent "ONOFF" false (length_int 2)
     {| int_default_value := -1; int_optional := false |};
   BoolComponent "ADD_MANIFOLD" false true].

Lemma C9_witness :
  Forall reads_back rendered_example
  /\ size (render_padded (fun _ => "0") rendered_example) <= max_size
  /\ render_padded (fun _ => "0") rendered_example = " NUMSCAL 3 ONOFF -1 -1  Yes "
  /\ exists ss',
       read_all "SEC" rendered_example
         (mk_stream (render_padded (fun _ => "0") rendered_example) 0 false false) ∅
       = (Return (), ss', store_defaults rendered_example ∅)
       /\ all_chars isspace (buf ss') = true.
Proof.
  assert (Hrb : Forall reads_back rendered_example).
  { repeat constructor; simpl; try done; by vm_compute. }
  assert (Hsize : size (render_padded (fun _ => "0") rendered_example) <= max_size)
    by (by vm_compute).
  split; [exact Hrb|]. split; [exact Hsize|]. split; [by_evaluation|].
  exact (C9_rendered_defaults_read_back (fun _ => "0") "SEC" rendered_example ∅ Hrb Hsize).
Defined.

(** The same line with a blank before the first label and none after the
    last value: the last token ends the text, [>>] sets [eofbit], [tellg]
    then fails and the erase is out of range. *)
Example last_token_at_end_of_text :
  read_all "SEC"
    [SeparatorComponent false "NUMSCAL" "";
     IntComponent "NUMSCAL" {| int_default_value := 0; int_optional := false |};
     SeparatorComponent false "STOICHIOMETRIES" "";
     IntVectorComponent "STOICHIOMETRIES" false (length_from (LengthFromInt "NUMSCAL"))
       {| int_default_value := 0; int_optional := false |}]
    (mk_stream " NUMSCAL 3 STOICHIOMETRIES 1 -1 0" 0 false false) ∅
  = (Throw std_out_of_range, mk_stream "      0" 7 true true, <["NUMSCAL" := v_int 3]> ∅).
Proof. by_evaluation. Qed.


(** ** The further properties at concrete lines *)

Lemma X1_witness :
  stoi "7" = Converted 7 (String.length "7")
  /\ stoi "" = invalid_argument
  /\ stoi "99999999999" = out_of_range
  /\ convert_and_validate_string_to_number (FP := decimal_literals) stoi
       throw_error_wrong_data_type_int "7" "NUMSCAL" "SEC" 1 false
     = Return 7
  /\ convert_and_validate_string_to_number (FP := decimal_literals) stoi
       throw_error_wrong_data_type_int "" "NUMSCAL" "SEC" 1 false
     = Throw
         (four_c_throw
            "Invalid argument! No value of variable '%s' in '%s' specified. Possibly you didn't give enough input values. The variable '%s' expects %i input values."
            [arg_s "NUMSCAL"; arg_s "SEC"; arg_s "NUMSCAL"; arg_d 1])
  /\ convert_and_validate_string_to_number (FP := decimal_literals) stoi
       throw_error_wrong_data_type_int "99999999999" "NUMSCAL" "SEC" 1 false
     = Throw std_out_of_range.
Proof.
  split; [done|]. split; [done|]. split; [done|]. split; [|split].
  - apply (proj1 (X1_conversion_cases (FP := decimal_literals) stoi
                    throw_error_wrong_data_type_int "7" "NUMSCAL" "SEC" 1 false) 7).
    done.
  - apply (proj1 (proj2 (X1_conversion_cases (FP := decimal_literals) stoi
                           throw_error_wrong_data_type_int "" "NUMSCAL" "SEC" 1 false))).
    done.
  - apply (proj2 (proj2 (X1_conversion_cases (FP := decimal_literals) stoi
                           throw_error_wrong_data_type_int "99999999999" "NUMSCAL" "SEC" 1
                           false))).
    done.
Defined.

Lemma X2_witness :
  ("Undefined" ∈ ["Undefined"; "Slave"; "Master"])
  /\ ("Both" ∉ ["Undefined"; "Slave"; "Master"])
  /\ SelectionComponent_int (FP := decimal_literals) "interface_side" "Undefined"
       ["Undefined"; "Slave"; "Master"] [0; 1; 2]
     = Return interface_side
  /\ SelectionComponent_int (FP := decimal_literals) "interface_side" "Both"
       ["Undefined"; "Slave"; "Master"] [0; 1; 2]
     = Throw (four_c_throw "Invalid default value '%s'." [arg_s "Both"]).
Proof.
  assert (Hin : "Undefined" ∈ ["Undefined"; "Slave"; "Master"]) by (by left).
  assert (Hout : "Both" ∉ ["Undefined"; "Slave"; "Master"]).
  { intros H. repeat (apply elem_of_cons in H as [?|H]; [done|]). by apply elem_of_nil in H. }
  split; [exact Hin|]. split; [exact Hout|]. split.
  - apply (proj2 (proj2 (X2_selection_constructors (FP := decimal_literals)
                           "interface_side" "Undefined" ["Undefined"; "Slave"; "Master"]
                           [] [0; 1; 2]) Hin)).
  - apply (proj2 (proj1 (X2_selection_constructors (FP := decimal_literals)
                           "interface_side" "Both" ["Undefined"; "Slave"; "Master"]
                           [] [0; 1; 2]) Hout)).
Defined.

Lemma kinetic_model_is_map : is_map kinetic_model_choices.
Proof.
  unfold is_map, kinetic_model_choices. simpl.
  repeat constructor.
Qed.

Lemma X3_witness :
  is_map kinetic_model_choices
  /\ choice_at kinetic_model_choices 1
     = Some ("ConstantInterfaceResistance",
             [SeparatorComponent false "ONOFF" "";
              IntVectorComponent "ONOFF" false (length_int 2)
                {| int_default_value := 0; int_optional := false |};
              SeparatorComponent false "E-" "";
              IntComponent "E-" {| int_default_value := 0; int_optional := false |}])
  /\ (5 ∉ map fst kinetic_model_choices)
  /\ ("" ∉ map (fun kc => kc.2.1) kinetic_model_choices)
  /\ SwitchComponent_new "KINETIC_MODEL" 1 kinetic_model_choices
     = Return (SwitchComponent "KINETIC_MODEL" 1 kinetic_model_choices
                 kinetic_model_selection)
  /\ SwitchComponent_new "KINETIC_MODEL" 5 kinetic_model_choices
     = Throw (four_c_throw "Invalid default value '%s'." [arg_s ""]).
Proof.
  assert (Hkey : 5 ∉ map fst kinetic_model_choices).
  { simpl. intros H. repeat (apply elem_of_cons in H as [?|H]; [done|]).
    by apply elem_of_nil in H. }
  assert (Hlabel : "" ∉ map (fun kc => kc.2.1) kinetic_model_choices).
  { simpl. intros H. repeat (apply elem_of_cons in H as [?|H]; [done|]).
    by apply elem_of_nil in H. }
  split; [exact kinetic_model_is_map|]. split; [done|].
  split; [exact Hkey|]. split; [exact Hlabel|]. split.
  - exact (proj1 (X3_switch_constructor (FP := decimal_literals) "KINETIC_MODEL" 1
                    kinetic_model_choices) _ _ kinetic_model_is_map eq_refl).
  - exact (proj2 (X3_switch_constructor (FP := decimal_literals) "KINETIC_MODEL" 5
                    kinetic_model_choices) Hkey Hlabel).
Defined.

Lemma X4_witness :
  failbit (mk_stream " 7 " 3 true true) = true
  /\ failbit
       (read (FP := decimal_literals) "SEC"
          (IntComponent "NUMSCAL" {| int_default_value := 0; int_optional := true |})
          (mk_stream " 7 " 3 true true) ∅).1.2
     = true.
Proof.
  split; [done|].
  by apply (X4_failed_stream_stays_failed (FP := decimal_literals) "SEC"
              (IntComponent "NUMSCAL" {| int_default_value := 0; int_optional := true |})
              (mk_stream " 7 " 3 true true) ∅).
Defined.

Lemma X6_witness :
  keeps_names (FP := decimal_literals)
    (IntComponent "NUMSCAL" {| int_default_value := 0; int_optional := false |})
  /\ read (FP := decimal_literals) "SEC"
       (IntComponent "NUMSCAL" {| int_default_value := 0; int_optional := false |})
       (mk_stream "  3 " 1 false false) (<["E-" := v_int 1]> ∅)
     = (Return (), mk_stream "   " 1 false false,
        <["NUMSCAL" := v_int 3]> (<["E-" := v_int 1]> ∅))
  /\ is_Some ((<["E-" := v_int 1]> ∅ : gmap string value) !! "E-")
  /\ is_Some ((<["NUMSCAL" := v_int 3]> (<["E-" := v_int 1]> ∅) : gmap string value)
              !! "E-").
Proof.
  assert (Hread :
    read (FP := decimal_literals) "SEC"
      (IntComponent "NUMSCAL" {| int_default_value := 0; int_optional := false |})
      (mk_stream "  3 " 1 false false) (<["E-" := v_int 1]> ∅)
    = (Return (), mk_stream "   " 1 false false,
       <["NUMSCAL" := v_int 3]> (<["E-" := v_int 1]> ∅))) by by_evaluation.
  assert (Hsome : is_Some ((<["E-" := v_int 1]> ∅ : gmap string value) !! "E-")).
  { rewrite lookup_insert_eq. by eexists. }
  split; [done|]. split; [exact Hread|]. split; [exact Hsome|].
  exact (X6_read_keeps_names_in_container (FP := decimal_literals) "SEC"
           (IntComponent "NUMSCAL" {| int_default_value := 0; int_optional := false |})
           _ _ _ _ _ "E-" I Hread Hsome).
Defined.

Lemma X7_witness :
  (forall name default_key choices sel,
     IntComponent (FP := decimal_literals) "NUMSCAL"
       {| int_default_value := 0; int_optional := false |}
     <> SwitchComponent name default_key choices sel)
  /\ (forall name optional insert_operation,
        IntComponent (FP := decimal_literals) "NUMSCAL"
          {| int_default_value := 0; int_optional := false |}
        <> ProcessedComponent name optional insert_operation)
  /\ let '(outcome, ss', c') :=
       read (FP := decimal_literals) "SEC"
         (IntComponent "NUMSCAL" {| int_default_value := 0; int_optional := false |})
         (mk_stream "  3 " 1 false false) ∅ in
     match outcome,
           written_name
             (IntComponent "NUMSCAL" {| int_default_value := 0; int_optional := false |})
     with
     | Return _, Some n => exists v, c' = <[n := v]> ∅
     | _, _ => c' = ∅
     end.
Proof.
  split; [done|]. split; [done|].
  apply (X7_value_field_touches_only_its_entry (FP := decimal_literals) "SEC"
           (IntComponent "NUMSCAL" {| int_default_value := 0; int_optional := false |})
           (mk_stream "  3 " 1 false false) ∅); done.
Defined.

Lemma X8_witness :
  all_chars isspace " " = true
  /\ is_token "3" /\ is_token "2.5"
  /\ isspace " " = true
  /\ size (" " +:+ " " +:+ "3" +:+ " ") <= max_size
  /\ size (" " +:+ " " +:+ "2.5" +:+ " ") <= max_size
  /\ stoi "3" = Converted 3 (String.length "3")
  /\ stod "2.5"
     = Converted {| negative := false; mantissa := 25; exponent := -1 |}
         (String.length "2.5")
  /\ read "SEC" (IntComponent "NUMSCAL" {| int_default_value := 0; int_optional := false |})
       (mk_stream "  3 " 1 false false) ∅
     = (Return (), mk_stream "   " 1 false false, <["NUMSCAL" := v_int 3]> ∅)
  /\ read "SEC"
       (RealComponent "K_R"
          {| real_default_value := {| negative := false; mantissa := 0; exponent := 0 |};
             real_optional := false |})
       (mk_stream "  2.5 " 1 false false) ∅
     = (Return (), mk_stream "   " 1 false false,
        <["K_R" := v_real {| negative := false; mantissa := 25; exponent := -1 |}]> ∅).
Proof.
  assert (H3 : is_token "3") by (by split).
  assert (H25 : is_token "2.5") by (by split).
  split; [done|]. split; [exact H3|]. split; [exact H25|]. split; [done|].
  split; [by vm_compute|]. split; [by vm_compute|]. split; [done|]. split; [done|].
  split.
  - apply (proj1 (X8_scalar_reads_token (FP := decimal_literals) "NUMSCAL" "SEC"
                    " " " " "3" " "%char "" ∅ eq_refl H3 eq_refl ltac:(by vm_compute))
             {| int_default_value := 0; int_optional := false |} 3 eq_refl).
  - by apply (proj2 (X8_scalar_reads_token (FP := decimal_literals) "K_R" "SEC"
                       " " " " "2.5" " "%char "" ∅ eq_refl H25 eq_refl
                       ltac:(by vm_compute))).
Defined.

Lemma X9_witness :
  size (buf (mk_stream " E- 1 K_R 2 " 0 false false)) <= max_size
  /\ size (buf (mk_stream " E- 1 K_R 2 " 12 true true)) <= max_size
  /\ first_occurrence (" " +:+ "K_R" +:+ " ") " E- 1 K_R 2 "
       " E- 1" ("" +:+ "2" +:+ String " " "")
  /\ all_chars isspace "" = true /\ is_token "2" /\ isspace " " = true
  /\ stoi "2" = Converted 2 (String.length "2")
  /\ read_all "SEC"
       [SeparatorComponent false "K_R" "";
        IntComponent "K_R" {| int_default_value := 0; int_optional := false |}]
       (mk_stream " E- 1 K_R 2 " 0 false false) ∅
     = (Return (), mk_stream " E- 1   " 6 false false, <["K_R" := v_int 2]> ∅)
  /\ read_all "SEC"
       [SeparatorComponent false "K_R" "";
        IntComponent "K_R" {| int_default_value := 0; int_optional := false |}]
       (mk_stream " E- 1 K_R 2 " 12 true true) ∅
     = (Throw (missing_value_error "K_R" "SEC" 1),
        mk_stream " E- 1  2 " 0 false true, ∅).
Proof.
  assert (Hfirst :
    first_occurrence (" " +:+ "K_R" +:+ " ") " E- 1 K_R 2 "
      " E- 1" ("" +:+ "2" +:+ String " " "")).
  { by apply (first_occurrence_by_find " K_R " " E- 1 K_R 2 " 5). }
  assert (H2 : is_token "2") by (by split).
  split; [by vm_compute|]. split; [by vm_compute|]. split; [exact Hfirst|].
  split; [done|]. split; [exact H2|]. split; [done|]. split; [done|]. split.
  - exact (X9_label_then_value (FP := decimal_literals) false "K_R" "" "K_R" "SEC"
             {| int_default_value := 0; int_optional := false |} 2
             " E- 1" "" "2" " "%char "" (mk_stream " E- 1 K_R 2 " 0 false false) ∅
             ltac:(by vm_compute) Hfirst eq_refl H2 eq_refl eq_refl).
  - exact (X9_label_then_value (FP := decimal_literals) false "K_R" "" "K_R" "SEC"
             {| int_default_value := 0; int_optional := false |} 2
             " E- 1" "" "2" " "%char "" (mk_stream " E- 1 K_R 2 " 12 true true) ∅
             ltac:(by vm_compute) Hfirst eq_refl H2 eq_refl eq_refl).
Defined.

Lemma X10_witness :
  eofbit (mk_stream " E-  " 3 false false) = false
  /\ failbit (mk_stream " E-  " 3 false false) = false
  /\ (gptr (mk_stream " E-  " 3 false false)
      < String.length (buf (mk_stream " E-  " 3 false false)))%nat
  /\ size (buf (mk_stream " E-  " 3 false false)) <= max_size
  /\ all_chars isspace
       (drop (gptr (mk_stream " E-  " 3 false false))
          (buf (mk_stream " E-  " 3 false false))) = true
  /\ stod "" = invalid_argument
  /\ read "SEC" (IntComponent "E-" {| int_default_value := 0; int_optional := false |})
       (mk_stream " E-  " 3 false false) ∅
     = (Throw (missing_value_error "E-" "SEC" 1), mk_stream " E-  " 5 true true, ∅)
  /\ read "SEC" (IntComponent "E-" {| int_default_value := 0; int_optional := true |})
       (mk_stream " E-  " 3 false false) ∅
     = (Throw std_out_of_range, mk_stream " E-  " 5 true true, ∅)
  /\ read "SEC"
       (RealComponent "E-"
          {| real_default_value := {| negative := false; mantissa := 25; exponent := -1 |};
             real_optional := true |})
       (mk_stream " E-  " 3 false false) ∅
     = (Return (), mk_stream " E-  " 5 true true,
        <["E-" := v_real {| negative := false; mantissa := 25; exponent := -1 |}]> ∅)
  /\ read "SEC"
       (RealComponent "E-"
          {| real_default_value := {| negative := false; mantissa := 25; exponent := -1 |};
             real_optional := false |})
       (mk_stream " E-  " 3 false false) ∅
     = (Throw (missing_value_error "E-" "SEC" 1), mk_stream " E-  " 5 true true, ∅).
Proof.
  do 2 (split; [done|]). split; [simpl; lia|]. split; [by vm_compute|].
  split; [done|]. split; [done|].
  destruct (X10_scalar_with_white_space_only (FP := decimal_literals) "E-" "SEC"
              (mk_stream " E-  " 3 false false) ∅ eq_refl eq_refl ltac:(simpl; lia)
              ltac:(by vm_compute) eq_refl) as (Hint & Hopt & Hman).
  split; [|split; [|split]].
  - exact (Hint {| int_default_value := 0; int_optional := false |}).
  - exact (Hint {| int_default_value := 0; int_optional := true |}).
  - by apply Hopt.
  - by apply Hman.
Defined.

Lemma X11_witness :
  all_chars isspace " " = true /\ is_token "Slave" /\ isspace " " = true
  /\ size (" " +:+ " " +:+ "Slave" +:+ " ") <= max_size
  /\ size "none" <= max_size
  /\ read (FP := decimal_literals) "SEC" (StringComponent "SIDE" false "none")
       (mk_stream "  Slave " 1 false false) ∅
     = (Return (), mk_stream "   " 1 false false, <["SIDE" := v_string "Slave"]> ∅)
  /\ read (FP := decimal_literals) "SEC" (StringComponent "SIDE" false "none")
       (mk_stream " E- " 4 false false) ∅
     = (Return (), mk_stream " E- " 4 false false, <["SIDE" := v_string "none"]> ∅)
  /\ read (FP := decimal_literals) "SEC" (StringComponent "SIDE" false "none")
       (mk_stream " E-  " 3 false false) ∅
     = (Throw std_out_of_range, mk_stream " E-  " 5 true true, ∅)
  /\ read (FP := decimal_literals) "SEC" (StringComponent "SIDE" false "")
       (mk_stream " E-  " 3 false false) ∅
     = (Throw (value_not_properly_specified "SIDE" "SEC"),
        mk_stream " E-  " 5 true true, ∅).
Proof.
  assert (Htok : is_token "Slave") by (by split).
  split; [done|]. split; [exact Htok|]. split; [done|].
  split; [by vm_compute|]. split; [by vm_compute|].
  destruct (X11_string_read (FP := decimal_literals) "SIDE" "SEC" false "none" ∅)
    as (Htoken & Hend & Hblank).
  destruct (X11_string_read (FP := decimal_literals) "SIDE" "SEC" false "" ∅)
    as (_ & _ & Hblank').
  split; [|split; [|split]].
  - apply (Htoken " " " " "Slave" " "%char ""); [done|exact Htok|done|by vm_compute].
  - apply (Hend (mk_stream " E- " 4 false false)); [done|done|done|by vm_compute].
  - apply (Hblank (mk_stream " E-  " 3 false false));
      [done|done|simpl; lia|by vm_compute|by vm_compute|done].
  - apply (Hblank' (mk_stream " E-  " 3 false false));
      [done|done|simpl; lia|by vm_compute|by vm_compute|done].
Defined.

Lemma X12_witness :
  all_chars isspace " " = true /\ is_token "7" /\ isspace " " = true
  /\ size (" " +:+ " " +:+ "7" +:+ " ") <= max_size
  /\ read (FP := decimal_literals) "SEC"
       (ProcessedComponent "FUNCT" false (fun s c => <["FUNCT" := v_string s]> c))
       (mk_stream "  7 " 1 false false) ∅
     = (Return (), mk_stream "   " 1 false false, <["FUNCT" := v_string "7"]> ∅)
  /\ read (FP := decimal_literals) "SEC"
       (ProcessedComponent "FUNCT" false (fun s c => <["FUNCT" := v_string s]> c))
       (mk_stream " E- " 4 false false) ∅
     = (Return (), mk_stream " E- " 4 false false, ∅)
  /\ read (FP := decimal_literals) "SEC"
       (ProcessedComponent "FUNCT" false (fun s c => <["FUNCT" := v_string s]> c))
       (mk_stream " E-  " 3 false false) ∅
     = (Throw (value_not_properly_specified "FUNCT" "SEC"),
        mk_stream " E-  " 5 true true, ∅).
Proof.
  assert (Htok : is_token "7") by (by split).
  split; [done|]. split; [exact Htok|]. split; [done|]. split; [by vm_compute|].
  destruct (X12_processed_read (FP := decimal_literals) "FUNCT" "SEC" false
              (fun s c => <["FUNCT" := v_string s]> c) ∅) as (Htoken & Hend & Hblank).
  split; [|split].
  - apply (Htoken " " " " "7" " "%char ""); [done|exact Htok|done|by vm_compute].
  - apply (Hend (mk_stream " E- " 4 false false)); [done|done|done|by vm_compute].
  - apply (Hblank (mk_stream " E-  " 3 false false));
      [done|done|simpl; lia|by vm_compute|done].
Defined.

Lemma X13_witness :
  Forall spaced_token [("1", " "); ("-1", " "); ("0", " ")]
  /\ Forall spaced_token [("2.5", " ")]
  /\ all_chars isspace "" = true
  /\ size (" " +:+ "" +:+ tokens_text [("1", " "); ("-1", " "); ("0", " ")] "") <= max_size
  /\ size (" " +:+ "" +:+ tokens_text [("2.5", " ")] "") <= max_size
  /\ resolves (FP := decimal_literals) (length_int 3) ∅
       (Z.of_nat (length [("1", " "); ("-1", " "); ("0", " ")]))
  /\ resolves (FP := decimal_literals) (length_int 1) ∅ (Z.of_nat (length [("2.5", " ")]))
  /\ Forall2 (fun item v => stoi item.1 = Converted v (String.length item.1))
       [("1", " "); ("-1", " "); ("0", " ")] [1; -1; 0]
  /\ read (FP := decimal_literals) "SEC"
       (IntVectorComponent "STOICHIOMETRIES" false (length_int 3)
          {| int_default_value := 0; int_optional := false |})
       (mk_stream " 1 -1 0 " 1 false false) ∅
     = (Return (), mk_stream "    " 1 false false,
        <["STOICHIOMETRIES" := v_int_vector [1; -1; 0]]> ∅)
  /\ read "SEC"
       (RealVectorComponent "VALS" false (length_int 1)
          {| real_default_value := {| negative := false; mantissa := 0; exponent := 0 |};
             real_optional := false |})
       (mk_stream " 2.5 " 1 false false) ∅
     = (Return (), mk_stream "  " 1 false false,
        <["VALS" := v_real_vector [{| negative := false; mantissa := 25; exponent := -1 |}]]> ∅).
Proof.
  assert (Hitems : Forall spaced_token [("1", " "); ("-1", " "); ("0", " ")]).
  { repeat (constructor; [by repeat split|]). constructor. }
  assert (Hitem : Forall spaced_token [("2.5", " ")]).
  { repeat (constructor; [by repeat split|]). constructor. }
  assert (Hvalues :
    Forall2 (fun item v => stoi item.1 = Converted v (String.length item.1))
      [("1", " "); ("-1", " "); ("0", " ")] [1; -1; 0]).
  { repeat (constructor; [done|]). constructor. }
  split; [exact Hitems|]. split; [exact Hitem|]. split; [done|].
  split; [by vm_compute|]. split; [by vm_compute|]. split; [done|]. split; [done|].
  split; [exact Hvalues|]. split.
  - exact (proj1 (X13_vector_reads_tokens_in_order (FP := decimal_literals)
                    "STOICHIOMETRIES" "SEC" false (length_int 3) " " "" ""
                    [("1", " "); ("-1", " "); ("0", " ")] ∅ Hitems eq_refl
                    ltac:(by vm_compute) eq_refl)
             {| int_default_value := 0; int_optional := false |} [1; -1; 0] Hvalues).
  - apply (proj2 (X13_vector_reads_tokens_in_order (FP := decimal_literals)
                    "VALS" "SEC" false (length_int 1) " " "" ""
                    [("2.5", " ")] ∅ Hitem eq_refl ltac:(by vm_compute) eq_refl)).
    repeat (constructor; [done|]). constructor.
Defined.

Lemma X14_witness :
  Forall spaced_token [("1", " ")]
  /\ all_chars isspace "" = true /\ all_chars isspace " " = true /\ " " <> ""
  /\ size (" " +:+ "" +:+ tokens_text [("1", " ")] " ") <= max_size
  /\ resolves (FP := decimal_literals) (length_int 3) ∅ 3
  /\ Z.of_nat (length [("1", " ")]) < 3
  /\ Forall2 (fun item v => stoi item.1 = Converted v (String.length item.1))
       [("1", " ")] [1]
  /\ read (FP := decimal_literals) "SEC"
       (IntVectorComponent "STOICHIOMETRIES" false (length_int 3)
          {| int_default_value := 0; int_optional := false |})
       (mk_stream " 1  " 1 false false) ∅
     = (Throw (missing_value_error "STOICHIOMETRIES" "SEC" 3),
        mk_stream "   " 3 true true, ∅)
  /\ read (FP := decimal_literals) "SEC"
       (IntVectorComponent "STOICHIOMETRIES" true (length_int 3)
          {| int_default_value := 7; int_optional := true |})
       (mk_stream " 1  " 1 false false) ∅
     = (Return (), mk_stream "   " 3 true true,
        <["STOICHIOMETRIES" := v_int_vector [1; 7; 7]]> ∅).
Proof.
  assert (Hitems : Forall spaced_token [("1", " ")]).
  { repeat (constructor; [by repeat split|]). constructor. }
  assert (Hvalues :
    Forall2 (fun item v => stoi item.1 = Converted v (String.length item.1))
      [("1", " ")] [1]).
  { repeat (constructor; [done|]). constructor. }
  split; [exact Hitems|]. split; [done|]. split; [done|]. split; [done|].
  split; [by vm_compute|]. split; [done|]. split; [simpl; lia|]. split; [exact Hvalues|].
  split.
  - exact (proj1 (X14_vector_with_too_few_tokens (FP := decimal_literals)
                    "STOICHIOMETRIES" "SEC" false (length_int 3) " " "" " "
                    [("1", " ")] ∅ 3 Hitems eq_refl eq_refl ltac:(done)
                    ltac:(by vm_compute) eq_refl ltac:(simpl; lia))
             {| int_default_value := 0; int_optional := false |} [1] Hvalues).
  - exact (proj1 (X14_vector_with_too_few_tokens (FP := decimal_literals)
                    "STOICHIOMETRIES" "SEC" true (length_int 3) " " "" " "
                    [("1", " ")] ∅ 3 Hitems eq_refl eq_refl ltac:(done)
                    ltac:(by vm_compute) eq_refl ltac:(simpl; lia))
             {| int_default_value := 7; int_optional := true |} [1] Hvalues).
Defined.

Lemma X15_witness :
  read (FP := decimal_literals) "SEC"
    (IntVectorComponent "ONOFF" true (length_int 2)
       {| int_default_value := 0; int_optional := true |})
    (mk_stream " 1  " 1 false false) ∅
  = (Return (), mk_stream "   " 3 true true, <["ONOFF" := v_int_vector [1; 0]]> ∅)
  /\ exists n l,
       resolves (FP := decimal_literals) (length_int 2) ∅ n /\ 0 <= n
       /\ Z.of_nat (length l) = n
       /\ (<["ONOFF" := v_int_vector [1; 0]]> ∅ : gmap string value)
          = <["ONOFF" := v_int_vector l]> ∅.
Proof.
  assert (Hread :
    read (FP := decimal_literals) "SEC"
      (IntVectorComponent "ONOFF" true (length_int 2)
         {| int_default_value := 0; int_optional := true |})
      (mk_stream " 1  " 1 false false) ∅
    = (Return (), mk_stream "   " 3 true true, <["ONOFF" := v_int_vector [1; 0]]> ∅))
    by by_evaluation.
  split; [exact Hread|].
  exact (proj1 (X15_vector_stores_full_length (FP := decimal_literals) "ONOFF" "SEC" true
                  (length_int 2) _ _ ∅ _)
           {| int_default_value := 0; int_optional := true |} Hread).
Defined.

Lemma X16_witness :
  resolves (FP := decimal_literals) (length_int (-1)) ∅ (-1)
  /\ -1 < 0
  /\ LengthFromInt (FP := decimal_literals) "NUMSCAL" ∅ = Throw (container_error "NUMSCAL")
  /\ read (FP := decimal_literals) "SEC"
       (IntVectorComponent "ONOFF" false (length_int (-1))
          {| int_default_value := 0; int_optional := false |})
       (mk_stream " 1 0 " 1 false false) ∅
     = (Throw std_length_error, mk_stream " 1 0 " 1 false false, ∅)
  /\ read (FP := decimal_literals) "SEC"
       (IntVectorComponent "STOICHIOMETRIES" false (length_from (LengthFromInt "NUMSCAL"))
          {| int_default_value := 0; int_optional := false |})
       (mk_stream " 1 0 " 1 false false) ∅
     = (Throw (container_error "NUMSCAL"), mk_stream " 1 0 " 1 false false, ∅).
Proof.
  assert (Hmissing :
    LengthFromInt (FP := decimal_literals) "NUMSCAL" ∅ = Throw (container_error "NUMSCAL")).
  { unfold LengthFromInt, container_get_int. by rewrite lookup_empty. }
  split; [done|]. split; [lia|]. split; [exact Hmissing|].
  destruct (X16_vector_length_errors (FP := decimal_literals) "ONOFF" "SEC" false
              (mk_stream " 1 0 " 1 false false) ∅) as [Hneg _].
  destruct (X16_vector_length_errors (FP := decimal_literals) "STOICHIOMETRIES" "SEC" false
              (mk_stream " 1 0 " 1 false false) ∅) as [_ Hthrows].
  split.
  - exact (proj1 (Hneg (length_int (-1)) (-1)
                    {| int_default_value := 0; int_optional := false |}
                    {| real_default_value := {| negative := false; mantissa := 0;
                                                exponent := 0 |} : double;
                       real_optional := false |} eq_refl ltac:(lia))).
  - exact (proj1 (Hthrows (LengthFromInt "NUMSCAL") (container_error "NUMSCAL")
                    {| int_default_value := 0; int_optional := false |}
                    {| real_default_value := {| negative := false; mantissa := 0;
                                                exponent := 0 |} : double;
                       real_optional := false |} Hmissing)).
Defined.

Lemma X17_witness :
  eofbit (mk_stream " E- " 4 false false) = false
  /\ failbit (mk_stream " E- " 4 false false) = false
  /\ gptr (mk_stream " E- " 4 false false)
     = String.length (buf (mk_stream " E- " 4 false false))
  /\ size (buf (mk_stream " E- " 4 false false)) <= max_size
  /\ resolves (FP := decimal_literals) (length_int 2) ∅ 2 /\ 0 <= 2
  /\ read (FP := decimal_literals) "SEC"
       (IntComponent "E-" {| int_default_value := 5; int_optional := false |})
       (mk_stream " E- " 4 false false) ∅
     = (Return (), mk_stream " E- " 4 false false, <["E-" := v_int 5]> ∅)
  /\ read (FP := decimal_literals) "SEC"
       (IntVectorComponent "E-" false (length_int 2)
          {| int_default_value := 5; int_optional := false |})
       (mk_stream " E- " 4 false false) ∅
     = (Return (), mk_stream " E- " 4 false false,
        <["E-" := v_int_vector (replicate (Z.to_nat 2) 5)]> ∅).
Proof.
  do 3 (split; [done|]). split; [by vm_compute|]. split; [done|]. split; [lia|].
  destruct (X17_value_field_at_end_of_text (FP := decimal_literals) "E-" "SEC"
              (mk_stream " E- " 4 false false) ∅ eq_refl eq_refl eq_refl
              ltac:(by vm_compute)) as (Hint & _ & Hvec & _).
  split.
  - exact (Hint {| int_default_value := 5; int_optional := false |}).
  - exact (Hvec false (length_int 2) 2 {| int_default_value := 5; int_optional := false |}
             eq_refl ltac:(lia)).
Defined.

Lemma X18_witness :
  constructed interface_side
  /\ size (buf (mk_stream " 7 INTERFACE_SIDE Slave S2I_KINETICS_ID 3 " 0 false false))
     <= max_size
  /\ datfilevalues_ interface_side !! 1%nat = Some "Slave"
  /\ first_occurrence (" " +:+ "Slave" +:+ " ")
       " 7 INTERFACE_SIDE Slave S2I_KINETICS_ID 3 "
       " 7 INTERFACE_SIDE" "S2I_KINETICS_ID 3 "
  /\ (exists v,
        payload_at interface_side 1 = Some v /\
        read "SEC" (SelectionComponent interface_side)
          (mk_stream " 7 INTERFACE_SIDE Slave S2I_KINETICS_ID 3 " 0 false false) ∅
        = (Return (),
           mk_stream " 7 INTERFACE_SIDE  S2I_KINETICS_ID 3 " 18 false false,
           <[sel_name interface_side := v]> ∅))
  /\ (exists v,
        payload_at interface_side 1 = Some v /\
        read "SEC" (SelectionComponent interface_side)
          (mk_stream " 7 INTERFACE_SIDE Slave S2I_KINETICS_ID 3 " 42 true true) ∅
        = (Return (),
           mk_stream " 7 INTERFACE_SIDE  S2I_KINETICS_ID 3 " 0 false true,
           <[sel_name interface_side := v]> ∅)).
Proof.
  assert (Hfirst :
    first_occurrence (" " +:+ "Slave" +:+ " ")
      " 7 INTERFACE_SIDE Slave S2I_KINETICS_ID 3 "
      " 7 INTERFACE_SIDE" "S2I_KINETICS_ID 3 ").
  { by apply (first_occurrence_by_find " Slave " " 7 INTERFACE_SIDE Slave S2I_KINETICS_ID 3 "
                17). }
  assert (Hmin : forall j label', (j < 1)%nat ->
            datfilevalues_ interface_side !! j = Some label' ->
            ~ occurs (" " +:+ label' +:+ " ") " 7 INTERFACE_SIDE Slave S2I_KINETICS_ID 3 ").
  { intros [|j] label' Hj Hl; [|lia]. vm_compute in Hl. injection Hl as <-.
    by apply absent_by_find. }
  split; [exact interface_side_constructed|]. split; [by vm_compute|].
  split; [done|]. split; [exact Hfirst|]. split.
  - exact (X18_selection_takes_label_out interface_side "SEC"
             (mk_stream " 7 INTERFACE_SIDE Slave S2I_KINETICS_ID 3 " 0 false false) ∅
             1%nat "Slave" " 7 INTERFACE_SIDE" "S2I_KINETICS_ID 3 "
             interface_side_constructed ltac:(by vm_compute) eq_refl Hfirst Hmin).
  - exact (X18_selection_takes_label_out interface_side "SEC"
             (mk_stream " 7 INTERFACE_SIDE Slave S2I_KINETICS_ID 3 " 42 true true) ∅
             1%nat "Slave" " 7 INTERFACE_SIDE" "S2I_KINETICS_ID 3 "
             interface_side_constructed ltac:(by vm_compute) eq_refl Hfirst Hmin).
Defined.

Lemma kinetic_model_new :
  SwitchComponent_new (FP := decimal_literals) "KINETIC_MODEL" 1 kinetic_model_choices
  = Return (SwitchComponent "KINETIC_MODEL" 1 kinetic_model_choices kinetic_model_selection).
Proof. by_evaluation. Qed.

Lemma X19_witness :
  is_map kinetic_model_choices
  /\ NoDup (map (fun kc => kc.2.1) kinetic_model_choices)
  /\ (forall kc, kc ∈ kinetic_model_choices ->
        ~ occurs (" " +:+ kc.2.1 +:+ " ")
            (buf (mk_stream " ONOFF 1 0 E- 2 " 0 false false)))
  /\ read "SEC"
       (SwitchComponent "KINETIC_MODEL" 1 kinetic_model_choices kinetic_model_selection)
       (mk_stream " ONOFF 1 0 E- 2 " 0 false false) ∅
     = read_all "SEC"
         [SeparatorComponent false "ONOFF" "";
          IntVectorComponent "ONOFF" false (length_int 2)
            {| int_default_value := 0; int_optional := false |};
          SeparatorComponent false "E-" "";
          IntComponent "E-" {| int_default_value := 0; int_optional := false |}]
         (mk_stream
            (drop (String.length "ConstantInterfaceResistance")
               (buf (mk_stream " ONOFF 1 0 E- 2 " 0 false false)))
            0 false (failbit (mk_stream " ONOFF 1 0 E- 2 " 0 false false)))
         (<["KINETIC_MODEL" := v_int 1]> ∅).
Proof.
  assert (Hnodup : NoDup (map (fun kc => kc.2.1) kinetic_model_choices)).
  { simpl. apply NoDup_cons. split; [|apply NoDup_singleton].
    intros H. by apply list_elem_of_singleton in H. }
  assert (Habs : forall kc, kc ∈ kinetic_model_choices ->
            ~ occurs (" " +:+ kc.2.1 +:+ " ")
                (buf (mk_stream " ONOFF 1 0 E- 2 " 0 false false))).
  { intros kc Hkc. unfold kinetic_model_choices in Hkc.
    repeat (apply elem_of_cons in Hkc as [->|Hkc]; [by apply absent_by_find|]).
    by apply elem_of_nil in Hkc. }
  split; [exact kinetic_model_is_map|]. split; [exact Hnodup|]. split; [exact Habs|].
  exact (X19_switch_without_label_reads_default (FP := decimal_literals) "KINETIC_MODEL" 1
           kinetic_model_choices "ConstantInterfaceResistance" _ _ "SEC"
           (mk_stream " ONOFF 1 0 E- 2 " 0 false false) ∅
           kinetic_model_new kinetic_model_is_map Hnodup eq_refl Habs).
Defined.

Lemma X20_witness :
  is_map kinetic_model_choices
  /\ head_not_blank "ConstantInterfaceResistance"
  /\ default_line (fun _ => "0")
       (SwitchComponent "KINETIC_MODEL" 1 kinetic_model_choices kinetic_model_selection)
     = "ConstantInterfaceResistance ONOFF 0 0  E- 0 "
  /\ exists ss',
       read "SEC"
         (SwitchComponent "KINETIC_MODEL" 1 kinetic_model_choices kinetic_model_selection)
         (mk_stream
            (" " +:+ default_line (fun _ => "0")
                       (SwitchComponent "KINETIC_MODEL" 1 kinetic_model_choices
                          kinetic_model_selection))
            0 false false) ∅
       = (Return (), ss',
          store_defaults
            [SeparatorComponent false "ONOFF" "";
             IntVectorComponent "ONOFF" false (length_int 2)
               {| int_default_value := 0; int_optional := false |};
             SeparatorComponent false "E-" "";
             IntComponent "E-" {| int_default_value := 0; int_optional := false |}]
            (<["KINETIC_MODEL" := v_int 1]> ∅))
       /\ all_chars isspace (buf ss') = true.
Proof.
  split; [exact kinetic_model_is_map|]. split; [done|]. split; [by_evaluation|].
  apply (X20_switch_default_line_reads_back (FP := decimal_literals) (fun _ => "0")
           "KINETIC_MODEL" 1 kinetic_model_choices 1%nat "ConstantInterfaceResistance" _ _
           "SEC" ∅ kinetic_model_new kinetic_model_is_map eq_refl).
  - done.
  - repeat (constructor; [simpl; try done; by vm_compute|]). constructor.
  - by vm_compute.
  - intros [|j] kc Hj Hkc; [|lia]. injection Hkc as <-. by apply absent_by_find.
Defined.

Lemma X22_witness :
  2 <= 2
  /\ is_token "0"
  /\ stod "" = invalid_argument
  /\ size (" " +:+ default_line (fun _ => "0")
                     (RealVectorComponent "VALS" false (length_int 2)
                        {| real_default_value :=
                             {| negative := false; mantissa := 0; exponent := 0 |};
                           real_optional := false |}) +:+ " ") <= max_size
  /\ default_line (fun _ => "0")
       (RealVectorComponent "VALS" false (length_int 2)
          {| real_default_value := {| negative := false; mantissa := 0; exponent := 0 |};
             real_optional := false |})
     = "00"
  /\ exists e ss',
       read "SEC"
         (RealVectorComponent "VALS" false (length_int 2)
            {| real_default_value := {| negative := false; mantissa := 0; exponent := 0 |};
               real_optional := false |})
         (mk_stream
            (" " +:+ default_line (fun _ => "0")
                       (RealVectorComponent "VALS" false (length_int 2)
                          {| real_default_value :=
                               {| negative := false; mantissa := 0; exponent := 0 |};
                             real_optional := false |}) +:+ " ")
            0 false false) ∅
       = (Throw e, ss', ∅).
Proof.
  assert (Htok : is_token "0") by (by split).
  split; [lia|]. split; [exact Htok|]. split; [done|]. split; [by vm_compute|].
  split; [done|].
  by apply (X22_real_vector_default_line_does_not_read_back (FP := decimal_literals)
              (fun _ => "0") "VALS" "SEC" 2).
Defined.

Lemma X23_witness :
  all_chars isspace "" = true /\ is_token "3"
  /\ size (" " +:+ "" +:+ "3") <= max_size
  /\ stoi "3" = Converted 3 (String.length "3")
  /\ read (FP := decimal_literals) "SEC"
       (IntComponent "NUMSCAL" {| int_default_value := 0; int_optional := false |})
       (mk_stream " 3" 1 false false) ∅
     = (Throw std_out_of_range, mk_stream " 3" 2 true true, ∅)
  /\ read (FP := decimal_literals) "SEC" (StringComponent "SIDE" false "none")
       (mk_stream " 3" 1 false false) ∅
     = (Throw std_out_of_range, mk_stream " 3" 2 true true, ∅).
Proof.
  assert (Htok : is_token "3") by (by split).
  split; [done|]. split; [exact Htok|]. split; [by vm_compute|]. split; [done|].
  destruct (X23_last_token_needs_white_space (FP := decimal_literals) "NUMSCAL" "SEC"
              " " "" "3" ∅ eq_refl Htok ltac:(by vm_compute)) as (Hint & _ & _).
  destruct (X23_last_token_needs_white_space (FP := decimal_literals) "SIDE" "SEC"
              " " "" "3" ∅ eq_refl Htok ltac:(by vm_compute)) as (_ & _ & Hstring).
  split.
  - exact (Hint {| int_default_value := 0; int_optional := false |} 3 eq_refl).
  - exact (Hstring false "none").
Defined.

(** ** The statements on a stream that a read has left failed *)

(** An optional Real whose label is the last thing on the line.  The
    Separator removes the label and leaves a good stream at position 1;
    the Real finds only white space there, stores its default and returns,
    and the extraction it tried leaves the stream failed.  From then on
    [tellg] reports -1, which is outside the text. *)
Lemma C2_counterexample :
  read "SEC" (SeparatorComponent true "K_R" "") (mk_stream " K_R " 0 false false) ∅
  = (Return (), mk_stream "  " 1 false false, ∅)
  /\ read "SEC"
       (RealComponent "K_R"
          {| real_default_value := {| negative := false; mantissa := 0; exponent := 0 |};
             real_optional := true |})
       (mk_stream "  " 1 false false) ∅
     = (Return (), mk_stream "  " 2 true true,
        <["K_R" := v_real {| negative := false; mantissa := 0; exponent := 0 |}]> ∅)
  /\ tellg (mk_stream "  " 2 true true) = (-1, mk_stream "  " 2 true true)
  /\ ~ (0 <= (tellg (mk_stream "  " 2 true true)).1
        <= size (buf (mk_stream "  " 2 true true))).
Proof. split; [by_evaluation|]. split; [by_evaluation|]. split; [done|]. simpl. lia. Qed.

Lemma C2_witness :
  (gptr (mk_stream "  " 1 false false)
   <= String.length (buf (mk_stream "  " 1 false false)))%nat
  /\ (let '(outcome, ss', c') :=
        read "SEC"
          (RealComponent "K_R"
             {| real_default_value := {| negative := false; mantissa := 0; exponent := 0 |};
                real_optional := true |})
          (mk_stream "  " 1 false false) ∅ in
      (0 <= gptr ss' <= String.length (buf ss'))%nat
      /\ (good ss' = true -> 0 <= (tellg ss').1 <= size (buf ss'))
      /\ (good ss' = false -> (tellg ss').1 = -1))
  /\ constructed interface_side
  /\ failbit (mk_stream "  " 1 false false) = false
  /\ (exists v ss',
        read "SEC" (SelectionComponent interface_side) (mk_stream "  " 1 false false) ∅
        = (Return (), ss', <[sel_name interface_side := v]> ∅)
        /\ good ss' = true
        /\ tellg ss' = (0, ss'))
  /\ (gptr (mk_stream " E- 1 2 " 4 false false)
      <= String.length (buf (mk_stream " E- 1 2 " 4 false false)))%nat
  /\ reads_tokens (IntComponent "E-" {| int_default_value := 0; int_optional := false |})
  /\ good (mk_stream " E- 1 2 " 4 false false) = true
  /\ read "SEC" (IntComponent "E-" {| int_default_value := 0; int_optional := false |})
       (mk_stream " E- 1 2 " 4 false false) ∅
     = (Return (), mk_stream " E-  2 " 4 false false, <["E-" := v_int 1]> ∅)
  /\ good (mk_stream " E-  2 " 4 false false) = true
  /\ (tellg (mk_stream " E-  2 " 4 false false)).1
     = (tellg (mk_stream " E- 1 2 " 4 false false)).1.
Proof.
  destruct (C2_read_keeps_position_in_text (FP := decimal_literals) "SEC"
              (mk_stream "  " 1 false false) ∅ ltac:(simpl; lia)) as (Hany & _ & Hsel).
  destruct (C2_read_keeps_position_in_text (FP := decimal_literals) "SEC"
              (mk_stream " E- 1 2 " 4 false false) ∅ ltac:(simpl; lia)) as (_ & Htok & _).
  assert (Hread :
    read (FP := decimal_literals) "SEC"
      (IntComponent "E-" {| int_default_value := 0; int_optional := false |})
      (mk_stream " E- 1 2 " 4 false false) ∅
    = (Return (), mk_stream " E-  2 " 4 false false, <["E-" := v_int 1]> ∅))
    by by_evaluation.
  split; [simpl; lia|]. split.
  { exact (Hany
             (RealComponent "K_R"
                {| real_default_value := {| negative := false; mantissa := 0; exponent := 0 |};
                   real_optional := true |})). }
  split; [exact interface_side_constructed|]. split; [done|]. split.
  { apply (Hsel interface_side interface_side_constructed eq_refl).
    intros label Hl. apply absent_by_find.
    repeat (apply elem_of_cons in Hl as [->|Hl]; [done|]). by apply elem_of_nil in Hl. }
  split; [simpl; lia|]. split; [done|]. split; [done|]. split; [exact Hread|].
  split; [done|].
  exact (Htok (IntComponent "E-" {| int_default_value := 0; int_optional := false |})
           _ _ I eq_refl Hread eq_refl).
Defined.

(** A line on which an optional vector of two values finds one: the read
    returns, with the default in the second place, and leaves the stream
    failed.  The Separator declared next finds its label A, which began at
    index 3, and takes it out, but the get position is 0 and not 3; the
    optional Separator after it does not find its label C, and the get
    position is still 0 and not the end of the text. *)
Lemma C4_counterexample :
  read_all "SEC"
    [SeparatorComponent false "B" "";
     IntVectorComponent "B" true (length_int 2)
       {| int_default_value := 0; int_optional := true |}]
    (mk_stream " 7 A 1 B 5 " 0 false false) ∅
  = (Return (), mk_stream " 7 A 1   " 9 true true, <["B" := v_int_vector [5; 0]]> ∅)
  /\ read "SEC" (SeparatorComponent false "A" "")
       (mk_stream " 7 A 1   " 9 true true) (<["B" := v_int_vector [5; 0]]> ∅)
     = (Return (), mk_stream " 7  1   " 0 false true, <["B" := v_int_vector [5; 0]]> ∅)
  /\ read "SEC" (SeparatorComponent true "C" "")
       (mk_stream " 7  1   " 0 false true) (<["B" := v_int_vector [5; 0]]> ∅)
     = (Return (), mk_stream " 7  1   " 0 false true, <["B" := v_int_vector [5; 0]]> ∅).
Proof. split; [by_evaluation|]. split; by_evaluation. Qed.

Lemma C4_witness :
  size (buf (mk_stream " E- 1 K_R 2.5 " 0 false false)) <= max_size
  /\ size (buf (mk_stream " 7 A 1   " 9 true true)) <= max_size
  /\ read "SEC" (SeparatorComponent false "K_R" "")
       (mk_stream " E- 1 K_R 2.5 " 0 false false) ∅
     = (Return (), mk_stream " E- 1  2.5 " 6 false false, ∅)
  /\ read "SEC" (SeparatorComponent true "ALPHA_A" "")
       (mk_stream " E- 1 K_R 2.5 " 0 false false) ∅
     = (Return (), mk_stream " E- 1 K_R 2.5 " 14 false false, ∅)
  /\ read "SEC" (SeparatorComponent false "ALPHA_A" "")
       (mk_stream " E- 1 K_R 2.5 " 0 false false) ∅
     = (Throw
          (four_c_throw
             "Required parameter '%s' for section '%s' not specified in input file!"
             [arg_s "ALPHA_A"; arg_s "SEC"]),
        mk_stream " E- 1 K_R 2.5 " 0 false false, ∅)
  /\ read "SEC" (SeparatorComponent false "A" "") (mk_stream " 7 A 1   " 9 true true) ∅
     = (Return (), mk_stream " 7  1   " 0 false true, ∅)
  /\ read "SEC" (SeparatorComponent true "C" "") (mk_stream " 7 A 1   " 3 false true) ∅
     = (Return (), mk_stream " 7 A 1   " 3 false true, ∅).
Proof.
  split; [by vm_compute|]. split; [by vm_compute|].
  split; [|split; [|split; [|split]]].
  - apply (proj1 (C4_separator_read (FP := decimal_literals) false "K_R" "" "SEC"
                    (mk_stream " E- 1 K_R 2.5 " 0 false false) ∅
                    ltac:(by vm_compute)) " E- 1" "2.5 ").
    by apply (first_occurrence_by_find " K_R " " E- 1 K_R 2.5 " 5).
  - apply (proj2 (C4_separator_read (FP := decimal_literals) true "ALPHA_A" "" "SEC"
                    (mk_stream " E- 1 K_R 2.5 " 0 false false) ∅
                    ltac:(by vm_compute))).
    by apply absent_by_find.
  - apply (proj2 (C4_separator_read (FP := decimal_literals) false "ALPHA_A" "" "SEC"
                    (mk_stream " E- 1 K_R 2.5 " 0 false false) ∅
                    ltac:(by vm_compute))).
    by apply absent_by_find.
  - apply (proj1 (C4_separator_read (FP := decimal_literals) false "A" "" "SEC"
                    (mk_stream " 7 A 1   " 9 true true) ∅
                    ltac:(by vm_compute)) " 7" "1   ").
    by apply (first_occurrence_by_find " A " " 7 A 1   " 2).
  - apply (proj2 (C4_separator_read (FP := decimal_literals) true "C" "" "SEC"
                    (mk_stream " 7 A 1   " 3 false true) ∅
                    ltac:(by vm_compute))).
    by apply absent_by_find.
Defined.

(** A label with nothing but white space after it.  The Separator takes
    the label out; the optional Real that follows returns with its default,
    but the get position has moved from 1 to the end of the text and the
    stream has failed; the optional Int that follows throws. *)
Lemma C7_counterexample :
  read "SEC" (SeparatorComponent false "E-" "") (mk_stream " E-  " 0 false false) ∅
  = (Return (), mk_stream "   " 1 false false, ∅)
  /\ read "SEC"
       (RealComponent "E-"
          {| real_default_value := {| negative := false; mantissa := 25; exponent := -1 |};
             real_optional := true |})
       (mk_stream "   " 1 false false) ∅
     = (Return (), mk_stream "   " 3 true true,
        <["E-" := v_real {| negative := false; mantissa := 25; exponent := -1 |}]> ∅)
  /\ read "SEC" (IntComponent "E-" {| int_default_value := 5; int_optional := true |})
       (mk_stream "   " 1 false false) ∅
     = (Throw std_out_of_range, mk_stream "   " 3 true true, ∅).
Proof. split; [by_evaluation|]. split; by_evaluation. Qed.

Lemma C7_witness :
  eofbit (mk_stream " E- 1  " 7 false false) = false
  /\ failbit (mk_stream " E- 1  " 7 false false) = false
  /\ gptr (mk_stream " E- 1  " 7 false false)
     = String.length (buf (mk_stream " E- 1  " 7 false false))
  /\ size (buf (mk_stream " E- 1  " 7 false false)) <= max_size
  /\ read "SEC" (IntComponent "FUNCT" {| int_default_value := 5; int_optional := true |})
       (mk_stream " E- 1  " 7 false false) ∅
     = (Return (), mk_stream " E- 1  " 7 false false, <["FUNCT" := v_int 5]> ∅)
  /\ read "SEC"
       (RealComponent "VAL"
          {| real_default_value := {| negative := false; mantissa := 25; exponent := -1 |};
             real_optional := true |})
       (mk_stream " E- 1  " 7 false false) ∅
     = (Return (), mk_stream " E- 1  " 7 false false,
        <["VAL" := v_real {| negative := false; mantissa := 25; exponent := -1 |}]> ∅)
  /\ (gptr (mk_stream "   " 1 false false)
      < String.length (buf (mk_stream "   " 1 false false)))%nat
  /\ all_chars isspace
       (drop (gptr (mk_stream "   " 1 false false)) (buf (mk_stream "   " 1 false false)))
     = true
  /\ read "SEC"
       (RealComponent "VAL"
          {| real_default_value := {| negative := false; mantissa := 25; exponent := -1 |};
             real_optional := true |})
       (mk_stream "   " 1 false false) ∅
     = (Return (), mk_stream "   " 3 true true,
        <["VAL" := v_real {| negative := false; mantissa := 25; exponent := -1 |}]> ∅).
Proof.
  do 3 (split; [done|]). split; [by vm_compute|].
  destruct (C7_optional_scalar_without_token (FP := decimal_literals) "FUNCT" "SEC"
              (mk_stream " E- 1  " 7 false false) ∅ eq_refl eq_refl
              ltac:(by vm_compute)) as [Hend _].
  destruct (Hend eq_refl) as [Hint _].
  destruct (C7_optional_scalar_without_token (FP := decimal_literals) "VAL" "SEC"
              (mk_stream " E- 1  " 7 false false) ∅ eq_refl eq_refl
              ltac:(by vm_compute)) as [Hend' _].
  destruct (Hend' eq_refl) as [_ Hreal].
  destruct (C7_optional_scalar_without_token (FP := decimal_literals) "VAL" "SEC"
              (mk_stream "   " 1 false false) ∅ eq_refl eq_refl
              ltac:(by vm_compute)) as [_ Hws].
  split; [by apply Hint|]. split; [by apply Hreal|].
  split; [simpl; lia|]. split; [done|].
  by apply (Hws ltac:(simpl; lia) eq_refl).
Defined.

(** The kinetic-model Switch.  On the line that ends with the last value,
    with no white space after it, the key and the vector are stored and
    the last Int throws.  On the line that starts with the first
    sub-field's label, with no label of the Switch, the default key 1 is
    stored; valid tokens for key 1's list follow, and the read throws. *)
Lemma C8_counterexample :
  read "SEC"
    (SwitchComponent "KINETIC_MODEL" 1 kinetic_model_choices kinetic_model_selection)
    (mk_stream " ConstantInterfaceResistance ONOFF 1 0 E- 2" 0 false false) ∅
  = (Throw std_out_of_range, mk_stream "      2" 7 true true,
     <["ONOFF" := v_int_vector [1; 0]]> (<["KINETIC_MODEL" := v_int 1]> ∅))
  /\ read "SEC"
       (SwitchComponent "KINETIC_MODEL" 1 kinetic_model_choices kinetic_model_selection)
       (mk_stream " ONOFF 1 0 E- 2 " 0 false false) ∅
     = (Throw (required_parameter_missing "ONOFF" "SEC"), mk_stream "" 0 false false,
        <["KINETIC_MODEL" := v_int 1]> ∅).
Proof. split; by_evaluation. Qed.

(** The texts that fill the components of key 1. *)
Lemma kinetic_model_line :
  fills_all (<["KINETIC_MODEL" := v_int 1]> ∅)
    [SeparatorComponent false "ONOFF" "";
     IntVectorComponent "ONOFF" false (length_int 2)
       {| int_default_value := 0; int_optional := false |};
     SeparatorComponent false "E-" "";
     IntComponent "E-" {| int_default_value := 0; int_optional := false |}]
    "ONOFF 1 0 E- 2 " ""
    (<["E-" := v_int 2]>
       (<["ONOFF" := v_int_vector [1; 0]]> (<["KINETIC_MODEL" := v_int 1]> ∅))).
Proof.
  apply (fills_cons _ _ _ "ONOFF " "1 0 E- 2 " "" (<["KINETIC_MODEL" := v_int 1]> ∅));
    [by apply (fills_Separator _ false "ONOFF" "")|].
  apply (fills_cons _ _ _ "1 0 " "E- 2 " ""
           (<["ONOFF" := v_int_vector [1; 0]]> (<["KINETIC_MODEL" := v_int 1]> ∅))).
  { apply (fills_IntVector _ "ONOFF" false (length_int 2) _ ["1"; "0"] [1; 0]).
    - done.
    - by repeat (constructor; [by split|]).
    - done.
    - by repeat constructor. }
  apply (fills_cons _ _ _ "E- " "2 " ""
           (<["ONOFF" := v_int_vector [1; 0]]> (<["KINETIC_MODEL" := v_int 1]> ∅)));
    [by apply (fills_Separator _ false "E-" "")|].
  apply (fills_cons _ _ _ "2 " "" ""
           (<["E-" := v_int 2]>
              (<["ONOFF" := v_int_vector [1; 0]]> (<["KINETIC_MODEL" := v_int 1]> ∅))));
    [|apply fills_nil].
  by apply (fills_Int _ "E-" _ "2" 2).
Qed.

(** A Selection and a Switch are filled in the same way: by a label, and
    by a label and the texts of its key. *)
Example interface_side_fills :
  fills ∅ (SelectionComponent interface_side) "Slave " "3 "
    (<["interface_side" := v_int 1]> ∅).
Proof.
  apply (fills_Selection ∅ interface_side 1 "Slave" (v_int 1) "3 ");
    [exact interface_side_constructed|done|done| |done].
  intros [|j] label' Hj Hl; [|lia]. injection Hl as <-.
  split; [done|]. by apply absent_by_find.
Qed.

Example kinetic_model_fills :
  fills ∅
    (SwitchComponent "KINETIC_MODEL" 1 kinetic_model_choices kinetic_model_selection)
    "ConstantInterfaceResistance ONOFF 1 0 E- 2 " ""
    (<["E-" := v_int 2]>
       (<["ONOFF" := v_int_vector [1; 0]]> (<["KINETIC_MODEL" := v_int 1]> ∅))).
Proof.
  apply (fills_Switch ∅ "KINETIC_MODEL" 1 kinetic_model_choices kinetic_model_choices
           kinetic_model_selection 1 1 "ConstantInterfaceResistance"
           [SeparatorComponent false "ONOFF" "";
            IntVectorComponent "ONOFF" false (length_int 2)
              {| int_default_value := 0; int_optional := false |};
            SeparatorComponent false "E-" "";
            IntComponent "E-" {| int_default_value := 0; int_optional := false |}]
           "ONOFF 1 0 E- 2 " "");
    [exact kinetic_model_new|exact kinetic_model_is_map|done|done| |exact kinetic_model_line].
  intros [|j] kc Hj Hkc; [|lia]. injection Hkc as <-.
  split; [done|]. by apply absent_by_find.
Qed.

Lemma C8_witness :
  SwitchComponent_new "KINETIC_MODEL" 1 kinetic_model_choices
  = Return (SwitchComponent "KINETIC_MODEL" 1 kinetic_model_choices kinetic_model_selection)
  /\ (exists k label components ss1,
        sel_name kinetic_model_selection = "KINETIC_MODEL"
        /\ read "SEC" (SelectionComponent kinetic_model_selection)
             (mk_stream " ONOFF 1 0 E- 2 " 0 false false) ∅
           = (Return (), ss1, <["KINETIC_MODEL" := v_int k]> ∅)
        /\ k ∈ map fst kinetic_model_choices
        /\ choice_at kinetic_model_choices k = Some (label, components)
        /\ read "SEC"
             (SwitchComponent "KINETIC_MODEL" 1 kinetic_model_choices kinetic_model_selection)
             (mk_stream " ONOFF 1 0 E- 2 " 0 false false) ∅
           = read_all "SEC" components ss1 (<["KINETIC_MODEL" := v_int k]> ∅))
  /\ is_map kinetic_model_choices
  /\ head_not_blank "ConstantInterfaceResistance"
  /\ fills_all (<["KINETIC_MODEL" := v_int 1]> ∅)
       [SeparatorComponent false "ONOFF" "";
        IntVectorComponent "ONOFF" false (length_int 2)
          {| int_default_value := 0; int_optional := false |};
        SeparatorComponent false "E-" "";
        IntComponent "E-" {| int_default_value := 0; int_optional := false |}]
       "ONOFF 1 0 E- 2 " ""
       (<["E-" := v_int 2]>
          (<["ONOFF" := v_int_vector [1; 0]]> (<["KINETIC_MODEL" := v_int 1]> ∅)))
  /\ size (" ConstantInterfaceResistance ONOFF 1 0 E- 2 ") <= max_size
  /\ exists k' g',
       (g' <= k')%nat
       /\ read "SEC"
            (SwitchComponent "KINETIC_MODEL" 1 kinetic_model_choices kinetic_model_selection)
            (mk_stream " ConstantInterfaceResistance ONOFF 1 0 E- 2 " 0 false false) ∅
          = (Return (), mk_stream (blank (S k') +:+ "") g' false false,
             <["E-" := v_int 2]>
               (<["ONOFF" := v_int_vector [1; 0]]> (<["KINETIC_MODEL" := v_int 1]> ∅))).
Proof.
  destruct (C8_switch_read (FP := decimal_literals) "KINETIC_MODEL" 1 kinetic_model_choices
              kinetic_model_choices kinetic_model_selection "SEC" ∅ kinetic_model_new)
    as [Hfirst Hline].
  assert (Hhead : head_not_blank "ConstantInterfaceResistance") by done.
  split; [exact kinetic_model_new|]. split; [exact (Hfirst _)|].
  split; [exact kinetic_model_is_map|]. split; [exact Hhead|].
  split; [exact kinetic_model_line|].
  split; [by vm_compute|].
  apply (Hline 1%nat 1 "ConstantInterfaceResistance" _ "ONOFF 1 0 E- 2 " "" _ 0%nat 0%nat
           kinetic_model_is_map eq_refl Hhead); [|exact kinetic_model_line|lia|by vm_compute].
  intros [|j] kc Hj Hkc; [|lia]. injection Hkc as <-. by apply absent_by_find.
Defined.



End Properties.
